(** * Resurrector: health monitoring and incident orchestration

    A shallow embedding of the orchestration core of the Resurrector
    controller (event bus, anomaly classifier, incident store, the seven
    pipeline stages and the polling loop), together with the properties
    of its specification.

    The singletons of the program (bus, incident manager, orchestrator)
    are the fields of one state record; a computation passes the state
    along and may throw.  Time, random identifiers and the answers to
    HTTP requests come from an environment that is read in order.  An
    [await] is a point of the same computation: a poll, with the
    pipeline it may start, runs to its end before the next one begins
    (a tick that finds a pipeline running returns at once in the
    source, too). *)

From Stdlib Require Import List ZArith QArith Qround Bool String Ascii Lia.
From Stdlib Require Import DecimalString Permutation Sorted.
Import ListNotations.
Local Open Scope string_scope.
Local Open Scope Z_scope.

(* ================================================================== *)
(** ** JavaScript values *)
(* ================================================================== *)

(** A JavaScript [number].  Finite doubles are rationals; comparisons of
    doubles agree with comparisons of the rationals they denote, so the
    only behaviour added by IEEE arithmetic that the code can observe is
    that of [NaN] and the two infinities. *)
Inductive number : Type :=
| NaN
| PInf
| NInf
| Fin (q : Q).

Definition ZNum (z : Z) : number := Fin (inject_Z z).

(** [a > b] *)
Definition num_gt (a b : number) : bool :=
  match a, b with
  | NaN, _ | _, NaN => false
  | PInf, PInf => false
  | PInf, _ => true
  | NInf, _ => false
  | Fin _, PInf => false
  | Fin _, NInf => true
  | Fin x, Fin y => negb (Qle_bool x y)
  end.

(** [a === b] on numbers *)
Definition num_eqb (a b : number) : bool :=
  match a, b with
  | PInf, PInf | NInf, NInf => true
  | Fin x, Fin y => Qeq_bool x y
  | _, _ => false
  end.

(** A template literal whose numeric holes are kept symbolic: the text
    the engine prints for a double is not modelled. *)
Inductive Chunk : Type :=
| Lit (s : string)
| Num (n : number)                (* ${n} *)
| Fixed (digits : nat) (n : number). (* ${n.toFixed(digits)} *)

Definition Template := list Chunk.

Set Warnings "-register-all".

(** The values that travel in event payloads, evidence bags, agent
    results and response bodies. *)
Inductive JValue : Type :=
| JUndefined
| JNull
| JBool (b : bool)
| JNum (n : number)
| JStr (s : string)
| JText (t : Template)
| JDate (ms : Z)
| JArr (l : list JValue)
| JObj (fields : list (string * JValue))
| JTimelineOf (incidentId : string). (* a reference to an incident's timeline array *)

(** [Record<string, unknown>] in insertion order. *)
Definition JRecord := list (string * JValue).

Fixpoint obj_get (k : string) (o : JRecord) : JValue :=
  match o with
  | [] => JUndefined
  | (k', v) :: o' => if String.eqb k k' then v else obj_get k o'
  end.

(** Property assignment: an existing key keeps its position. *)
Fixpoint obj_set (k : string) (v : JValue) (o : JRecord) : JRecord :=
  match o with
  | [] => [(k, v)]
  | (k', v') :: o' =>
      if String.eqb k k' then (k, v) :: o' else (k', v') :: obj_set k v o'
  end.

(** [{ ...a, ...b }] *)
Definition obj_spread (a b : JRecord) : JRecord :=
  fold_left (fun acc kv => obj_set (fst kv) (snd kv) acc) b a.

Definition truthy (v : JValue) : bool :=
  match v with
  | JUndefined | JNull => false
  | JBool b => b
  | JNum NaN => false
  | JNum (Fin q) => negb (Qeq_bool q 0)
  | JNum _ => true
  | JStr s => negb (String.eqb s "")
  | JText t => negb (forallb (fun c => match c with
                                       | Lit s => String.eqb s ""
                                       | _ => false
                                       end) t)
  | _ => true
  end.

Definition opt_str (o : option string) : JValue :=
  match o with Some s => JStr s | None => JUndefined end.

Definition string_of_Z (z : Z) : string := NilZero.string_of_int (Z.to_int z).

(* ================================================================== *)
(** ** types.ts *)
(* ================================================================== *)

Inductive Severity := low | medium | high | critical.

Inductive FailureType :=
| crashloop | latency_spike | memory_leak | service_down
| config_error | dependency_failure | resource_exhaustion.

Inductive RecoveryAction :=
| restart_pod | rollback_deployment | scale_up | scale_down
| reload_config | clear_cache | restore_database | switch_traffic.

Inductive IncidentStatus :=
| detected | analyzing | healing | escalated | recovering | resolved | failed.

Definition Severity_str (s : Severity) : string :=
  match s with
  | low => "low" | medium => "medium" | high => "high" | critical => "critical"
  end.

Definition FailureType_str (f : FailureType) : string :=
  match f with
  | crashloop => "crashloop" | latency_spike => "latency_spike"
  | memory_leak => "memory_leak" | service_down => "service_down"
  | config_error => "config_error" | dependency_failure => "dependency_failure"
  | resource_exhaustion => "resource_exhaustion"
  end.

Definition RecoveryAction_str (a : RecoveryAction) : string :=
  match a with
  | restart_pod => "restart_pod" | rollback_deployment => "rollback_deployment"
  | scale_up => "scale_up" | scale_down => "scale_down"
  | reload_config => "reload_config" | clear_cache => "clear_cache"
  | restore_database => "restore_database" | switch_traffic => "switch_traffic"
  end.

Definition IncidentStatus_str (s : IncidentStatus) : string :=
  match s with
  | detected => "detected" | analyzing => "analyzing" | healing => "healing"
  | escalated => "escalated" | recovering => "recovering"
  | resolved => "resolved" | failed => "failed"
  end.

Definition IncidentStatus_eqb (a b : IncidentStatus) : bool :=
  match a, b with
  | detected, detected | analyzing, analyzing | healing, healing
  | escalated, escalated | recovering, recovering
  | resolved, resolved | failed, failed => true
  | _, _ => false
  end.

Record RecoveryAttempt := {
  ra_action : RecoveryAction;
  ra_timestamp : Z;
  ra_target : string;
  ra_success : bool;
  ra_error : option string;
  ra_duration : Z
}.

Record TimelineEvent := {
  te_timestamp : Z;
  te_event : string;
  te_details : option JRecord
}.

Record IncidentReport := {
  rep_id : string;
  rep_incidentId : string;
  rep_timeline : JValue;   (* the incident's own array, not a copy *)
  rep_rootCauseAnalysis : string;
  rep_actionsSummary : string;
  rep_preventionRecommendations : list string;
  rep_generatedAt : Z
}.

Record Incident := {
  id : string;
  timestamp : Z;
  status : IncidentStatus;
  failureType : FailureType;
  severity : Severity;
  affectedServices : list string;
  rootCause : option string;
  attemptedActions : list RecoveryAttempt;
  resolvedAt : option Z;
  report : option IncidentReport;
  timeline : option (list TimelineEvent)  (* attached on first use *)
}.

(* ================================================================== *)
(** ** health-monitor.ts: snapshots and the anomaly classifier *)
(* ================================================================== *)

Record DemoApp := {
  healthy : bool;
  statusCode : number;
  responseTimeMs : number;
  error : option string
}.

Record Probe := { p_healthy : bool; p_error : option string }.

Record Metrics := {
  errorRate : number;
  latencyP99Ms : number;
  memoryUsageMB : number;
  podRestarts : number;
  httpRequestsTotal : number
}.

Record HealthSnapshot := {
  demoApp : DemoApp;
  database : Probe;
  prometheus : Probe;
  metrics : Metrics;
  hs_timestamp : Z
}.

Record AnomalyReport := {
  ar_detected : bool;
  ar_failureType : FailureType;
  ar_severity : Severity;
  ar_affectedServices : list string;
  evidence : JRecord;
  description : Template
}.

Definition detectAnomalies (snapshot : HealthSnapshot) : option AnomalyReport :=
  let app := demoApp snapshot in
  let m := metrics snapshot in
  (* Service completely down *)
  if negb (healthy app) && num_eqb (statusCode app) (ZNum 0) then
    Some {| ar_detected := true;
            ar_failureType := service_down;
            ar_severity := critical;
            ar_affectedServices := ["demo-app"];
            evidence := [("statusCode", JNum (statusCode app));
                         ("error", opt_str (error app));
                         ("responseTimeMs", JNum (responseTimeMs app))];
            description :=
              [Lit "Demo application is completely unreachable. Service appears to be down."] |}
  (* Service unhealthy (503) *)
  else if negb (healthy app) && num_eqb (statusCode app) (ZNum 503) then
    Some {| ar_detected := true;
            ar_failureType := service_down;
            ar_severity := high;
            ar_affectedServices := ["demo-app"];
            evidence := [("statusCode", JNum (statusCode app));
                         ("error", opt_str (error app));
                         ("responseTimeMs", JNum (responseTimeMs app))];
            description :=
              [Lit "Demo application health check returning 503 Unhealthy."] |}
  (* Latency spike (response time > 2000ms) *)
  else if num_gt (responseTimeMs app) (ZNum 2000) then
    Some {| ar_detected := true;
            ar_failureType := latency_spike;
            ar_severity := high;
            ar_affectedServices := ["demo-app"];
            evidence := [("responseTimeMs", JNum (responseTimeMs app));
                         ("latencyP99Ms", JNum (latencyP99Ms m))];
            description :=
              [Lit "High latency detected: "; Num (responseTimeMs app);
               Lit "ms response time."] |}
  (* High error rate (>5%) *)
  else if num_gt (errorRate m) (ZNum 5) then
    Some {| ar_detected := true;
            ar_failureType := dependency_failure;
            ar_severity := high;
            ar_affectedServices := ["demo-app"];
            evidence := [("errorRate", JNum (errorRate m))];
            description :=
              [Lit "High error rate detected: "; Fixed 1 (errorRate m);
               Lit "% of requests failing."] |}
  (* Memory pressure (>200MB for the demo app) *)
  else if num_gt (memoryUsageMB m) (ZNum 200) then
    Some {| ar_detected := true;
            ar_failureType := memory_leak;
            ar_severity := medium;
            ar_affectedServices := ["demo-app"];
            evidence := [("memoryUsageMB", JNum (memoryUsageMB m))];
            description :=
              [Lit "Memory pressure detected: "; Fixed 0 (memoryUsageMB m);
               Lit "MB used."] |}
  else None.

(** The verdict carried by a report: classification and severity. *)
Definition verdict (r : option AnomalyReport) : option (FailureType * Severity) :=
  match r with
  | Some a => Some (ar_failureType a, ar_severity a)
  | None => None
  end.

(** *** The rule table of the specification

    "Evaluated as a first-match, ordered set of rules": a rule is a
    condition on the snapshot and the verdict it yields. *)
Definition Rule := ((HealthSnapshot -> bool) * (FailureType * Severity))%type.

Fixpoint first_match (rules : list Rule) (s : HealthSnapshot)
  : option (FailureType * Severity) :=
  match rules with
  | [] => None
  | (cond, v) :: rest => if cond s then Some v else first_match rest s
  end.

(** The five rules as the specification words them. *)
Definition spec_rules : list Rule :=
  [ (fun s => num_eqb (statusCode (demoApp s)) (ZNum 0),   (service_down, critical));
    (fun s => num_eqb (statusCode (demoApp s)) (ZNum 503), (service_down, high));
    (fun s => num_gt (responseTimeMs (demoApp s)) (ZNum 2000), (latency_spike, high));
    (fun s => num_gt (errorRate (metrics s)) (ZNum 5),     (dependency_failure, high));
    (fun s => num_gt (memoryUsageMB (metrics s)) (ZNum 200), (memory_leak, medium)) ].

(** The same table with the two status-code rules restricted to
    snapshots whose application probe is unhealthy. *)
Definition guarded_rules : list Rule :=
  [ (fun s => negb (healthy (demoApp s)) && num_eqb (statusCode (demoApp s)) (ZNum 0),
       (service_down, critical));
    (fun s => negb (healthy (demoApp s)) && num_eqb (statusCode (demoApp s)) (ZNum 503),
       (service_down, high));
    (fun s => num_gt (responseTimeMs (demoApp s)) (ZNum 2000), (latency_spike, high));
    (fun s => num_gt (errorRate (metrics s)) (ZNum 5),     (dependency_failure, high));
    (fun s => num_gt (memoryUsageMB (metrics s)) (ZNum 200), (memory_leak, medium)) ].

(** A snapshot with every metric at rest. *)
Definition quiet_metrics : Metrics :=
  {| errorRate := ZNum 0; latencyP99Ms := ZNum 0; memoryUsageMB := ZNum 0;
     podRestarts := ZNum 0; httpRequestsTotal := ZNum 0 |}.

Definition mk_snapshot (h : bool) (code ms : Z) (m : Metrics) : HealthSnapshot :=
  {| demoApp := {| healthy := h; statusCode := ZNum code;
                   responseTimeMs := ZNum ms; error := None |};
     database := {| p_healthy := h; p_error := None |};
     prometheus := {| p_healthy := true; p_error := None |};
     metrics := m;
     hs_timestamp := 0 |}.

(* ================================================================== *)
(** ** The process state and its environment *)
(* ================================================================== *)

(** event-bus.ts *)
Inductive EventType :=
| health_check | health_healthy | health_degraded | anomaly_detected
| agent_start | agent_complete | agent_error
| incident_created | incident_update | incident_resolved
| recovery_action | recovery_success | recovery_failed
| dr_started | dr_complete | traffic_switching | traffic_complete
| report_generated | system_status | chaos_injected.

Record BusEvent := {
  type : EventType;
  ev_timestamp : Z;
  data : JRecord
}.

(** A subscriber either returns from the event or throws an [Error]
    with the given message. *)
Definition Handler := BusEvent -> option string.

(** How a call ends: with a value, or with a thrown [Error] and its
    message. *)
Inductive Result (A : Type) : Type :=
| Ok (a : A)
| Throw (msg : string).
Arguments Ok {A} a.
Arguments Throw {A} msg.

(** What [fetch] resolves to; [json()] parses the body or throws. *)
Record Response := {
  resp_status : Z;
  resp_json : Result JValue
}.

Definition resp_ok (r : Response) : bool :=
  (200 <=? resp_status r) && (resp_status r <=? 299).

(** The answers of the outside world, in the order they are asked for. *)
Record Env := {
  now_at : nat -> Z;                    (* Date.now(), new Date() *)
  random_at : nat -> string;            (* Math.random().toString(36).substr(2, 6).toUpperCase() *)
  fetch_at : nat -> Result Response     (* fetch(...) *)
}.

Definition Store := list (string * Incident).

(** The observable actions of a run, oldest first.  The journal is not
    program state: nothing reads it; it records what happened so that
    properties of whole runs can be stated. *)
Inductive Act :=
| ASleep (ms : Z)
| AFetch (url method : string)
| AEmit (e : BusEvent)
| ADeliver (subscriber : nat) (e : BusEvent)
| AStore (s : Store).

Record World := mkWorld {
  (* ResurrectorEventBus *)
  eventHistory : list BusEvent;
  listeners : list Handler;
  (* IncidentManager *)
  incidents : Store;
  (* Orchestrator *)
  pipelineRunning : bool;
  lastHealthSnapshot : option HealthSnapshot;
  consecutiveHealthy : nat;
  consecutiveUnhealthy : nat;
  (* environment *)
  env : Env;
  now_ix : nat;
  random_ix : nat;
  fetch_ix : nat;
  (* journal *)
  trace : list Act
}.

Definition set_eventHistory (h : list BusEvent) (w : World) : World :=
  mkWorld h (listeners w) (incidents w) (pipelineRunning w) (lastHealthSnapshot w)
          (consecutiveHealthy w) (consecutiveUnhealthy w) (env w)
          (now_ix w) (random_ix w) (fetch_ix w) (trace w).

Definition set_listeners (l : list Handler) (w : World) : World :=
  mkWorld (eventHistory w) l (incidents w) (pipelineRunning w) (lastHealthSnapshot w)
          (consecutiveHealthy w) (consecutiveUnhealthy w) (env w)
          (now_ix w) (random_ix w) (fetch_ix w) (trace w).

Definition set_incidents (s : Store) (w : World) : World :=
  mkWorld (eventHistory w) (listeners w) s (pipelineRunning w) (lastHealthSnapshot w)
          (consecutiveHealthy w) (consecutiveUnhealthy w) (env w)
          (now_ix w) (random_ix w) (fetch_ix w) (trace w).

Definition set_pipelineRunning (b : bool) (w : World) : World :=
  mkWorld (eventHistory w) (listeners w) (incidents w) b (lastHealthSnapshot w)
          (consecutiveHealthy w) (consecutiveUnhealthy w) (env w)
          (now_ix w) (random_ix w) (fetch_ix w) (trace w).

Definition set_lastHealthSnapshot (s : option HealthSnapshot) (w : World) : World :=
  mkWorld (eventHistory w) (listeners w) (incidents w) (pipelineRunning w) s
          (consecutiveHealthy w) (consecutiveUnhealthy w) (env w)
          (now_ix w) (random_ix w) (fetch_ix w) (trace w).

Definition set_consecutiveHealthy (n : nat) (w : World) : World :=
  mkWorld (eventHistory w) (listeners w) (incidents w) (pipelineRunning w)
          (lastHealthSnapshot w) n (consecutiveUnhealthy w) (env w)
          (now_ix w) (random_ix w) (fetch_ix w) (trace w).

Definition set_consecutiveUnhealthy (n : nat) (w : World) : World :=
  mkWorld (eventHistory w) (listeners w) (incidents w) (pipelineRunning w)
          (lastHealthSnapshot w) (consecutiveHealthy w) n (env w)
          (now_ix w) (random_ix w) (fetch_ix w) (trace w).

Definition set_now_ix (n : nat) (w : World) : World :=
  mkWorld (eventHistory w) (listeners w) (incidents w) (pipelineRunning w)
          (lastHealthSnapshot w) (consecutiveHealthy w) (consecutiveUnhealthy w) (env w)
          n (random_ix w) (fetch_ix w) (trace w).

Definition set_random_ix (n : nat) (w : World) : World :=
  mkWorld (eventHistory w) (listeners w) (incidents w) (pipelineRunning w)
          (lastHealthSnapshot w) (consecutiveHealthy w) (consecutiveUnhealthy w) (env w)
          (now_ix w) n (fetch_ix w) (trace w).

Definition set_fetch_ix (n : nat) (w : World) : World :=
  mkWorld (eventHistory w) (listeners w) (incidents w) (pipelineRunning w)
          (lastHealthSnapshot w) (consecutiveHealthy w) (consecutiveUnhealthy w) (env w)
          (now_ix w) (random_ix w) n (trace w).

Definition record (a : list Act) (w : World) : World :=
  mkWorld (eventHistory w) (listeners w) (incidents w) (pipelineRunning w)
          (lastHealthSnapshot w) (consecutiveHealthy w) (consecutiveUnhealthy w) (env w)
          (now_ix w) (random_ix w) (fetch_ix w) (trace w ++ a).

(** *** Computations: state passing with exceptions

    A thrown exception keeps the state changes made before it. *)
Definition M (A : Type) : Type := World -> Result A * World.

Definition ret {A} (a : A) : M A := fun w => (Ok a, w).

Definition throw {A} (msg : string) : M A := fun w => (Throw msg, w).

Definition bind {A B} (m : M A) (k : A -> M B) : M B :=
  fun w =>
    match m w with
    | (Ok a, w') => k a w'
    | (Throw msg, w') => (Throw msg, w')
    end.

(** [try { m } catch (error) { h error.message }] *)
Definition try_catch {A} (m : M A) (h : string -> M A) : M A :=
  fun w =>
    match m w with
    | (Ok a, w') => (Ok a, w')
    | (Throw msg, w') => h msg w'
    end.

(** [try { m } finally { f }] where [f] does not throw. *)
Definition finally {A} (m : M A) (f : World -> World) : M A :=
  fun w => let (r, w') := m w in (r, f w').

Definition gets {A} (f : World -> A) : M A := fun w => (Ok (f w), w).

Definition modify (f : World -> World) : M unit := fun w => (Ok tt, f w).

Declare Scope monad_scope.
Delimit Scope monad_scope with monad.
Notation "x <- m ;; k" := (bind m (fun x => k))
  (at level 61, m at next level, right associativity) : monad_scope.
Notation "m ;; k" := (bind m (fun _ => k))
  (at level 61, right associativity) : monad_scope.
Notation "' pat <- m ;; k" := (bind m (fun x => match x with pat => k end))
  (at level 61, pat pattern, m at next level, right associativity) : monad_scope.
Local Open Scope monad_scope.

(** State reached and result produced. *)
Definition result_of {A} (m : M A) (w : World) : Result A := fst (m w).
Definition state_of {A} (m : M A) (w : World) : World := snd (m w).

(** *** The outside world *)

Definition Date_now : M Z :=
  fun w => (Ok (now_at (env w) (now_ix w)), set_now_ix (S (now_ix w)) w).

Definition Math_random_suffix : M string :=
  fun w => (Ok (random_at (env w) (random_ix w)), set_random_ix (S (random_ix w)) w).

Definition sleep (ms : Z) : M unit := modify (record [ASleep ms]).

Definition fetch (url method : string) : M Response :=
  fun w =>
    let w' := record [AFetch url method] (set_fetch_ix (S (fetch_ix w)) w) in
    match fetch_at (env w) (fetch_ix w) with
    | Ok r => (Ok r, w')
    | Throw msg => (Throw msg, w')
    end.

(** [await response.json()] *)
Definition json (r : Response) : M JValue :=
  match resp_json r with
  | Ok v => ret v
  | Throw msg => throw msg
  end.

(** [body.status === 'healthy'] for a parsed body; reading a property
    of [null] or [undefined] is a [TypeError]. *)
Definition body_status_healthy (body : JValue) : M bool :=
  match body with
  | JNull => throw "Cannot read properties of null (reading 'status')"
  | JUndefined => throw "Cannot read properties of undefined (reading 'status')"
  | JObj o => ret (match obj_get "status" o with
                   | JStr s => String.eqb s "healthy"
                   | _ => false
                   end)
  | _ => ret false
  end.

Definition DEMO_APP_URL : string := "http://localhost:8080".

(* ================================================================== *)
(** ** event-bus.ts: ResurrectorEventBus *)
(* ================================================================== *)

Scheme Equality for EventType.

Definition maxHistory : Z := 500.

(** [l.slice(start)] for an integer [start]. *)
Definition slice_from {A} (start : Z) (l : list A) : list A :=
  let len := Z.of_nat (List.length l) in
  let k := if start <? 0 then Z.max (len + start) 0 else Z.min start len in
  skipn (Z.to_nat k) l.

(** [EventEmitter.prototype.emit]: the listeners are called one after
    the other in registration order, on the caller's stack; an exception
    thrown by a listener leaves the loop and reaches the caller. *)
Fixpoint call_listeners (ls : list Handler) (i : nat) (e : BusEvent)
  : list Act * option string :=
  match ls with
  | [] => ([], None)
  | h :: rest =>
      match h e with
      | Some msg => ([ADeliver i e], Some msg)
      | None => let (acts, r) := call_listeners rest (S i) e in
                (ADeliver i e :: acts, r)
      end
  end.

Definition EventEmitter_emit (event : BusEvent) : M bool :=
  fun w =>
    let (acts, r) := call_listeners (listeners w) 0 event in
    match r with
    | None => (Ok (match listeners w with [] => false | _ => true end), record acts w)
    | Some msg => (Throw msg, record acts w)
    end.

Definition push_history (event : BusEvent) (h : list BusEvent) : list BusEvent :=
  let h' := (h ++ [event])%list in
  if Z.of_nat (List.length h') >? maxHistory then slice_from (- maxHistory) h' else h'.

Definition emit (ty : EventType) (d : JRecord) : M bool :=
  now <- Date_now ;;
  let event := {| type := ty; ev_timestamp := now; data := d |} in
  modify (fun w => set_eventHistory (push_history event (eventHistory w)) w) ;;
  modify (record [AEmit event]) ;;
  EventEmitter_emit event.

Definition onEvent (handler : Handler) : M unit :=
  modify (fun w => set_listeners (listeners w ++ [handler])%list w).

(** A parameter with a default: [None] is the omitted argument.  The
    limit is taken to be an integer. *)
Definition or_default (limit : option Z) (default : Z) : Z :=
  match limit with Some l => l | None => default end.

Definition getHistory (limit : option Z) (w : World) : list BusEvent :=
  slice_from (- or_default limit 100) (eventHistory w).

Definition getHistoryByType (ty : EventType) (limit : option Z) (w : World)
  : list BusEvent :=
  slice_from (- or_default limit 50)
             (filter (fun e => EventType_beq (type e) ty) (eventHistory w)).

Definition clearHistory : M unit := modify (set_eventHistory []).

(* ================================================================== *)
(** ** incident-manager.ts: IncidentManager *)
(* ================================================================== *)

(** [Map.prototype.get] *)
Fixpoint store_get (k : string) (s : Store) : option Incident :=
  match s with
  | [] => None
  | (k', v) :: s' => if String.eqb k k' then Some v else store_get k s'
  end.

(** [Map.prototype.set]: a key already present keeps its place in the
    iteration order. *)
Fixpoint store_set (k : string) (v : Incident) (s : Store) : Store :=
  match s with
  | [] => [(k, v)]
  | (k', v') :: s' =>
      if String.eqb k k' then (k, v) :: s' else (k', v') :: store_set k v s'
  end.

Definition with_status (st : IncidentStatus) (i : Incident) : Incident :=
  {| id := id i; timestamp := timestamp i; status := st;
     failureType := failureType i; severity := severity i;
     affectedServices := affectedServices i; rootCause := rootCause i;
     attemptedActions := attemptedActions i; resolvedAt := resolvedAt i;
     report := report i; timeline := timeline i |}.

Definition with_resolvedAt (t : Z) (i : Incident) : Incident :=
  {| id := id i; timestamp := timestamp i; status := status i;
     failureType := failureType i; severity := severity i;
     affectedServices := affectedServices i; rootCause := rootCause i;
     attemptedActions := attemptedActions i; resolvedAt := Some t;
     report := report i; timeline := timeline i |}.

Definition with_rootCause (c : string) (i : Incident) : Incident :=
  {| id := id i; timestamp := timestamp i; status := status i;
     failureType := failureType i; severity := severity i;
     affectedServices := affectedServices i; rootCause := Some c;
     attemptedActions := attemptedActions i; resolvedAt := resolvedAt i;
     report := report i; timeline := timeline i |}.

Definition with_report (r : IncidentReport) (i : Incident) : Incident :=
  {| id := id i; timestamp := timestamp i; status := status i;
     failureType := failureType i; severity := severity i;
     affectedServices := affectedServices i; rootCause := rootCause i;
     attemptedActions := attemptedActions i; resolvedAt := resolvedAt i;
     report := Some r; timeline := timeline i |}.

Definition push_attempt (a : RecoveryAttempt) (i : Incident) : Incident :=
  {| id := id i; timestamp := timestamp i; status := status i;
     failureType := failureType i; severity := severity i;
     affectedServices := affectedServices i; rootCause := rootCause i;
     attemptedActions := (attemptedActions i ++ [a])%list; resolvedAt := resolvedAt i;
     report := report i; timeline := timeline i |}.

Definition with_timeline (t : list TimelineEvent) (i : Incident) : Incident :=
  {| id := id i; timestamp := timestamp i; status := status i;
     failureType := failureType i; severity := severity i;
     affectedServices := affectedServices i; rootCause := rootCause i;
     attemptedActions := attemptedActions i; resolvedAt := resolvedAt i;
     report := report i; timeline := Some t |}.

(** Every write to the map or to a record it holds goes through here;
    the journal keeps the store as it is after the write. *)
Definition put_store (s : Store) (w : World) : World :=
  record [AStore s] (set_incidents s w).

(** An assignment to a field of the record held under key [k]. *)
Definition mutate_incident (k : string) (f : Incident -> Incident) : M unit :=
  modify (fun w =>
            match store_get k (incidents w) with
            | Some i => put_store (store_set k (f i) (incidents w)) w
            | None => w
            end).

Definition getIncident (incidentId : string) : M (option Incident) :=
  gets (fun w => store_get incidentId (incidents w)).

Definition generateId : M string :=
  now <- Date_now ;;
  sfx <- Math_random_suffix ;;
  ret ("INC-" ++ string_of_Z now ++ "-" ++ sfx).

Definition services_json (l : list string) : JValue := JArr (map JStr l).

Definition addTimeline (incidentId : string) (event : string)
           (details : option JRecord) : M unit :=
  incident <- getIncident incidentId ;;
  match incident with
  | None => ret tt
  | Some i =>
      match timeline i with
      | None => mutate_incident incidentId (with_timeline [])
      | Some _ => ret tt
      end ;;
      now <- Date_now ;;
      let timelineEntry :=
        {| te_timestamp := now; te_event := event; te_details := details |} in
      mutate_incident incidentId
        (fun i => with_timeline (match timeline i with
                                 | Some t => (t ++ [timelineEntry])%list
                                 | None => [timelineEntry]
                                 end) i)
  end.

Definition createIncident (ft : FailureType) (sev : Severity)
           (services : list string) : M Incident :=
  newId <- generateId ;;
  now <- Date_now ;;
  let incident :=
    {| id := newId; timestamp := now; status := detected;
       failureType := ft; severity := sev; affectedServices := services;
       rootCause := None; attemptedActions := []; resolvedAt := None;
       report := None; timeline := None |} in
  modify (fun w => put_store (store_set newId incident (incidents w)) w) ;;
  emit incident_created
       [("incidentId", JStr newId);
        ("failureType", JStr (FailureType_str ft));
        ("severity", JStr (Severity_str sev));
        ("affectedServices", services_json services)] ;;
  addTimeline newId "Incident detected"
       (Some [("failureType", JStr (FailureType_str ft));
              ("severity", JStr (Severity_str sev));
              ("affectedServices", services_json services)]) ;;
  ret incident.

Definition updateStatus (incidentId : string) (st : IncidentStatus) : M unit :=
  incident <- getIncident incidentId ;;
  match incident with
  | None => ret tt
  | Some _ =>
      mutate_incident incidentId (with_status st) ;;
      (if IncidentStatus_eqb st resolved
       then now <- Date_now ;; mutate_incident incidentId (with_resolvedAt now)
       else ret tt) ;;
      iso <- Date_now ;;
      emit incident_update
           [("incidentId", JStr incidentId);
            ("status", JStr (IncidentStatus_str st));
            ("timestamp", JDate iso)] ;;
      ret tt
  end.

Definition addRecoveryAttempt (incidentId : string) (attempt : RecoveryAttempt)
  : M unit :=
  incident <- getIncident incidentId ;;
  match incident with
  | None => ret tt
  | Some _ =>
      mutate_incident incidentId (push_attempt attempt) ;;
      emit recovery_action
           [("incidentId", JStr incidentId);
            ("action", JStr (RecoveryAction_str (ra_action attempt)));
            ("target", JStr (ra_target attempt));
            ("success", JBool (ra_success attempt));
            ("error", opt_str (ra_error attempt));
            ("duration", JNum (ZNum (ra_duration attempt)))] ;;
      addTimeline incidentId
           ("Recovery action: " ++ RecoveryAction_str (ra_action attempt))
           (Some [("target", JStr (ra_target attempt));
                  ("success", JBool (ra_success attempt));
                  ("error", opt_str (ra_error attempt))])
  end.

Definition setRootCause (incidentId : string) (cause : string) : M unit :=
  incident <- getIncident incidentId ;;
  match incident with
  | None => ret tt
  | Some _ => mutate_incident incidentId (with_rootCause cause)
  end.

Definition report_json (r : IncidentReport) : JValue :=
  JObj [("id", JStr (rep_id r));
        ("incidentId", JStr (rep_incidentId r));
        ("timeline", rep_timeline r);
        ("rootCauseAnalysis", JStr (rep_rootCauseAnalysis r));
        ("actionsSummary", JStr (rep_actionsSummary r));
        ("preventionRecommendations", JArr (map JStr (rep_preventionRecommendations r)));
        ("generatedAt", JDate (rep_generatedAt r))].

Definition setReport (incidentId : string) (r : IncidentReport) : M unit :=
  incident <- getIncident incidentId ;;
  match incident with
  | None => ret tt
  | Some _ =>
      mutate_incident incidentId (with_report r) ;;
      emit report_generated
           [("incidentId", JStr incidentId); ("report", report_json r)] ;;
      ret tt
  end.

Definition terminal (st : IncidentStatus) : bool :=
  match st with resolved | failed => true | _ => false end.

(** [Array.prototype.sort((a, b) => b.timestamp - a.timestamp)]: newest
    first, records of equal time in their former order. *)
Fixpoint insert_desc (x : Incident) (l : list Incident) : list Incident :=
  match l with
  | [] => [x]
  | y :: l' => if timestamp x <? timestamp y then y :: insert_desc x l' else x :: l
  end.

Definition sort_desc (l : list Incident) : list Incident :=
  fold_right insert_desc [] l.

Definition active_incidents (s : Store) : list Incident :=
  filter (fun i => negb (terminal (status i))) (map snd s).

Definition getActiveIncident (w : World) : option Incident :=
  hd_error (sort_desc (active_incidents (incidents w))).

Definition getAllIncidents (w : World) : list Incident :=
  sort_desc (map snd (incidents w)).

Definition getIncidentCount (w : World) : nat := List.length (incidents w).

(* ================================================================== *)
(** ** agents.ts: the seven stages *)
(* ================================================================== *)

Record AgentResult := {
  agent : string;
  success : bool;
  res_data : JRecord;
  duration : Z
}.

Definition executeAgent (agentName incidentId : string) (fn : M JRecord)
  : M AgentResult :=
  start <- Date_now ;;
  emit agent_start [("agent", JStr agentName); ("incidentId", JStr incidentId)] ;;
  addTimeline incidentId (agentName ++ " started") None ;;
  try_catch
    (d <- fn ;;
     stop <- Date_now ;;
     let dur := stop - start in
     emit agent_complete
          [("agent", JStr agentName); ("incidentId", JStr incidentId);
           ("success", JBool true); ("duration", JNum (ZNum dur));
           ("data", JObj d)] ;;
     addTimeline incidentId (agentName ++ " completed")
          (Some (obj_spread [("duration", JNum (ZNum dur))] d)) ;;
     ret {| agent := agentName; success := true; res_data := d; duration := dur |})
    (fun errorMsg =>
     stop <- Date_now ;;
     let dur := stop - start in
     emit agent_error
          [("agent", JStr agentName); ("incidentId", JStr incidentId);
           ("error", JStr errorMsg); ("duration", JNum (ZNum dur))] ;;
     addTimeline incidentId (agentName ++ " failed: " ++ errorMsg) None ;;
     ret {| agent := agentName; success := false;
            res_data := [("error", JStr errorMsg)]; duration := dur |}).

(** *** Agent 1: Observability Agent *)
Definition observability_body (anomaly : AnomalyReport) (snapshot : HealthSnapshot)
  : M JRecord :=
  sleep 800 ;;
  ret [("anomalyType", JStr (FailureType_str (ar_failureType anomaly)));
       ("severity", JStr (Severity_str (ar_severity anomaly)));
       ("description", JText (description anomaly));
       ("affectedServices", services_json (ar_affectedServices anomaly));
       ("evidence", JObj (evidence anomaly));
       ("healthSnapshot",
        JObj [("appStatus", JNum (statusCode (demoApp snapshot)));
              ("responseTimeMs", JNum (responseTimeMs (demoApp snapshot)));
              ("errorRate", JNum (errorRate (metrics snapshot)));
              ("memoryMB", JNum (memoryUsageMB (metrics snapshot)))])].

Definition runObservabilityAgent (incidentId : string) (anomaly : AnomalyReport)
           (snapshot : HealthSnapshot) : M AgentResult :=
  executeAgent "Observability Agent" incidentId (observability_body anomaly snapshot).

(** *** Agent 2: Incident Analyzer Agent *)

(** rootCause, rootCauseCategory, fixStrategy, confidence *)
Definition analysis (ft : FailureType) : string * string * string * string :=
  match ft with
  | service_down =>
      ("Application health check failing — service marked itself unhealthy or crashed",
       "Application Failure", "restart_service", "high")
  | latency_spike =>
      ("Artificial latency injection or resource contention causing slow responses",
       "Performance Degradation", "reset_latency", "high")
  | memory_leak =>
      ("Memory leak detected — application consuming excessive memory",
       "Resource Exhaustion", "restart_and_clear", "medium")
  | dependency_failure =>
      ("High error rate — database connection or dependency failure",
       "Dependency Failure", "check_dependencies", "medium")
  | other =>
      ("Unknown failure type: " ++ FailureType_str other,
       "Unknown", "restart_service", "low")
  end.

Definition analyzer_body (incidentId : string) (anomaly : AnomalyReport)
           (snapshot : HealthSnapshot) : M JRecord :=
  updateStatus incidentId analyzing ;;
  sleep 1200 ;;
  let '(cause, category, fixStrategy, confidence) := analysis (ar_failureType anomaly) in
  setRootCause incidentId cause ;;
  ret [("rootCause", JStr cause);
       ("rootCauseCategory", JStr category);
       ("fixStrategy", JStr fixStrategy);
       ("confidence", JStr confidence);
       ("correlatedMetrics",
        JObj [("errorRate", JNum (errorRate (metrics snapshot)));
              ("latencyP99Ms", JNum (latencyP99Ms (metrics snapshot)));
              ("memoryUsageMB", JNum (memoryUsageMB (metrics snapshot)))])].

Definition runAnalyzerAgent (incidentId : string) (anomaly : AnomalyReport)
           (snapshot : HealthSnapshot) : M AgentResult :=
  executeAgent "Incident Analyzer" incidentId (analyzer_body incidentId anomaly snapshot).

(** *** Agent 3: Self-Healing Agent *)

Definition known_strategy (s : string) : bool :=
  String.eqb s "restart_service" || String.eqb s "reset_latency"
  || String.eqb s "restart_and_clear" || String.eqb s "check_dependencies".

(** The [try] block of the stage; it yields the locals
    [success], [actionTaken], [actionError]. *)
Definition healing_attempt (incidentId fixStrategy : string)
  : M (bool * string * option string) :=
  if known_strategy fixStrategy then
    let actionTaken := "Reset chaos state via /chaos/reset" in
    try_catch
      (emit recovery_action
            [("incidentId", JStr incidentId);
             ("action", JStr "Sending reset signal to demo application");
             ("phase", JStr "executing")] ;;
       sleep 500 ;;
       response <- fetch (DEMO_APP_URL ++ "/chaos/reset") "POST" ;;
       if resp_ok response then
         emit recovery_action
              [("incidentId", JStr incidentId);
               ("action", JStr "Waiting for service stabilization");
               ("phase", JStr "stabilizing")] ;;
         sleep 2000 ;;
         healthCheck <- fetch (DEMO_APP_URL ++ "/health") "GET" ;;
         healthBody <- json healthCheck ;;
         good <- (if resp_ok healthCheck then body_status_healthy healthBody
                  else ret false) ;;
         if good then ret (true, actionTaken, None)
         else ret (false, actionTaken,
                   Some ("Health check failed after reset: "
                         ++ string_of_Z (resp_status healthCheck)))
       else ret (false, actionTaken,
                 Some ("Reset failed: HTTP " ++ string_of_Z (resp_status response))))
      (fun msg => ret (false, actionTaken, Some msg))
  else
    ret (false, "Unknown strategy: " ++ fixStrategy,
         Some "No handler for this fix strategy").

Definition healing_body (incidentId fixStrategy : string) : M JRecord :=
  updateStatus incidentId healing ;;
  start <- Date_now ;;
  '(ok, actionTaken, actionError) <- healing_attempt incidentId fixStrategy ;;
  stamp <- Date_now ;;
  stop <- Date_now ;;
  let attempt :=
    {| ra_action := restart_pod; ra_timestamp := stamp; ra_target := "demo-app";
       ra_success := ok; ra_error := actionError; ra_duration := stop - start |} in
  addRecoveryAttempt incidentId attempt ;;
  (if ok
   then emit recovery_success
             [("incidentId", JStr incidentId); ("action", JStr actionTaken)]
   else emit recovery_failed
             [("incidentId", JStr incidentId); ("action", JStr actionTaken);
              ("error", opt_str actionError)]) ;;
  ret [("success", JBool ok); ("actionTaken", JStr actionTaken);
       ("error", opt_str actionError)].

Definition runHealingAgent (incidentId fixStrategy : string) : M AgentResult :=
  executeAgent "Self-Healing Agent" incidentId (healing_body incidentId fixStrategy).

(** *** Agent 4: Recovery Decision Agent *)
Definition decision_body (incidentId : string) (healingSuccess : JValue) : M JRecord :=
  sleep 600 ;;
  if truthy healingSuccess then
    ret [("decision", JStr "resolved");
         ("reason", JStr "Self-healing succeeded, service is healthy");
         ("nextAction", JStr "generate_report")]
  else
    incident <- getIncident incidentId ;;
    let attempts :=
      match incident with
      | Some i => Z.of_nat (List.length (attemptedActions i))
      | None => 0
      end in
    if 3 <=? attempts then
      ret [("decision", JStr "escalate_dr");
           ("reason", JStr ("Self-healing failed after " ++ string_of_Z attempts
                            ++ " attempts. Escalating to disaster recovery."));
           ("nextAction", JStr "disaster_recovery")]
    else
      ret [("decision", JStr "escalate_dr");
           ("reason", JStr "Self-healing failed. Escalating to disaster recovery.");
           ("nextAction", JStr "disaster_recovery")].

Definition runRecoveryDecisionAgent (incidentId : string) (healingSuccess : JValue)
  : M AgentResult :=
  executeAgent "Recovery Decision Agent" incidentId
               (decision_body incidentId healingSuccess).

(** *** Agent 5: Disaster Recovery Agent *)

(** [for (let i = 0; i < 5; i++) { try { ... break } catch {} await sleep(1000) }]
    with [n] rounds left. *)
Fixpoint dr_health_loop (n : nat) : M bool :=
  match n with
  | O => ret false
  | S n' =>
      up <- try_catch (health <- fetch (DEMO_APP_URL ++ "/health") "GET" ;;
                       ret (resp_ok health))
                      (fun _ => ret false) ;;
      if up then ret true
      else sleep 1000 ;; dr_health_loop n'
  end.

Definition disaster_recovery_body (incidentId : string) : M JRecord :=
  updateStatus incidentId recovering ;;
  emit dr_started [("incidentId", JStr incidentId)] ;;
  emit recovery_action
       [("incidentId", JStr incidentId);
        ("action", JStr "Identifying latest backup snapshot");
        ("phase", JStr "backup_check")] ;;
  sleep 1000 ;;
  emit recovery_action
       [("incidentId", JStr incidentId);
        ("action", JStr "Restarting demo-app container");
        ("phase", JStr "container_restart")] ;;
  containerRestarted <-
    try_catch (resetResponse <- fetch (DEMO_APP_URL ++ "/chaos/reset") "POST" ;;
               ret (resp_ok resetResponse))
              (fun _ => ret false) ;;
  sleep 2000 ;;
  emit recovery_action
       [("incidentId", JStr incidentId);
        ("action", JStr "Validating system health post-recovery");
        ("phase", JStr "health_validation")] ;;
  recovered <- dr_health_loop 5 ;;
  stamp <- Date_now ;;
  let attempt :=
    {| ra_action := restore_database; ra_timestamp := stamp;
       ra_target := "demo-app + demo-db"; ra_success := recovered;
       ra_error := None; ra_duration := 4000 |} in
  addRecoveryAttempt incidentId attempt ;;
  emit dr_complete
       [("incidentId", JStr incidentId); ("success", JBool recovered);
        ("containerRestarted", JBool containerRestarted)] ;;
  ret [("recoveryStatus", JStr (if recovered then "success" else "partial"));
       ("restoredFrom", JStr "latest-snapshot");
       ("servicesRecovered",
        JArr (if recovered then [JStr "demo-app"; JStr "demo-db"] else []));
       ("dataLossWindow", JStr "none");
       ("readyForTraffic", JBool recovered)].

Definition runDisasterRecoveryAgent (incidentId : string) : M AgentResult :=
  executeAgent "Disaster Recovery Agent" incidentId (disaster_recovery_body incidentId).

(** *** Agent 6: Traffic Switch Agent *)
Definition traffic_switch_body (incidentId : string) (readyForTraffic : JValue)
  : M JRecord :=
  emit traffic_switching [("incidentId", JStr incidentId)] ;;
  if negb (truthy readyForTraffic) then
    ret [("trafficStatus", JStr "failed");
         ("reason", JStr "System not ready for traffic")]
  else
    emit recovery_action
         [("incidentId", JStr incidentId);
          ("action", JStr "Verifying system stability before traffic switch");
          ("phase", JStr "stability_check")] ;;
    sleep 1500 ;;
    stable <-
      try_catch (health <- fetch (DEMO_APP_URL ++ "/health") "GET" ;;
                 body <- json health ;;
                 if resp_ok health then body_status_healthy body else ret false)
                (fun _ => ret false) ;;
    (if stable then emit traffic_complete [("incidentId", JStr incidentId)]
     else ret false) ;;
    ret [("trafficStatus", JStr (if stable then "complete" else "rolled_back"));
         ("currentTrafficPercent", JNum (ZNum (if stable then 100 else 0)));
         ("stabilityCheck", JStr (if stable then "passed" else "failed"))].

Definition runTrafficSwitchAgent (incidentId : string) (readyForTraffic : JValue)
  : M AgentResult :=
  executeAgent "Traffic Switch Agent" incidentId
               (traffic_switch_body incidentId readyForTraffic).

(** *** Agent 7: Incident Reporter Agent *)

Definition formatDuration (ms : Z) : string :=
  let seconds := ms / 1000 in   (* Math.floor *)
  if seconds <? 60 then string_of_Z seconds ++ "s"
  else
    let minutes := seconds / 60 in
    let remainingSeconds := Z.rem seconds 60 in
    string_of_Z minutes ++ "m " ++ string_of_Z remainingSeconds ++ "s".

Definition base_recommendations : list string :=
  ["Implement automated health check monitoring with alerting";
   "Add circuit breakers for external dependencies";
   "Set up runbook automation for common failure scenarios"].

Definition generateRecommendations (ft : FailureType) : list string :=
  match ft with
  | service_down =>
      ["Add readiness and liveness probes with appropriate thresholds";
       "Implement graceful shutdown handling";
       "Configure horizontal pod autoscaling for high availability"]
        ++ base_recommendations
  | latency_spike =>
      ["Set up latency-based alerting with P95/P99 thresholds";
       "Implement request timeout and retry policies";
       "Add caching layer for frequently accessed data"]
        ++ base_recommendations
  | memory_leak =>
      ["Profile application memory usage in staging";
       "Set memory limits and configure OOM kill policies";
       "Implement periodic garbage collection monitoring"]
        ++ base_recommendations
  | dependency_failure =>
      ["Implement circuit breaker pattern for database connections";
       "Add connection pool monitoring and alerting";
       "Configure database failover and read replicas"]
        ++ base_recommendations
  | _ => base_recommendations
  end%list.

Definition newline : string := String (ascii_of_nat 10) EmptyString.

Definition attempt_line (a : RecoveryAttempt) : string :=
  RecoveryAction_str (ra_action a) ++ " on " ++ ra_target a ++ ": "
  ++ (if ra_success a then "SUCCESS" else "FAILED")
  ++ match ra_error a with
     | Some e => if String.eqb e "" then "" else " (" ++ e ++ ")"
     | None => ""
     end.

Definition reporter_body (incidentId : string) : M JRecord :=
  found <- getIncident incidentId ;;
  match found with
  | None => throw "Incident not found"
  | Some _ =>
      sleep 1000 ;;
      (* the record is read through the reference obtained above *)
      current <- getIncident incidentId ;;
      match current with
      | None => throw "Incident not found"
      | Some incident =>
          let tl := match timeline incident with
                    | Some _ => JTimelineOf incidentId
                    | None => JArr []
                    end in
          dur <- match resolvedAt incident with
                 | Some r => ret (r - timestamp incident)
                 | None => now <- Date_now ;; ret (now - timestamp incident)
                 end ;;
          idStamp <- Date_now ;;
          generated <- Date_now ;;
          let rep :=
            {| rep_id := "RPT-" ++ string_of_Z idStamp;
               rep_incidentId := incidentId;
               rep_timeline := tl;
               rep_rootCauseAnalysis :=
                 match rootCause incident with
                 | Some c => if String.eqb c "" then "Root cause analysis pending" else c
                 | None => "Root cause analysis pending"
                 end;
               rep_actionsSummary :=
                 String.concat newline (map attempt_line (attemptedActions incident));
               rep_preventionRecommendations :=
                 generateRecommendations (failureType incident);
               rep_generatedAt := generated |} in
          let actionsCount :=
            JNum (ZNum (Z.of_nat (List.length (attemptedActions incident)))) in
          setReport incidentId rep ;;
          updateStatus incidentId resolved ;;
          emit incident_resolved
               [("incidentId", JStr incidentId);
                ("duration", JNum (ZNum dur));
                ("report",
                 JObj [("id", JStr (rep_id rep));
                       ("rootCause", JStr (rep_rootCauseAnalysis rep));
                       ("actionsCount", actionsCount);
                       ("durationMs", JNum (ZNum dur))])] ;;
          ret [("reportId", JStr (rep_id rep));
               ("durationMs", JNum (ZNum dur));
               ("durationHuman", JStr (formatDuration dur));
               ("actionsCount", actionsCount);
               ("rootCause", JStr (rep_rootCauseAnalysis rep));
               ("recommendations", JArr (map JStr (rep_preventionRecommendations rep)))]
      end
  end.

Definition runReporterAgent (incidentId : string) : M AgentResult :=
  executeAgent "Incident Reporter" incidentId (reporter_body incidentId).

(* ================================================================== *)
(** ** health-monitor.ts: getHealthSnapshot *)
(* ================================================================== *)

(** What the three concurrent probes of one poll come back with. *)
Record PollInput := {
  in_demoApp : DemoApp;
  in_prometheus : Probe;
  in_metrics : Metrics
}.

(** The snapshot assembled from the probes of a poll taken at [now]. *)
Definition snapshot_of (p : PollInput) (now : Z) : HealthSnapshot :=
  {| demoApp := in_demoApp p;
     database := {| p_healthy := healthy (in_demoApp p);
                    p_error := if healthy (in_demoApp p) then None
                               else Some "Inferred from app health" |};
     prometheus := in_prometheus p;
     metrics := in_metrics p;
     hs_timestamp := now |}.

Definition getHealthSnapshot (p : PollInput) : M HealthSnapshot :=
  now <- Date_now ;;
  let app := in_demoApp p in
  let snapshot := snapshot_of p now in
  emit (if healthy app then health_healthy else health_degraded)
       [("demoApp", JBool (healthy app));
        ("prometheus", JBool (p_healthy (in_prometheus p)));
        ("responseTimeMs", JNum (responseTimeMs app));
        ("errorRate", JNum (errorRate (in_metrics p)))] ;;
  ret snapshot.

(* ================================================================== *)
(** ** orchestrator.ts: Orchestrator *)
(* ================================================================== *)

Definition is_str (v : JValue) (s : string) : bool :=
  match v with JStr s' => String.eqb s' s | _ => false end.

(** [analyzerResult.data.fixStrategy as string || 'restart_service'];
    the analyzer stores string tokens only. *)
Definition fixStrategy_of (d : JRecord) : string :=
  match obj_get "fixStrategy" d with
  | JStr s => if String.eqb s "" then "restart_service" else s
  | _ => "restart_service"
  end.

Definition runPipeline (anomaly : AnomalyReport) (snapshot : HealthSnapshot)
  : M unit :=
  modify (set_pipelineRunning true) ;;
  finally
    (try_catch
       (incident <- createIncident (ar_failureType anomaly) (ar_severity anomaly)
                                   (ar_affectedServices anomaly) ;;
        let incidentId := id incident in
        (* Agent 1: Observability Agent *)
        runObservabilityAgent incidentId anomaly snapshot ;;
        (* Agent 2: Incident Analyzer *)
        analyzerResult <- runAnalyzerAgent incidentId anomaly snapshot ;;
        let fixStrategy := fixStrategy_of (res_data analyzerResult) in
        (* Agent 3: Self-Healing Agent *)
        healingResult <- runHealingAgent incidentId fixStrategy ;;
        let healingSuccess := obj_get "success" (res_data healingResult) in
        (* Agent 4: Recovery Decision *)
        decisionResult <- runRecoveryDecisionAgent incidentId healingSuccess ;;
        let decision := obj_get "decision" (res_data decisionResult) in
        (if is_str decision "resolved" then
           (* Direct to reporter *)
           runReporterAgent incidentId ;; ret tt
         else if is_str decision "escalate_dr" then
           (* Agent 5: Disaster Recovery *)
           updateStatus incidentId escalated ;;
           drResult <- runDisasterRecoveryAgent incidentId ;;
           let readyForTraffic := obj_get "readyForTraffic" (res_data drResult) in
           (* Agent 6: Traffic Switch *)
           runTrafficSwitchAgent incidentId readyForTraffic ;;
           (* Agent 7: Reporter *)
           runReporterAgent incidentId ;; ret tt
         else ret tt) ;;
        (* Reset counters *)
        modify (set_consecutiveUnhealthy 0))
       (fun _ => ret tt))
    (set_pipelineRunning false).

Definition monitoringLoop (p : PollInput) : M unit :=
  busy <- gets pipelineRunning ;;
  if busy then ret tt
  else
    try_catch
      (snapshot <- getHealthSnapshot p ;;
       modify (set_lastHealthSnapshot (Some snapshot)) ;;
       emit health_check
            [("healthy", JBool (healthy (demoApp snapshot)));
             ("statusCode", JNum (statusCode (demoApp snapshot)));
             ("responseTimeMs", JNum (responseTimeMs (demoApp snapshot)));
             ("errorRate", JNum (errorRate (metrics snapshot)));
             ("memoryMB", JNum (memoryUsageMB (metrics snapshot)));
             ("timestamp", JDate (hs_timestamp snapshot))] ;;
       match detectAnomalies snapshot with
       | Some anomaly =>
           modify (fun w => set_consecutiveUnhealthy (S (consecutiveUnhealthy w)) w) ;;
           modify (set_consecutiveHealthy 0) ;;
           (* Only trigger pipeline after 2 consecutive unhealthy checks *)
           unhealthy <- gets consecutiveUnhealthy ;;
           busy' <- gets pipelineRunning ;;
           if (2 <=? unhealthy)%nat && negb busy' then
             activeIncident <- gets getActiveIncident ;;
             match activeIncident with
             | None =>
                 emit anomaly_detected
                      [("failureType", JStr (FailureType_str (ar_failureType anomaly)));
                       ("severity", JStr (Severity_str (ar_severity anomaly)));
                       ("description", JText (description anomaly))] ;;
                 runPipeline anomaly snapshot
             | Some _ => ret tt
             end
           else ret tt
       | None =>
           modify (fun w => set_consecutiveHealthy (S (consecutiveHealthy w)) w) ;;
           modify (set_consecutiveUnhealthy 0)
       end)
      (fun _ => ret tt).

(** A run of the loop: one poll per element, in order, each with what
    its probes came back with. *)
Fixpoint run_polls (ps : list PollInput) (w : World) : World :=
  match ps with
  | [] => w
  | p :: rest => run_polls rest (state_of (monitoringLoop p) w)
  end.

(** The process as it starts: nothing recorded, no incident, counters
    at zero. *)
Definition initial_world (e : Env) (subscribers : list Handler) : World :=
  {| eventHistory := []; listeners := subscribers; incidents := [];
     pipelineRunning := false; lastHealthSnapshot := None;
     consecutiveHealthy := 0; consecutiveUnhealthy := 0;
     env := e; now_ix := 0; random_ix := 0; fetch_ix := 0; trace := [] |}.

(* ================================================================== *)
(** ** health-monitor.ts: checkDemoAppHealth *)
(* ================================================================== *)

(** The probe that fills [in_demoApp].  [stringify] stands for
    [JSON.stringify], whose output is not modelled. *)
Definition checkDemoAppHealth (stringify : JValue -> string) : M DemoApp :=
  start <- Date_now ;;
  try_catch
    (response <- fetch (DEMO_APP_URL ++ "/health") "GET" ;;
     stop <- Date_now ;;
     body <- json response ;;
     good <- (if resp_ok response then body_status_healthy body else ret false) ;;
     ret {| healthy := good;
            statusCode := ZNum (resp_status response);
            responseTimeMs := ZNum (stop - start);
            error := if resp_ok response then None
                     else Some ("Status " ++ string_of_Z (resp_status response)
                                ++ ": " ++ stringify body) |})
    (fun msg =>
     stop <- Date_now ;;
     ret {| healthy := false;
            statusCode := ZNum 0;
            responseTimeMs := ZNum (stop - start);
            error := Some msg |}).

(** A probe result as [checkDemoAppHealth] builds them: flagged healthy
    only with a status in 200..299. *)
Definition probed (app : DemoApp) : Prop :=
  healthy app = true ->
  exists z, statusCode app = ZNum z /\ 200 <= z <= 299.

(* ================================================================== *)
(** ** Vocabulary of the properties *)
(* ================================================================== *)

(** [pres I m]: [m] keeps [I], whether it returns or throws. *)
Definition pres {A} (I : World -> Prop) (m : M A) : Prop :=
  forall w, I w -> I (state_of m w).

(** No subscriber of the bus ever throws. *)
Definition quiet (w : World) : Prop :=
  forall h e, In h (listeners w) -> h e = None.

(** [ok m]: with quiet subscribers [m] returns. *)
Definition ok {A} (m : M A) : Prop :=
  forall w, quiet w -> exists a, result_of m w = Ok a.

(** Number of events of one type published so far. *)
Fixpoint count_type (ty : EventType) (t : list Act) : nat :=
  match t with
  | [] => 0
  | AEmit e :: t' =>
      (if EventType_beq (type e) ty then 1 else 0) + count_type ty t'
  | _ :: t' => count_type ty t'
  end%nat.

(** The last event published. *)
Fixpoint last_emit_from (acc : option BusEvent) (t : list Act) : option BusEvent :=
  match t with
  | [] => acc
  | AEmit e :: t' => last_emit_from (Some e) t'
  | _ :: t' => last_emit_from acc t'
  end.

Definition last_emit (t : list Act) : option BusEvent := last_emit_from None t.

Definition is_store_act (a : Act) : bool :=
  match a with AStore _ => true | _ => false end.

Definition is_io_act (a : Act) : bool :=
  match a with ASleep _ | AFetch _ _ => true | _ => false end.

Definition is_deliver_act (a : Act) : bool :=
  match a with ADeliver _ _ => true | _ => false end.

(** Map keys are unique. *)
Definition store_ok (s : Store) : Prop := NoDup (map fst s).

Definition at_most_one_active (s : Store) : Prop :=
  (List.length (active_incidents s) <= 1)%nat.

(** Every record but the one under [k] is terminal. *)
Definition only_active (k : string) (s : Store) : Prop :=
  Forall (fun kv => fst kv = k \/ terminal (status (snd kv)) = true) s.

(** Every state the store went through satisfied [P]. *)
Definition store_always (P : Store -> Prop) (t : list Act) : Prop :=
  Forall (fun a => match a with AStore s => P s | _ => True end) t.

(** What a predicate on the state must tolerate to be kept by the
    operations of the incident store and of the stages, store writes
    being confined to the keys in [keys] and the two events
    [incident:created] and [report:generated] set apart. *)
Record stable (keys : string -> Prop) (I : World -> Prop) : Prop := {
  st_now : forall w n, I w -> I (set_now_ix n w);
  st_random : forall w n, I w -> I (set_random_ix n w);
  st_history : forall w h, I w -> I (set_eventHistory h w);
  st_deliver : forall w n e, I w -> I (record [ADeliver n e] w);
  st_emit : forall w e, type e <> incident_created -> type e <> report_generated ->
                        I w -> I (record [AEmit e] w);
  st_write : forall w k i i', keys k -> store_get k (incidents w) = Some i ->
                              I w -> I (put_store (store_set k i' (incidents w)) w)
}.

(** The predicate also tolerates waiting and requests. *)
Definition io_ok (I : World -> Prop) : Prop :=
  (forall w n, I w -> I (set_fetch_ix n w))
  /\ (forall w a, is_io_act a = true -> I w -> I (record [a] w)).

(** The predicate also tolerates [report:generated]. *)
Definition reports_ok (I : World -> Prop) : Prop :=
  forall w e, type e = report_generated -> I w -> I (record [AEmit e] w).

(** The predicate also tolerates [incident:created]. *)
Definition creates_ok (I : World -> Prop) : Prop :=
  forall w e, type e = incident_created -> I w -> I (record [AEmit e] w).

(** The invariant of the store between polls, and while the pipeline
    of incident [k] runs. *)
Definition Inv (w : World) : Prop :=
  store_ok (incidents w)
  /\ at_most_one_active (incidents w)
  /\ store_always at_most_one_active (trace w).

Definition PInv (k : string) (w : World) : Prop :=
  store_ok (incidents w)
  /\ only_active k (incidents w)
  /\ store_always at_most_one_active (trace w).

(** The incident under [k] exists. *)
Definition has_incident (k : string) (w : World) : Prop :=
  store_get k (incidents w) <> None.

(** The event a call of [emit] builds in state [w]. *)
Definition event_at (ty : EventType) (d : JRecord) (w : World) : BusEvent :=
  {| type := ty; ev_timestamp := now_at (env w) (now_ix w); data := d |}.

(** The state a call of [emit] leaves. *)
Definition emit_world (ty : EventType) (d : JRecord) (w : World) : World :=
  let ev := event_at ty d w in
  record (fst (call_listeners (listeners w) 0 ev))
    (record [AEmit ev]
       (set_eventHistory (push_history ev (eventHistory w))
          (set_now_ix (S (now_ix w)) w))).

(** [wp m Q w]: running [m] from [w] ends with a result and a state
    that satisfy [Q]. *)
Definition wp {A} (m : M A) (Q : Result A -> World -> Prop) (w : World) : Prop :=
  Q (result_of m w) (state_of m w).

(** The result of a publish in state [w]. *)
Definition emit_result (ty : EventType) (d : JRecord) (w : World) : Result bool :=
  match snd (call_listeners (listeners w) 0 (event_at ty d w)) with
  | None => Ok (match listeners w with [] => false | _ => true end)
  | Some msg => Throw msg
  end.

(** The waits and requests of a journal. *)
Definition io_acts (t : list Act) : list Act := filter is_io_act t.

(** The incident under [k] satisfies [P]. *)
Definition incident_sat (k : string) (P : Incident -> Prop) (w : World) : Prop :=
  exists i, store_get k (incidents w) = Some i /\ P i.

(** An incident closed by the Reporter. *)
Definition reported (k : string) (i : Incident) : Prop :=
  status i = resolved
  /\ resolvedAt i <> None
  /\ exists rep, report i = Some rep /\ rep_incidentId rep = k.

(** What is followed through a stage: the subscribers are quiet, the
    record under [k] is [i], [n] reports were published, the last event
    published is [le]. *)
Definition tracked (k : string) (i : Incident) (n : nat) (le : option BusEvent)
           (w : World) : Prop :=
  quiet w
  /\ store_get k (incidents w) = Some i
  /\ count_type report_generated (trace w) = n
  /\ last_emit (trace w) = le.

(** The identifier [generateId] builds in state [w]. *)
Definition next_id (w : World) : string :=
  "INC-" ++ string_of_Z (now_at (env w) (now_ix w)) ++ "-"
         ++ random_at (env w) (random_ix w).

(** What is carried through the stages that precede the Reporter: the
    incident exists and [n] reports were published. *)
Definition carried (k : string) (n : nat) (w : World) : Prop :=
  has_incident k w /\ count_type report_generated (trace w) = n.

(** The end of a pipeline run for incident [k], [n] reports having
    been published before it. *)
Definition closed_by_reporter (k : string) (n : nat) (w : World) : Prop :=
  incident_sat k (reported k) w
  /\ count_type report_generated (trace w) = S n
  /\ (exists ev, last_emit (trace w) = Some ev
                 /\ type ev = agent_complete
                 /\ obj_get "agent" (data ev) = JStr "Incident Reporter"
                 /\ obj_get "incidentId" (data ev) = JStr k)
  /\ pipelineRunning w = false.

(** The types of the events of a journal, in order. *)
Definition emitted_types (t : list Act) : list EventType :=
  flat_map (fun a => match a with AEmit e => [type e] | _ => [] end) t.

(** What is followed through a poll: quiet subscribers, the store [s],
    [c] incidents opened so far, the unhealthy counter at [u], no
    pipeline running. *)
Definition polled (s : Store) (c u : nat) (w : World) : Prop :=
  quiet w
  /\ incidents w = s
  /\ count_type incident_created (trace w) = c
  /\ consecutiveUnhealthy w = u
  /\ pipelineRunning w = false.

(** A poll whose snapshot the classifier flags, or passes. *)
Definition anomalous (p : PollInput) : Prop :=
  detectAnomalies (snapshot_of p 0) <> None.

Definition unremarkable (p : PollInput) : Prop :=
  detectAnomalies (snapshot_of p 0) = None.

(* ================================================================== *)
(** ** Concrete scenarios *)
(* ================================================================== *)

(** A healthy flag together with the sentinel status code 0. *)
Definition healthy_code0 : HealthSnapshot := mk_snapshot true 0 50 quiet_metrics.

(** A healthy flag together with status 503. *)
Definition healthy_code503 : HealthSnapshot := mk_snapshot true 503 10 quiet_metrics.

(** The unreachable service of the specification's first scenario. *)
Definition unreachable : HealthSnapshot := mk_snapshot false 0 50 quiet_metrics.

(** An environment in which every request fails to connect. *)
Definition env_down : Env :=
  {| now_at := fun n => 1000 * Z.of_nat n;
     random_at := fun _ => "K3X9QA";
     fetch_at := fun _ => Throw "connect ECONNREFUSED" |}.

(** A subscriber that logs and returns, and one that throws. *)
Definition logger : Handler := fun _ => None.
Definition thrower : Handler := fun _ => Some "subscriber failed".

(** A bus holding three events. *)
Definition bus3 : World :=
  state_of (emit system_status [] ;; emit health_check [] ;; emit chaos_injected [])
           (initial_world env_down [logger]).

(** A bus whose first subscriber throws. *)
Definition bus_thrower_first : World := initial_world env_down [thrower; logger].

(** A bus whose second subscriber throws. *)
Definition bus_thrower_second : World := initial_world env_down [logger; thrower; logger].

(** A store holding one resolved incident. *)
Definition old_incident : Incident :=
  {| id := "INC-1"; timestamp := 1; status := resolved;
     failureType := memory_leak; severity := medium;
     affectedServices := ["demo-app"]; rootCause := None;
     attemptedActions := []; resolvedAt := Some 5; report := None;
     timeline := Some [] |}.

Definition world_one_resolved : World :=
  set_incidents [("INC-1", old_incident)] (initial_world env_down [logger]).

(** A store whose only incident, in healing, has three failed attempts. *)
Definition failed_attempt : RecoveryAttempt :=
  {| ra_action := restart_pod; ra_timestamp := 2; ra_target := "demo-app";
     ra_success := false; ra_error := Some "Reset failed: HTTP 500";
     ra_duration := 10 |}.

Definition struggling_incident : Incident :=
  {| id := "INC-2"; timestamp := 1; status := healing;
     failureType := service_down; severity := critical;
     affectedServices := ["demo-app"]; rootCause := None;
     attemptedActions := [failed_attempt; failed_attempt; failed_attempt];
     resolvedAt := None; report := None; timeline := Some [] |}.

Definition world_three_attempts : World :=
  set_incidents [("INC-2", struggling_incident)] (initial_world env_down [logger]).

(** An environment in which the monitored service answers every
    request with a healthy 200. *)
Definition env_up : Env :=
  {| now_at := fun n => 1000 * Z.of_nat n;
     random_at := fun _ => "K3X9QA";
     fetch_at := fun _ => Ok {| resp_status := 200;
                                resp_json := Ok (JObj [("status", JStr "healthy")]) |} |}.

(** The probes of the two scenarios of the specification. *)
Definition poll_down : PollInput :=
  {| in_demoApp := {| healthy := false; statusCode := ZNum 0;
                      responseTimeMs := ZNum 50;
                      error := Some "connect ECONNREFUSED" |};
     in_prometheus := {| p_healthy := true; p_error := None |};
     in_metrics := quiet_metrics |}.

Definition poll_memory : PollInput :=
  {| in_demoApp := {| healthy := true; statusCode := ZNum 200;
                      responseTimeMs := ZNum 12; error := None |};
     in_prometheus := {| p_healthy := true; p_error := None |};
     in_metrics := {| errorRate := ZNum 0; latencyP99Ms := ZNum 0;
                      memoryUsageMB := ZNum 250; podRestarts := ZNum 0;
                      httpRequestsTotal := ZNum 0 |} |}.

Definition poll_healthy : PollInput :=
  {| in_demoApp := {| healthy := true; statusCode := ZNum 200;
                      responseTimeMs := ZNum 12; error := None |};
     in_prometheus := {| p_healthy := true; p_error := None |};
     in_metrics := quiet_metrics |}.

(** A subscriber that throws on every [agent:start]. *)
Definition picky : Handler :=
  fun e => if EventType_beq (type e) agent_start then Some "subscriber failed" else None.

(** Newest first: the order [getAllIncidents] and [getActiveIncident]
    sort by. *)
Definition newest_first (l : list Incident) : Prop :=
  StronglySorted (fun a b => timestamp b <= timestamp a) l.

(** An incident that is neither resolved nor failed. *)
Definition is_open (i : Incident) : bool := negb (terminal (status i)).

(** The record [createIncident] builds in state [w], with timeline
    [tl], and the entry it then appends to the timeline. *)
Definition new_incident (w : World) (ft : FailureType) (sev : Severity)
           (svc : list string) (tl : option (list TimelineEvent)) : Incident :=
  {| id := next_id w; timestamp := now_at (env w) (S (now_ix w)); status := detected;
     failureType := ft; severity := sev; affectedServices := svc;
     rootCause := None; attemptedActions := []; resolvedAt := None;
     report := None; timeline := tl |}.

Definition detected_entry (w : World) (ft : FailureType) (sev : Severity)
           (svc : list string) : TimelineEvent :=
  {| te_timestamp := now_at (env w) (S (S (S (now_ix w))));
     te_event := "Incident detected";
     te_details := Some [("failureType", JStr (FailureType_str ft));
                         ("severity", JStr (Severity_str sev));
                         ("affectedServices", services_json svc)] |}.

(** The report of a memory leak, reduced to what the stages read. *)
Definition memory_anomaly : AnomalyReport :=
  {| ar_detected := true; ar_failureType := memory_leak; ar_severity := medium;
     ar_affectedServices := ["demo-app"]; evidence := []; description := [] |}.

(** Whether the request of index [ix] is answered with a 2xx status. *)
Definition probe_ok (e : Env) (ix : nat) : bool :=
  match fetch_at e ix with
  | Ok r => resp_ok r
  | Throw _ => false
  end.

(** Among the [n] requests from index [ix] on, the number of those
    that precede the first one answered with a 2xx status. *)
Fixpoint failed_probes (e : Env) (ix n : nat) : nat :=
  match n with
  | O => O
  | S n' => if probe_ok e ix then O else S (failed_probes e (S ix) n')
  end.

(** The journal of a health validation that saw [f] probes fail and
    then, if [up], one succeed. *)
Definition probe_acts (f : nat) (up : bool) : list Act :=
  (List.concat (repeat [AFetch (DEMO_APP_URL ++ "/health") "GET"; ASleep 1000] f)
   ++ if up then [AFetch (DEMO_APP_URL ++ "/health") "GET"] else [])%list.

(** What is followed through the requests of a stage: the subscribers
    are quiet, the environment is [e], the next request is the one of
    index [ix]. *)
Definition io_at (e : Env) (ix : nat) (w : World) : Prop :=
  quiet w /\ env w = e /\ fetch_ix w = ix.

(** Whether the request of index [ix] is answered with a 2xx status and
    a body that is an object whose [status] is 'healthy'. *)
Definition healthy_answer (e : Env) (ix : nat) : bool :=
  match fetch_at e ix with
  | Ok r =>
      resp_ok r
      && match resp_json r with
         | Ok (JObj o) => match obj_get "status" o with
                          | JStr s => String.eqb s "healthy"
                          | _ => false
                          end
         | _ => false
         end
  | Throw _ => false
  end.

(** What the Self-Healing stage achieves with strategy [strategy] when
    its first request has index [ix]. *)
Definition healing_outcome (e : Env) (ix : nat) (strategy : string) : bool :=
  known_strategy strategy && probe_ok e ix && healthy_answer e (S ix).

(** A key other than [j]. *)
Definition other_than (j k : string) : Prop := k <> j.

(** [m] leaves the record under [j] as it is, present or not, whether
    it returns or throws. *)
Definition leaves_record {A} (j : string) (m : M A) : Prop :=
  forall w, store_get j (incidents (state_of m w)) = store_get j (incidents w).

(** Of the two counters of consecutive polls, one at least is zero. *)
Definition counters_exclusive (w : World) : Prop :=
  consecutiveHealthy w = 0%nat \/ consecutiveUnhealthy w = 0%nat.

(** [i'] is the incident [i] later in its life: identifier, time of
    detection and classification are those of [i], and the attempts of
    [i] are the first attempts of [i']. *)
Definition later_of (i i' : Incident) : Prop :=
  id i' = id i /\ timestamp i' = timestamp i /\ failureType i' = failureType i
  /\ severity i' = severity i /\ affectedServices i' = affectedServices i
  /\ exists more, attemptedActions i' = (attemptedActions i ++ more)%list.

(** What is followed through a stage run for incident [k]: quiet
    subscribers, the environment, the index of the next request, and a
    property of the record under [k]. *)
Definition at_stage (e : Env) (ix : nat) (k : string) (P : Incident -> Prop)
           (w : World) : Prop :=
  io_at e ix w /\ incident_sat k P w.

(** The record is in status [st] and its attempts are those of [l]
    followed by one more, which satisfies [A]. *)
Definition attempt_added (l : list RecoveryAttempt) (st : IncidentStatus)
           (A : RecoveryAttempt -> Prop) (i : Incident) : Prop :=
  status i = st /\ exists a, attemptedActions i = (l ++ [a])%list /\ A a.

(** The attempt the Self-Healing stage records for outcome [b]. *)
Definition healing_record (b : bool) (a : RecoveryAttempt) : Prop :=
  ra_action a = restart_pod /\ ra_target a = "demo-app" /\ ra_success a = b
  /\ (ra_error a = None <-> b = true).

(** The attempt the Disaster Recovery stage records for outcome [b]. *)
Definition dr_record (b : bool) (a : RecoveryAttempt) : Prop :=
  ra_action a = restore_database /\ ra_target a = "demo-app + demo-db"
  /\ ra_success a = b /\ ra_error a = None /\ ra_duration a = 4000.

(** What the Disaster Recovery stage achieves when its first request
    has index [ix]: one of the five health requests that follow the
    reset request is answered with a 2xx status. *)
Definition dr_outcome (e : Env) (ix : nat) : bool :=
  (failed_probes e (S ix) 5 <? 5)%nat.

(** The attempts of an incident at the end of a pipeline run whose
    healing had outcome [b1]: the one healing attempt, followed, when
    it failed, by the one attempt of the disaster recovery. *)
Definition pipeline_attempts (b1 : bool) (i : Incident) : Prop :=
  if b1 then exists a1, attemptedActions i = [a1] /\ healing_record true a1
  else exists a1 a2 b2, attemptedActions i = [a1; a2] /\ healing_record false a1
                        /\ dr_record b2 a2.

(** The report the Reporter builds for the incident [i] under the
    identifier [k], the clock having been read as [idStamp] for its
    identifier and as [generated] for its date. *)
Definition report_of (k : string) (i : Incident) (idStamp generated : Z)
  : IncidentReport :=
  {| rep_id := "RPT-" ++ string_of_Z idStamp;
     rep_incidentId := k;
     rep_timeline := match timeline i with
                     | Some _ => JTimelineOf k
                     | None => JArr []
                     end;
     rep_rootCauseAnalysis :=
       match rootCause i with
       | Some c => if String.eqb c "" then "Root cause analysis pending" else c
       | None => "Root cause analysis pending"
       end;
     rep_actionsSummary :=
       String.concat newline (map attempt_line (attemptedActions i));
     rep_preventionRecommendations := generateRecommendations (failureType i);
     rep_generatedAt := generated |}.

(** The record is resolved and carries the report built from a record
    that satisfied [P]. *)
Definition reported_from (k : string) (P : Incident -> Prop) (i : Incident) : Prop :=
  P i /\ status i = resolved
  /\ exists i1 idStamp generated,
       P i1 /\ report i = Some (report_of k i1 idStamp generated).

(* ================================================================== *)
(** ** demo/app/index.js: the monitored application *)
(* ================================================================== *)

Module Demo.

(** The three module-level variables; [memoryLeak] is the number of
    10 MB buffers held. *)
Record State := {
  healthy : bool;
  memoryLeak : nat;
  artificialLatency : Z
}.

Definition initial : State :=
  {| healthy := true; memoryLeak := 0; artificialLatency := 0 |}.

(** The requests of the health and chaos routes, with what the handler
    reads from outside: the outcome of the database query and the
    clock, the memory usage of the process, the result of [parseInt]
    ([None] for [NaN]).  The crash route, which ends the process, is
    left out. *)
Inductive Request :=
| get_health (query : Result unit) (now : Z)
| post_chaos_unhealthy
| post_chaos_healthy
| post_chaos_memory_leak (usage : JValue)
| post_chaos_latency (parsed : option Z)
| post_chaos_reset.

(** [res.status(status).json(body)] as the client receives it. *)
Definition respond (status : Z) (body : JRecord) : Response :=
  {| resp_status := status; resp_json := Ok (JObj body) |}.

Definition handle (rq : Request) (s : State) : Response * State :=
  match rq with
  | get_health query now =>
      if negb (healthy s) then
        (respond 503 [("status", JStr "unhealthy")], s)
      else
        match query with
        | Ok _ => (respond 200 [("status", JStr "healthy"); ("timestamp", JDate now)], s)
        | Throw msg =>
            (respond 503 [("status", JStr "unhealthy"); ("error", JStr msg)], s)
        end
  | post_chaos_unhealthy =>
      (respond 200 [("message", JStr "Service marked unhealthy")],
       {| healthy := false; memoryLeak := memoryLeak s;
          artificialLatency := artificialLatency s |})
  | post_chaos_healthy =>
      (respond 200 [("message", JStr "Service marked healthy")],
       {| healthy := true; memoryLeak := memoryLeak s;
          artificialLatency := artificialLatency s |})
  | post_chaos_memory_leak usage =>
      let leak := (memoryLeak s + 10)%nat in
      (respond 200 [("message", JStr "Memory leak triggered");
                    ("leakedMB", JNum (ZNum (Z.of_nat leak * 10)));
                    ("memoryUsage", usage)],
       {| healthy := healthy s; memoryLeak := leak;
          artificialLatency := artificialLatency s |})
  | post_chaos_latency parsed =>
      let ms := match parsed with Some n => n | None => 0 end in
      (respond 200 [("message", JStr ("Latency set to " ++ string_of_Z ms ++ "ms"))],
       {| healthy := healthy s; memoryLeak := memoryLeak s; artificialLatency := ms |})
  | post_chaos_reset =>
      (respond 200 [("message", JStr "Chaos state reset")], initial)
  end.

End Demo.

(** Whether a database query succeeded. *)
Definition query_ok (query : Result unit) : bool :=
  match query with Ok _ => true | Throw _ => false end.

(** An environment whose first request is answered by the reset route
    of the application in state [s] and whose later requests are
    answered by its health route, the database answering [query]. *)
Definition env_demo (s : Demo.State) (query : Result unit) : Env :=
  {| now_at := fun n => 1000 * Z.of_nat n;
     random_at := fun _ => "K3X9QA";
     fetch_at := fun n =>
       match n with
       | O => Ok (fst (Demo.handle Demo.post_chaos_reset s))
       | S _ => Ok (fst (Demo.handle (Demo.get_health query 0)
                           (snd (Demo.handle Demo.post_chaos_reset s))))
       end |}.

(* ================================================================== *)
(** ** orchestrator.ts: start and stop *)
(* ================================================================== *)

(** The two fields of the orchestrator that a poll does not touch;
    [pollTimer] tells whether an interval timer is set. *)
Record Lifecycle := {
  running : bool;
  pollTimer : bool
}.

Definition started_event : JRecord :=
  [("status", JStr "monitoring"); ("message", JStr "Orchestrator started")].

Definition stopped_event : JRecord :=
  [("status", JStr "stopped"); ("message", JStr "Orchestrator stopped")].

(** [start()]; [p] is what the probes of the immediate poll come back
    with.  The call of [monitoringLoop] is not awaited: nothing it does
    is thrown by [start]. *)
Definition start (p : PollInput) (o : Lifecycle) (w : World)
  : Result unit * Lifecycle * World :=
  if running o then (Ok tt, o, w)
  else
    let o1 := {| running := true; pollTimer := pollTimer o |} in
    match emit system_status started_event w with
    | (Throw msg, w1) => (Throw msg, o1, w1)
    | (Ok _, w1) =>
        let o2 := {| running := true; pollTimer := true |} in
        (* Run immediately on start *)
        (Ok tt, o2, state_of (monitoringLoop p) w1)
    end.

(** [stop()] *)
Definition stop (o : Lifecycle) (w : World) : Result unit * Lifecycle * World :=
  let o1 := {| running := false; pollTimer := false |} in
  match emit system_status stopped_event w with
  | (Throw msg, w1) => (Throw msg, o1, w1)
  | (Ok _, w1) => (Ok tt, o1, w1)
  end.

(* ================================================================== *)
(** * Properties *)
(* ================================================================== *)

(** ** The anomaly classifier *)

(** C1, as stated, fails: a snapshot whose probe is flagged healthy and
    whose status code is 0 is not classified at all. *)
Lemma C1_status0_healthy_unclassified :
  num_eqb (statusCode (demoApp healthy_code0)) (ZNum 0) = true
  /\ detectAnomalies healthy_code0 = None
  /\ verdict (detectAnomalies healthy_code0) <> Some (service_down, critical).
Proof. repeat split. discriminate. Qed.

(** C1 (amended): for every snapshot whose application probe is flagged
    unhealthy and whose status code is 0, [detectAnomalies] returns a
    report with failure type [service_down] and severity [critical],
    whatever the other fields hold. *)
Theorem C1_unreachable_is_critical (s : HealthSnapshot) :
  healthy (demoApp s) = false ->
  num_eqb (statusCode (demoApp s)) (ZNum 0) = true ->
  exists a, detectAnomalies s = Some a
            /\ ar_failureType a = service_down
            /\ ar_severity a = critical.
Proof.
  intros Hh Hc. unfold detectAnomalies. rewrite Hh, Hc. cbn [negb andb].
  eexists. repeat split.
Qed.

Lemma C1_unreachable_is_critical_witness :
  exists a, detectAnomalies unreachable = Some a
            /\ ar_failureType a = service_down
            /\ ar_severity a = critical.
Proof. apply (C1_unreachable_is_critical unreachable); reflexivity. Defined.

(** C2, as stated, fails: the second rule of the specification's table
    fires on a 503 whose probe is flagged healthy, the code returns no
    verdict there. *)
Lemma C2_spec_table_differs_on_healthy_503 :
  first_match spec_rules healthy_code503 = Some (service_down, high)
  /\ verdict (detectAnomalies healthy_code503) = None
  /\ verdict (detectAnomalies healthy_code503) <> first_match spec_rules healthy_code503.
Proof. repeat split. discriminate. Qed.

(** C2 (amended): the verdict of [detectAnomalies] is the first match,
    in order, of the table
    unhealthy and status 0 -> service_down/critical;
    unhealthy and status 503 -> service_down/high;
    response time > 2000 -> latency_spike/high;
    error rate > 5 -> dependency_failure/high;
    memory > 200 -> memory_leak/medium;
    and no verdict when no rule matches. *)
Theorem C2_first_match_of_guarded_rules (s : HealthSnapshot) :
  verdict (detectAnomalies s) = first_match guarded_rules s.
Proof.
  unfold detectAnomalies, guarded_rules, first_match.
  repeat match goal with
         | |- context [if ?c then _ else _] => destruct c
         end; reflexivity.
Qed.

(** No rule of the table matching means no report at all. *)
Lemma detectAnomalies_none (s : HealthSnapshot) :
  first_match guarded_rules s = None <-> detectAnomalies s = None.
Proof.
  unfold detectAnomalies, guarded_rules, first_match.
  repeat match goal with
         | |- context [if ?c then _ else _] => destruct c
         end; split; congruence.
Qed.

(** ** Computations *)

Lemma run_pair {A} (m : M A) (w : World) : m w = (result_of m w, state_of m w).
Proof. unfold result_of, state_of. destruct (m w); reflexivity. Qed.

Lemma bind_ok {A B} (m : M A) (k : A -> M B) (w : World) (a : A) :
  result_of m w = Ok a -> bind m k w = k a (state_of m w).
Proof.
  unfold result_of, state_of, bind. destruct (m w) as [[a'|msg] w']; simpl;
    intros H; inversion H; reflexivity.
Qed.

Lemma bind_throw {A B} (m : M A) (k : A -> M B) (w : World) (msg : string) :
  result_of m w = Throw msg -> bind m k w = (Throw msg, state_of m w).
Proof.
  unfold result_of, state_of, bind. destruct (m w) as [[a'|msg'] w']; simpl;
    intros H; inversion H; reflexivity.
Qed.

Lemma try_catch_ok {A} (m : M A) (h : string -> M A) (w : World) (a : A) :
  result_of m w = Ok a -> try_catch m h w = (Ok a, state_of m w).
Proof.
  unfold result_of, state_of, try_catch. destruct (m w) as [[a'|msg] w']; simpl;
    intros H; inversion H; reflexivity.
Qed.

Lemma try_catch_throw {A} (m : M A) (h : string -> M A) (w : World) (msg : string) :
  result_of m w = Throw msg -> try_catch m h w = h msg (state_of m w).
Proof.
  unfold result_of, state_of, try_catch. destruct (m w) as [[a'|msg'] w']; simpl;
    intros H; inversion H; reflexivity.
Qed.

Lemma state_bind {A B} (m : M A) (k : A -> M B) (w : World) :
  state_of (bind m k) w =
  match result_of m w with
  | Ok a => state_of (k a) (state_of m w)
  | Throw _ => state_of m w
  end.
Proof.
  unfold result_of, state_of, bind. destruct (m w) as [[a|msg] w']; reflexivity.
Qed.

Lemma result_bind {A B} (m : M A) (k : A -> M B) (w : World) :
  result_of (bind m k) w =
  match result_of m w with
  | Ok a => result_of (k a) (state_of m w)
  | Throw msg => Throw msg
  end.
Proof.
  unfold result_of, state_of, bind. destruct (m w) as [[a|msg] w']; reflexivity.
Qed.

Lemma state_try_catch {A} (m : M A) (h : string -> M A) (w : World) :
  state_of (try_catch m h) w =
  match result_of m w with
  | Ok _ => state_of m w
  | Throw msg => state_of (h msg) (state_of m w)
  end.
Proof.
  unfold result_of, state_of, try_catch. destruct (m w) as [[a|msg] w']; reflexivity.
Qed.

Lemma result_try_catch {A} (m : M A) (h : string -> M A) (w : World) :
  result_of (try_catch m h) w =
  match result_of m w with
  | Ok a => Ok a
  | Throw msg => result_of (h msg) (state_of m w)
  end.
Proof.
  unfold result_of, state_of, try_catch. destruct (m w) as [[a|msg] w']; reflexivity.
Qed.

Lemma state_finally {A} (m : M A) (f : World -> World) (w : World) :
  state_of (finally m f) w = f (state_of m w).
Proof. unfold state_of, finally. destruct (m w); reflexivity. Qed.

Lemma result_finally {A} (m : M A) (f : World -> World) (w : World) :
  result_of (finally m f) w = result_of m w.
Proof. unfold result_of, finally. destruct (m w); reflexivity. Qed.

(** A computation followed by a plain return ends in the state the
    computation ends in. *)
Lemma state_then_ret {A B} (m : M A) (b : B) (w : World) :
  state_of (bind m (fun _ => ret b)) w = state_of m w.
Proof. rewrite state_bind. destruct (result_of m w); reflexivity. Qed.

Lemma pres_ret {A} (I : World -> Prop) (a : A) : pres I (ret a).
Proof. intros w H; exact H. Qed.

Lemma pres_throw {A} (I : World -> Prop) (msg : string) : pres I (@throw A msg).
Proof. intros w H; exact H. Qed.

Lemma pres_gets {A} (I : World -> Prop) (f : World -> A) : pres I (gets f).
Proof. intros w H; exact H. Qed.

Lemma pres_modify (I : World -> Prop) (f : World -> World) :
  (forall w, I w -> I (f w)) -> pres I (modify f).
Proof. intros Hf w H; apply Hf, H. Qed.

Lemma pres_bind {A B} (I : World -> Prop) (m : M A) (k : A -> M B) :
  pres I m -> (forall a, pres I (k a)) -> pres I (bind m k).
Proof.
  intros Hm Hk w H. specialize (Hm w H). unfold state_of, bind in *.
  destruct (m w) as [[a|msg] w']; simpl in *.
  - apply Hk, Hm.
  - exact Hm.
Qed.

Lemma pres_try_catch {A} (I : World -> Prop) (m : M A) (h : string -> M A) :
  pres I m -> (forall msg, pres I (h msg)) -> pres I (try_catch m h).
Proof.
  intros Hm Hh w H. specialize (Hm w H). unfold state_of, try_catch in *.
  destruct (m w) as [[a|msg] w']; simpl in *.
  - exact Hm.
  - apply Hh, Hm.
Qed.

Lemma pres_finally {A} (I : World -> Prop) (m : M A) (f : World -> World) :
  pres I m -> (forall w, I w -> I (f w)) -> pres I (finally m f).
Proof.
  intros Hm Hf w H. specialize (Hm w H). unfold state_of, finally in *.
  destruct (m w) as [r w']; simpl in *. apply Hf, Hm.
Qed.

Lemma pres_and {A} (I J : World -> Prop) (m : M A) :
  pres I m -> pres J m -> pres (fun w => I w /\ J w) m.
Proof. intros HI HJ w [H1 H2]; split; [apply HI | apply HJ]; assumption. Qed.

Lemma ok_ret {A} (a : A) : ok (ret a).
Proof. intros w _; exists a; reflexivity. Qed.

Lemma ok_gets {A} (f : World -> A) : ok (gets f).
Proof. intros w _; eexists; reflexivity. Qed.

Lemma ok_modify (f : World -> World) : ok (modify f).
Proof. intros w _; eexists; reflexivity. Qed.

Lemma ok_bind {A B} (m : M A) (k : A -> M B) :
  ok m -> pres quiet m -> (forall a, ok (k a)) -> ok (bind m k).
Proof.
  intros Hm Hp Hk w Hq. destruct (Hm w Hq) as [a Ha].
  unfold result_of. rewrite (bind_ok _ _ _ _ Ha). apply Hk, Hp, Hq.
Qed.

Lemma ok_try_catch {A} (m : M A) (h : string -> M A) :
  pres quiet m -> (forall msg, ok (h msg)) -> ok (try_catch m h).
Proof.
  intros Hp Hh w Hq. destruct (result_of m w) as [a|msg] eqn:Hr.
  - unfold result_of. rewrite (try_catch_ok _ _ _ _ Hr). exists a; reflexivity.
  - unfold result_of. rewrite (try_catch_throw _ _ _ _ Hr). apply Hh, Hp, Hq.
Qed.

Lemma ok_finally {A} (m : M A) (f : World -> World) : ok m -> ok (finally m f).
Proof.
  intros Hm w Hq. destruct (Hm w Hq) as [a Ha]. exists a.
  unfold result_of, finally in *. destruct (m w); simpl in *; exact Ha.
Qed.

(** ** The event bus *)

Lemma record_app (a b : list Act) (w : World) :
  record (a ++ b) w = record b (record a w).
Proof. unfold record; simpl. rewrite app_assoc. reflexivity. Qed.

Lemma call_listeners_quiet (ls : list Handler) (e : BusEvent) :
  (forall h, In h ls -> h e = None) ->
  forall i, snd (call_listeners ls i e) = None.
Proof.
  induction ls as [|h ls IH]; intros Hq i; simpl; [reflexivity|].
  rewrite (Hq h (or_introl eq_refl)).
  specialize (IH (fun h' Hin => Hq h' (or_intror Hin)) (S i)).
  destruct (call_listeners ls (S i) e); simpl in *; exact IH.
Qed.

Lemma call_listeners_deliveries (ls : list Handler) (e : BusEvent) (i : nat) :
  Forall (fun a => is_deliver_act a = true) (fst (call_listeners ls i e)).
Proof.
  revert i; induction ls as [|h ls IH]; intros i; simpl; [constructor|].
  destruct (h e).
  - simpl. repeat constructor.
  - specialize (IH (S i)). destruct (call_listeners ls (S i) e); simpl in *.
    constructor; [reflexivity | exact IH].
Qed.

(** What a publish does, whatever the subscribers do. *)
Lemma emit_run (ty : EventType) (d : JRecord) (w : World) :
  emit ty d w =
  (match snd (call_listeners (listeners w) 0 (event_at ty d w)) with
   | None => Ok (match listeners w with [] => false | _ => true end)
   | Some msg => Throw msg
   end, emit_world ty d w).
Proof.
  unfold emit, emit_world, bind, Date_now, modify, EventEmitter_emit, event_at; simpl.
  destruct (call_listeners (listeners w) 0 _) as [acts [msg|]]; reflexivity.
Qed.

Lemma emit_state (ty : EventType) (d : JRecord) (w : World) :
  state_of (emit ty d) w = emit_world ty d w.
Proof. unfold state_of. rewrite emit_run. reflexivity. Qed.

Lemma emit_quiet (ty : EventType) (d : JRecord) (w : World) :
  quiet w ->
  result_of (emit ty d) w = Ok (match listeners w with [] => false | _ => true end).
Proof.
  intros Hq. unfold result_of. rewrite emit_run; simpl.
  rewrite call_listeners_quiet; [reflexivity|].
  intros h Hin; apply Hq, Hin.
Qed.

Lemma ok_emit (ty : EventType) (d : JRecord) : ok (emit ty d).
Proof. intros w Hq. eexists. apply emit_quiet, Hq. Qed.

Lemma slice_from_suffix {A} (k : Z) (l : list A) :
  exists older, l = (older ++ slice_from k l)%list.
Proof.
  unfold slice_from. eexists. symmetry. apply firstn_skipn.
Qed.

Lemma slice_from_last_length {A} (n : Z) (l : list A) :
  0 < n ->
  Z.of_nat (List.length (slice_from (- n) l)) = Z.min n (Z.of_nat (List.length l)).
Proof.
  intros Hn. unfold slice_from.
  destruct (Z.ltb_spec (- n) 0); [|lia].
  rewrite length_skipn. lia.
Qed.

(** After a publish the history holds at most 500 events. *)
Lemma push_history_bound (e : BusEvent) (h : list BusEvent) :
  Z.of_nat (List.length (push_history e h)) <= maxHistory.
Proof.
  unfold push_history.
  destruct (Z.gtb_spec (Z.of_nat (List.length (h ++ [e]))) maxHistory) as [Hgt|Hle].
  - rewrite slice_from_last_length by (unfold maxHistory; lia). lia.
  - exact Hle.
Qed.

(** What a publish retains is the newest end of the former history
    followed by the new event: eviction takes the oldest. *)
Lemma push_history_recent (e : BusEvent) (h : list BusEvent) :
  exists evicted, (h ++ [e] = evicted ++ push_history e h)%list
                  /\ (List.length evicted = List.length (h ++ [e]) - List.length (push_history e h))%nat.
Proof.
  unfold push_history.
  destruct (Z.of_nat (List.length (h ++ [e])) >? maxHistory).
  - unfold slice_from. eexists. split.
    + symmetry. apply firstn_skipn.
    + rewrite length_firstn, length_skipn. lia.
  - exists []. split; [reflexivity | simpl; lia].
Qed.

Lemma emit_history_bound (ty : EventType) (d : JRecord) (w : World) :
  Z.of_nat (List.length (eventHistory (state_of (emit ty d) w))) <= 500.
Proof. rewrite emit_state. apply push_history_bound. Qed.

Lemma emit_history_recent (ty : EventType) (d : JRecord) (w : World) :
  exists evicted,
    (eventHistory w ++ [event_at ty d w]
     = evicted ++ eventHistory (state_of (emit ty d) w))%list.
Proof.
  rewrite emit_state. destruct (push_history_recent (event_at ty d w) (eventHistory w))
    as [ev [H _]]. exists ev. exact H.
Qed.

(** For a positive limit [getHistory] is the newest end of the history,
    in order, of length [min limit length]. *)
Lemma getHistory_positive (limit : option Z) (w : World) :
  0 < or_default limit 100 ->
  (exists older, eventHistory w = (older ++ getHistory limit w)%list)
  /\ Z.of_nat (List.length (getHistory limit w))
     = Z.min (or_default limit 100) (Z.of_nat (List.length (eventHistory w))).
Proof.
  intros H. split.
  - apply slice_from_suffix.
  - apply slice_from_last_length, H.
Qed.

(** C5: the history bound and the eviction order hold
    ([emit_history_bound], [emit_history_recent]) and [getHistory]
    returns the newest [min limit length] events for a positive limit
    ([getHistory_positive]); at limit 0, where the claim has it return
    no event, [slice(-0)] returns the whole history. *)
Theorem C5_getHistory_zero_returns_all :
  (forall w, getHistory (Some 0) w = eventHistory w)
  /\ List.length (eventHistory bus3) = 3%nat
  /\ List.length (getHistory (Some 0) bus3) = 3%nat
  /\ Z.min 0 (Z.of_nat (List.length (eventHistory bus3))) = 0.
Proof.
  split; [|repeat split].
  intros w. unfold getHistory, slice_from. simpl.
  destruct (eventHistory w); reflexivity.
Qed.

(** Subscribers up to and including the first one that throws are
    called; the exception ends the loop. *)
Lemma call_listeners_throw (pre post : list Handler) (h : Handler) (e : BusEvent)
      (msg : string) :
  (forall g, In g pre -> g e = None) ->
  h e = Some msg ->
  forall i, call_listeners (pre ++ h :: post) i e
            = (map (fun j => ADeliver j e) (seq i (S (List.length pre))), Some msg).
Proof.
  induction pre as [|g pre IH]; intros Hpre Hh i; simpl.
  - rewrite Hh. reflexivity.
  - rewrite (Hpre g (or_introl eq_refl)).
    rewrite (IH (fun g' Hin => Hpre g' (or_intror Hin)) Hh (S i)). reflexivity.
Qed.

(** With subscribers that return, every one of them is called. *)
Lemma call_listeners_all (ls : list Handler) (e : BusEvent) :
  (forall g, In g ls -> g e = None) ->
  forall i, call_listeners ls i e
            = (map (fun j => ADeliver j e) (seq i (List.length ls)), None).
Proof.
  induction ls as [|g ls IH]; intros Hq i; simpl; [reflexivity|].
  rewrite (Hq g (or_introl eq_refl)).
  rewrite (IH (fun g' Hin => Hq g' (or_intror Hin)) (S i)). reflexivity.
Qed.

(** With subscribers that return, a publish calls every one of them,
    in registration order, and returns to its caller. *)
Lemma emit_delivers_to_all (ty : EventType) (d : JRecord) (w : World) :
  quiet w ->
  result_of (emit ty d) w = Ok (match listeners w with [] => false | _ => true end)
  /\ trace (state_of (emit ty d) w)
     = (trace w ++ AEmit (event_at ty d w)
          :: map (fun j => ADeliver j (event_at ty d w))
                 (seq 0 (List.length (listeners w))))%list.
Proof.
  intros Hq. split; [apply emit_quiet, Hq|].
  rewrite emit_state. unfold emit_world.
  rewrite (call_listeners_all (listeners w) (event_at ty d w)
             (fun g Hg => Hq g _ Hg) 0). simpl.
  rewrite <- app_assoc. reflexivity.
Qed.

(** C9, as stated, fails: with a throwing subscriber registered before
    a second one, the publish throws to its caller and the second
    subscriber is never called. *)
Lemma C9_throwing_subscriber_breaks_publish :
  let ev := event_at system_status [] bus_thrower_first in
  result_of (emit system_status []) bus_thrower_first = Throw "subscriber failed"
  /\ trace (state_of (emit system_status []) bus_thrower_first)
     = [AEmit ev; ADeliver 0 ev]
  /\ ~ In (ADeliver 1 ev) (trace (state_of (emit system_status []) bus_thrower_first)).
Proof.
  repeat split. simpl. intros [H|[H|[]]]; discriminate.
Qed.

(** C9 (amended): when a subscriber throws on an event, the event is
    still appended to the history, the subscribers registered before
    the throwing one have been called, the ones registered after it are
    not called, and the exception reaches the caller of the publish. *)
Theorem C9_publish_stops_at_throwing_subscriber
        (w : World) (ty : EventType) (d : JRecord)
        (pre post : list Handler) (h : Handler) (msg : string) :
  listeners w = (pre ++ h :: post)%list ->
  (forall g, In g pre -> g (event_at ty d w) = None) ->
  h (event_at ty d w) = Some msg ->
  result_of (emit ty d) w = Throw msg
  /\ eventHistory (state_of (emit ty d) w)
     = push_history (event_at ty d w) (eventHistory w)
  /\ trace (state_of (emit ty d) w)
     = (trace w ++ AEmit (event_at ty d w)
          :: map (fun j => ADeliver j (event_at ty d w)) (seq 0 (S (List.length pre))))%list.
Proof.
  intros Hl Hpre Hh. unfold result_of, state_of. rewrite emit_run.
  unfold emit_world. rewrite Hl.
  rewrite (call_listeners_throw pre post h _ msg Hpre Hh 0). simpl.
  repeat split. rewrite <- app_assoc. reflexivity.
Qed.

Lemma C9_publish_stops_at_throwing_subscriber_witness :
  let ev := event_at health_check [] bus_thrower_second in
  result_of (emit health_check []) bus_thrower_second = Throw "subscriber failed"
  /\ eventHistory (state_of (emit health_check []) bus_thrower_second)
     = push_history ev (eventHistory bus_thrower_second)
  /\ trace (state_of (emit health_check []) bus_thrower_second)
     = (trace bus_thrower_second ++ AEmit ev
          :: map (fun j => ADeliver j ev) (seq 0 2))%list.
Proof.
  apply (C9_publish_stops_at_throwing_subscriber
           bus_thrower_second health_check [] [logger] [logger] thrower).
  - reflexivity.
  - intros g [<-|[]]. reflexivity.
  - reflexivity.
Defined.

(** ** Stepping through a computation *)

Lemma wp_ret {A} (a : A) (Q : Result A -> World -> Prop) (w : World) :
  Q (Ok a) w -> wp (ret a) Q w.
Proof. exact (fun H => H). Qed.

Lemma wp_throw {A} (msg : string) (Q : Result A -> World -> Prop) (w : World) :
  Q (Throw msg) w -> wp (throw msg) Q w.
Proof. exact (fun H => H). Qed.

Lemma wp_gets {A} (f : World -> A) (Q : Result A -> World -> Prop) (w : World) :
  Q (Ok (f w)) w -> wp (gets f) Q w.
Proof. exact (fun H => H). Qed.

Lemma wp_modify (f : World -> World) (Q : Result unit -> World -> Prop) (w : World) :
  Q (Ok tt) (f w) -> wp (modify f) Q w.
Proof. exact (fun H => H). Qed.

Lemma wp_bind {A B} (m : M A) (k : A -> M B) (Q : Result B -> World -> Prop) (w : World) :
  wp m (fun r w' => match r with
                    | Ok a => wp (k a) Q w'
                    | Throw msg => Q (Throw msg) w'
                    end) w ->
  wp (bind m k) Q w.
Proof.
  unfold wp. rewrite result_bind, state_bind.
  destruct (result_of m w); exact (fun H => H).
Qed.

Lemma wp_try_catch {A} (m : M A) (h : string -> M A)
      (Q : Result A -> World -> Prop) (w : World) :
  wp m (fun r w' => match r with
                    | Ok a => Q (Ok a) w'
                    | Throw msg => wp (h msg) Q w'
                    end) w ->
  wp (try_catch m h) Q w.
Proof.
  unfold wp. rewrite result_try_catch, state_try_catch.
  destruct (result_of m w); exact (fun H => H).
Qed.

Lemma wp_finally {A} (m : M A) (f : World -> World)
      (Q : Result A -> World -> Prop) (w : World) :
  wp m (fun r w' => Q r (f w')) w -> wp (finally m f) Q w.
Proof. unfold wp. rewrite result_finally, state_finally. exact (fun H => H). Qed.

Lemma wp_conseq {A} (m : M A) (Q Q' : Result A -> World -> Prop) (w : World) :
  wp m Q w -> (forall r w', Q r w' -> Q' r w') -> wp m Q' w.
Proof. unfold wp. intros H HQ. apply HQ, H. Qed.

Lemma wp_Date_now (Q : Result Z -> World -> Prop) (w : World) :
  Q (Ok (now_at (env w) (now_ix w))) (set_now_ix (S (now_ix w)) w) -> wp Date_now Q w.
Proof. exact (fun H => H). Qed.

Lemma wp_random (Q : Result string -> World -> Prop) (w : World) :
  Q (Ok (random_at (env w) (random_ix w))) (set_random_ix (S (random_ix w)) w) ->
  wp Math_random_suffix Q w.
Proof. exact (fun H => H). Qed.

Lemma wp_sleep (ms : Z) (Q : Result unit -> World -> Prop) (w : World) :
  Q (Ok tt) (record [ASleep ms] w) -> wp (sleep ms) Q w.
Proof. exact (fun H => H). Qed.

Lemma wp_fetch (url method : string) (Q : Result Response -> World -> Prop) (w : World) :
  Q (fetch_at (env w) (fetch_ix w))
    (record [AFetch url method] (set_fetch_ix (S (fetch_ix w)) w)) ->
  wp (fetch url method) Q w.
Proof.
  unfold wp, result_of, state_of, fetch.
  destruct (fetch_at (env w) (fetch_ix w)); exact (fun H => H).
Qed.

Lemma wp_emit (ty : EventType) (d : JRecord) (Q : Result bool -> World -> Prop) (w : World) :
  Q (emit_result ty d w) (emit_world ty d w) -> wp (emit ty d) Q w.
Proof. unfold wp, result_of, state_of. rewrite emit_run. exact (fun H => H). Qed.

Lemma wp_emit_quiet (ty : EventType) (d : JRecord) (Q : Result bool -> World -> Prop)
      (w : World) :
  quiet w ->
  Q (Ok (match listeners w with [] => false | _ => true end)) (emit_world ty d w) ->
  wp (emit ty d) Q w.
Proof.
  intros Hq H. unfold wp. rewrite emit_quiet by exact Hq. rewrite emit_state. exact H.
Qed.

Lemma wp_getIncident (k : string) (Q : Result (option Incident) -> World -> Prop)
      (w : World) :
  Q (Ok (store_get k (incidents w))) w -> wp (getIncident k) Q w.
Proof. exact (fun H => H). Qed.

Lemma wp_mutate (k : string) (f : Incident -> Incident) (i : Incident)
      (Q : Result unit -> World -> Prop) (w : World) :
  store_get k (incidents w) = Some i ->
  Q (Ok tt) (put_store (store_set k (f i) (incidents w)) w) ->
  wp (mutate_incident k f) Q w.
Proof.
  intros Hi H. unfold wp, result_of, state_of, mutate_incident, modify; simpl.
  rewrite Hi. exact H.
Qed.

Lemma wp_state {A} (m : M A) (Q : Result A -> World -> Prop) (w : World) :
  (forall r, Q r (state_of m w)) -> wp m Q w.
Proof. intros H. apply H. Qed.

Lemma wp_pres {A} (I : World -> Prop) (m : M A) (Q : Result A -> World -> Prop)
      (w : World) :
  pres I m -> I w -> (forall r w', I w' -> Q r w') -> wp m Q w.
Proof. intros Hp HI HQ. apply HQ, Hp, HI. Qed.

Lemma wp_ok {A} (I : World -> Prop) (m : M A) (Q : Result A -> World -> Prop)
      (w : World) :
  ok m -> pres (fun w => quiet w /\ I w) m -> quiet w -> I w ->
  (forall a w', quiet w' -> I w' -> Q (Ok a) w') -> wp m Q w.
Proof.
  intros Hok Hp Hq HI HQ. unfold wp. destruct (Hok w Hq) as [a ->].
  destruct (Hp w (conj Hq HI)). apply HQ; assumption.
Qed.

(** ** The incident store *)

Lemma store_get_set_same (k : string) (v : Incident) (s : Store) :
  store_get k (store_set k v s) = Some v.
Proof.
  induction s as [|[k' v'] s IH]; simpl.
  - rewrite String.eqb_refl. reflexivity.
  - destruct (String.eqb k k') eqn:E; simpl; rewrite ?E, ?String.eqb_refl; auto.
Qed.

Lemma store_get_set_other (k j : string) (v : Incident) (s : Store) :
  j <> k -> store_get j (store_set k v s) = store_get j s.
Proof.
  intros Hne. induction s as [|[k' v'] s IH]; simpl.
  - destruct (String.eqb_spec j k); [contradiction | reflexivity].
  - destruct (String.eqb_spec k k') as [->|Hk]; simpl.
    + destruct (String.eqb_spec j k'); [contradiction | reflexivity].
    + rewrite IH. reflexivity.
Qed.

Ltac wp_step :=
  lazymatch goal with
  | |- wp (bind _ _) _ _ => apply wp_bind
  | |- wp (try_catch _ _) _ _ => apply wp_try_catch
  | |- wp (finally _ _) _ _ => apply wp_finally
  | |- wp (ret _) _ _ => apply wp_ret
  | |- wp (throw _) _ _ => apply wp_throw
  | |- wp (gets _) _ _ => apply wp_gets
  | |- wp (modify _) _ _ => apply wp_modify
  | |- wp Date_now _ _ => apply wp_Date_now
  | |- wp Math_random_suffix _ _ => apply wp_random
  | |- wp (sleep _) _ _ => apply wp_sleep
  | |- wp (fetch _ _) _ _ => apply wp_fetch
  | |- wp (getIncident _) _ _ => apply wp_getIncident
  | |- wp (emit _ _) _ _ => apply wp_emit
  end; cbv beta iota.

(** C10: for every incident present in the store and every target
    status, after [updateStatus] the incident has the requested status,
    whatever its former status was; a target of [resolved] stamps
    [resolvedAt] with the clock as read by the call, any other target
    leaves [resolvedAt] alone. *)
Theorem C10_updateStatus_unvalidated
        (w : World) (k : string) (i : Incident) (st : IncidentStatus) :
  store_get k (incidents w) = Some i ->
  exists i',
    store_get k (incidents (state_of (updateStatus k st) w)) = Some i'
    /\ status i' = st
    /\ (st = resolved -> resolvedAt i' = Some (now_at (env w) (now_ix w)))
    /\ (st <> resolved -> resolvedAt i' = resolvedAt i).
Proof.
  intros Hi.
  change (wp (updateStatus k st)
             (fun _ w' => exists i', store_get k (incidents w') = Some i'
                /\ status i' = st
                /\ (st = resolved -> resolvedAt i' = Some (now_at (env w) (now_ix w)))
                /\ (st <> resolved -> resolvedAt i' = resolvedAt i)) w).
  unfold updateStatus. wp_step. wp_step. rewrite Hi.
  wp_step. eapply wp_mutate; [exact Hi|]. cbv beta iota.
  set (w1 := put_store _ w).
  assert (H1 : store_get k (incidents w1) = Some (with_status st i))
    by apply store_get_set_same.
  wp_step. destruct (IncidentStatus_eqb st resolved) eqn:Est.
  - wp_step. wp_step. eapply wp_mutate; [exact H1|]. cbv beta iota.
    set (w2 := put_store _ _).
    wp_step. wp_step. wp_step. wp_step.
    assert (exists i', store_get k (incidents w2) = Some i' /\ status i' = st
              /\ (st = resolved -> resolvedAt i' = Some (now_at (env w) (now_ix w)))
              /\ (st <> resolved -> resolvedAt i' = resolvedAt i)) as Hgoal.
    { exists (with_resolvedAt (now_at (env w) (now_ix w)) (with_status st i)).
      split; [apply store_get_set_same | repeat split].
      intros Hne. destruct st; simpl in Est; congruence. }
    destruct (emit_result _ _ _); [wp_step|]; exact Hgoal.
  - wp_step. wp_step. wp_step. wp_step. wp_step.
    assert (exists i', store_get k (incidents w1) = Some i' /\ status i' = st
              /\ (st = resolved -> resolvedAt i' = Some (now_at (env w) (now_ix w)))
              /\ (st <> resolved -> resolvedAt i' = resolvedAt i)) as Hgoal.
    { exists (with_status st i). split; [exact H1 | repeat split].
      intros ->; discriminate. }
    destruct (emit_result _ _ _); [wp_step|]; exact Hgoal.
Qed.

Lemma C10_updateStatus_unvalidated_witness :
  exists i',
    store_get "INC-1" (incidents (state_of (updateStatus "INC-1" healing) world_one_resolved))
    = Some i'
    /\ status i' = healing
    /\ (healing = resolved ->
        resolvedAt i' = Some (now_at (env world_one_resolved) (now_ix world_one_resolved)))
    /\ (healing <> resolved -> resolvedAt i' = resolvedAt old_incident).
Proof.
  apply (C10_updateStatus_unvalidated world_one_resolved "INC-1" old_incident healing).
  reflexivity.
Defined.

(** A resolved incident put back to a non-terminal status, then
    resolved again at a later time. *)
Lemma updateStatus_reopens_and_restamps :
  let w1 := state_of (updateStatus "INC-1" analyzing) world_one_resolved in
  let w2 := state_of (updateStatus "INC-1" resolved) w1 in
  option_map status (store_get "INC-1" (incidents w1)) = Some analyzing
  /\ option_map resolvedAt (store_get "INC-1" (incidents w1)) = Some (Some 5)
  /\ option_map status (store_get "INC-1" (incidents w2)) = Some resolved
  /\ option_map resolvedAt (store_get "INC-1" (incidents w2)) = Some (Some 2000).
Proof. repeat split. Qed.

(** ** What the operations keep *)

Lemma record_nil (w : World) : record [] w = w.
Proof. destruct w; unfold record; simpl. rewrite app_nil_r. reflexivity. Qed.

Create HintDb pres.

Ltac pres_tac :=
  repeat (intros;
          lazymatch goal with
          | |- pres _ (bind _ _) => apply pres_bind
          | |- pres _ (try_catch _ _) => apply pres_try_catch
          | |- pres _ (ret _) => apply pres_ret
          | |- pres _ (throw _) => apply pres_throw
          | |- pres _ (gets _) => apply pres_gets
          | |- pres _ (modify _) =>
              solve [apply pres_modify; let H := fresh in intros ? H; exact H]
          | |- pres _ (if ?c then _ else _) => destruct c
          | |- pres _ (match ?x with _ => _ end) => destruct x
          | |- pres _ _ => first [assumption | solve [eauto 3 with pres nocore]]
          end).

Section Stable.
Variable keys : string -> Prop.
Variable I : World -> Prop.
Hypothesis HS : stable keys I.

Lemma stable_record (acts : list Act) (w : World) :
  Forall (fun a => is_deliver_act a = true) acts ->
  I w -> I (record acts w).
Proof.
  revert w; induction acts as [|a acts IH]; intros w Hall Hw.
  - rewrite record_nil. exact Hw.
  - inversion Hall as [|? ? Ha Hrest]; subst.
    change (a :: acts) with ([a] ++ acts)%list. rewrite record_app.
    apply IH; [exact Hrest|]. destruct a; try discriminate.
    apply (st_deliver _ _ HS), Hw.
Qed.

Lemma pres_Date_now : pres I Date_now.
Proof. intros w Hw. apply (st_now _ _ HS), Hw. Qed.

Lemma pres_random : pres I Math_random_suffix.
Proof. intros w Hw. apply (st_random _ _ HS), Hw. Qed.

Lemma pres_json (r : Response) : pres I (json r).
Proof. unfold json. destruct (resp_json r); intros w Hw; exact Hw. Qed.

Lemma pres_body_status_healthy (b : JValue) : pres I (body_status_healthy b).
Proof. destruct b; intros w Hw; exact Hw. Qed.

Lemma pres_emit (ty : EventType) (d : JRecord) :
  ty <> incident_created -> ty <> report_generated -> pres I (emit ty d).
Proof.
  intros H1 H2 w Hw. rewrite emit_state. unfold emit_world.
  apply stable_record.
  - apply call_listeners_deliveries.
  - apply (st_emit _ _ HS); [exact H1 | exact H2 |].
    apply (st_history _ _ HS), (st_now _ _ HS), Hw.
Qed.

Lemma pres_getIncident (k : string) : pres I (getIncident k).
Proof. intros w Hw; exact Hw. Qed.

Lemma pres_mutate (k : string) (f : Incident -> Incident) :
  keys k -> pres I (mutate_incident k f).
Proof.
  intros Hk w Hw. unfold state_of, mutate_incident, modify; simpl.
  destruct (store_get k (incidents w)) as [i|] eqn:E; [|exact Hw].
  apply (st_write _ _ HS _ _ i); assumption.
Qed.

Hint Resolve pres_Date_now pres_random pres_json
     pres_body_status_healthy pres_getIncident pres_mutate : pres.
Hint Extern 1 (pres _ (emit _ _)) =>
       (apply pres_emit; discriminate) : pres.

Lemma pres_addTimeline (k event : string) (details : option JRecord) :
  keys k -> pres I (addTimeline k event details).
Proof. intros Hk. unfold addTimeline. pres_tac. Qed.

Lemma pres_updateStatus (k : string) (st : IncidentStatus) :
  keys k -> pres I (updateStatus k st).
Proof. intros Hk. unfold updateStatus. pres_tac. Qed.

Hint Resolve pres_addTimeline pres_updateStatus : pres.

Lemma pres_addRecoveryAttempt (k : string) (a : RecoveryAttempt) :
  keys k -> pres I (addRecoveryAttempt k a).
Proof. intros Hk. unfold addRecoveryAttempt. pres_tac. Qed.

Lemma pres_setRootCause (k cause : string) :
  keys k -> pres I (setRootCause k cause).
Proof. intros Hk. unfold setRootCause. pres_tac. Qed.

Hint Resolve pres_addRecoveryAttempt pres_setRootCause : pres.

Lemma pres_executeAgent (name k : string) (fn : M JRecord) :
  keys k -> pres I fn -> pres I (executeAgent name k fn).
Proof. intros Hk Hfn. unfold executeAgent. pres_tac. Qed.

(** A traffic switch that is told the system is not ready does
    nothing but publish. *)
Lemma pres_traffic_switch_not_ready (k : string) (rft : JValue) :
  truthy rft = false -> pres I (traffic_switch_body k rft).
Proof. intros H. unfold traffic_switch_body. rewrite H. simpl. pres_tac. Qed.

Lemma pres_getHealthSnapshot (p : PollInput) : pres I (getHealthSnapshot p).
Proof.
  unfold getHealthSnapshot. destruct (healthy (in_demoApp p)); pres_tac.
Qed.

(** The stages that wait and send requests. *)
Hypothesis HIO : io_ok I.

Lemma pres_sleep (ms : Z) : pres I (sleep ms).
Proof. intros w Hw. apply (proj2 HIO); [reflexivity | exact Hw]. Qed.

Lemma pres_fetch (url method : string) : pres I (fetch url method).
Proof.
  intros w Hw. unfold state_of, fetch.
  assert (I (record [AFetch url method] (set_fetch_ix (S (fetch_ix w)) w))).
  { apply (proj2 HIO); [reflexivity|]. apply (proj1 HIO), Hw. }
  destruct (fetch_at (env w) (fetch_ix w)); exact H.
Qed.

Hint Resolve pres_sleep pres_fetch : pres.

Lemma pres_observability_body (a : AnomalyReport) (s : HealthSnapshot) :
  pres I (observability_body a s).
Proof. unfold observability_body. pres_tac. Qed.

Lemma pres_analyzer_body (k : string) (a : AnomalyReport) (s : HealthSnapshot) :
  keys k -> pres I (analyzer_body k a s).
Proof.
  intros Hk. unfold analyzer_body.
  destruct (analysis (ar_failureType a)) as [[[c1 c2] c3] c4]. pres_tac.
Qed.

Lemma pres_healing_attempt (k strategy : string) :
  pres I (healing_attempt k strategy).
Proof. unfold healing_attempt. pres_tac. Qed.

Hint Resolve pres_healing_attempt : pres.

Lemma pres_healing_body (k strategy : string) :
  keys k -> pres I (healing_body k strategy).
Proof. intros Hk. unfold healing_body. pres_tac. Qed.

Lemma pres_decision_body (k : string) (hs : JValue) : pres I (decision_body k hs).
Proof. unfold decision_body. pres_tac. Qed.

Lemma pres_dr_health_loop (n : nat) : pres I (dr_health_loop n).
Proof. induction n; simpl; pres_tac. Qed.

Hint Resolve pres_dr_health_loop : pres.

Lemma pres_disaster_recovery_body (k : string) :
  keys k -> pres I (disaster_recovery_body k).
Proof. intros Hk. unfold disaster_recovery_body. pres_tac. Qed.

Lemma pres_traffic_switch_body (k : string) (rft : JValue) :
  pres I (traffic_switch_body k rft).
Proof. unfold traffic_switch_body. pres_tac. Qed.

Hint Resolve pres_executeAgent pres_observability_body pres_analyzer_body
     pres_healing_body pres_decision_body pres_disaster_recovery_body
     pres_traffic_switch_body : pres.

Lemma pres_runObservabilityAgent k a s :
  keys k -> pres I (runObservabilityAgent k a s).
Proof. intros; unfold runObservabilityAgent; pres_tac. Qed.

Lemma pres_runAnalyzerAgent k a s : keys k -> pres I (runAnalyzerAgent k a s).
Proof. intros; unfold runAnalyzerAgent; pres_tac. Qed.

Lemma pres_runHealingAgent k strategy : keys k -> pres I (runHealingAgent k strategy).
Proof. intros; unfold runHealingAgent; pres_tac. Qed.

Lemma pres_runRecoveryDecisionAgent k hs :
  keys k -> pres I (runRecoveryDecisionAgent k hs).
Proof. intros; unfold runRecoveryDecisionAgent; pres_tac. Qed.

Lemma pres_runDisasterRecoveryAgent k : keys k -> pres I (runDisasterRecoveryAgent k).
Proof. intros; unfold runDisasterRecoveryAgent; pres_tac. Qed.

Lemma pres_runTrafficSwitchAgent k rft :
  keys k -> pres I (runTrafficSwitchAgent k rft).
Proof. intros; unfold runTrafficSwitchAgent; pres_tac. Qed.

(** With [report:generated] tolerated the reporter is covered too. *)
Hypothesis HR : reports_ok I.

Lemma pres_emit_report (d : JRecord) : pres I (emit report_generated d).
Proof.
  intros w Hw. rewrite emit_state. unfold emit_world.
  apply stable_record.
  - apply call_listeners_deliveries.
  - apply HR; [reflexivity|].
    apply (st_history _ _ HS), (st_now _ _ HS), Hw.
Qed.

Hint Resolve pres_emit_report : pres.

Lemma pres_emit_created (d : JRecord) :
  creates_ok I -> pres I (emit incident_created d).
Proof.
  intros HC w Hw. rewrite emit_state. unfold emit_world.
  apply stable_record.
  - apply call_listeners_deliveries.
  - apply HC; [reflexivity|].
    apply (st_history _ _ HS), (st_now _ _ HS), Hw.
Qed.

Lemma pres_setReport (k : string) (r : IncidentReport) :
  keys k -> pres I (setReport k r).
Proof. intros Hk. unfold setReport. pres_tac. Qed.

Hint Resolve pres_setReport : pres.

Lemma pres_reporter_body (k : string) : keys k -> pres I (reporter_body k).
Proof. intros Hk. unfold reporter_body. pres_tac. Qed.

Hint Resolve pres_reporter_body : pres.

Lemma pres_runReporterAgent k : keys k -> pres I (runReporterAgent k).
Proof. intros; unfold runReporterAgent; pres_tac. Qed.

End Stable.

(** ** Facts about the store *)

Lemma store_set_keys_in (k : string) (v : Incident) (s : Store) :
  In k (map fst s) -> map fst (store_set k v s) = map fst s.
Proof.
  induction s as [|[k' v'] s IH]; simpl; intros H; [contradiction|].
  destruct (String.eqb_spec k k') as [E|Hne]; simpl.
  - subst; reflexivity.
  - destruct H as [E|H]; [symmetry in E; contradiction|]. rewrite IH by exact H. reflexivity.
Qed.

Lemma store_set_keys_notin (k : string) (v : Incident) (s : Store) :
  ~ In k (map fst s) -> map fst (store_set k v s) = (map fst s ++ [k])%list.
Proof.
  induction s as [|[k' v'] s IH]; simpl; intros H; [reflexivity|].
  destruct (String.eqb_spec k k') as [E|Hne]; simpl.
  - exfalso; apply H; left; symmetry; exact E.
  - rewrite IH; [reflexivity|]. intros Hin; apply H; right; exact Hin.
Qed.

Lemma store_set_ok (k : string) (v : Incident) (s : Store) :
  store_ok s -> store_ok (store_set k v s).
Proof.
  unfold store_ok. intros H.
  destruct (in_dec string_dec k (map fst s)) as [Hin|Hnin].
  - rewrite store_set_keys_in by exact Hin. exact H.
  - rewrite store_set_keys_notin by exact Hnin.
    apply NoDup_app; [exact H | repeat constructor; intros [] |].
    intros x Hx [E|[]]. subst x. contradiction.
Qed.

Lemma store_set_only_active (k : string) (v : Incident) (s : Store) :
  only_active k s -> only_active k (store_set k v s).
Proof.
  unfold only_active. induction s as [|[k' v'] s IH]; simpl; intros H.
  - constructor; [left; reflexivity | constructor].
  - inversion H as [|? ? Hhd Htl]; subst.
    destruct (String.eqb_spec k k') as [->|Hne].
    + constructor; [left; reflexivity | exact Htl].
    + constructor; [exact Hhd | apply IH, Htl].
Qed.

Lemma no_active_only_active (k : string) (s : Store) :
  active_incidents s = [] -> only_active k s.
Proof.
  unfold active_incidents, only_active.
  induction s as [|[k' v'] s IH]; simpl; intros H; [constructor|].
  destruct (terminal (status v')) eqn:E; simpl in H; [|discriminate].
  constructor; [right; exact E | apply IH, H].
Qed.

Lemma only_active_absent (k : string) (s : Store) :
  only_active k s -> ~ In k (map fst s) -> active_incidents s = [].
Proof.
  unfold active_incidents, only_active.
  induction s as [|[k' v'] s IH]; simpl; intros H Hn; [reflexivity|].
  inversion H as [|? ? Hhd Htl]; subst. simpl in Hhd.
  destruct Hhd as [->|Ht]; [exfalso; apply Hn; left; reflexivity|].
  rewrite Ht; simpl. apply IH; [exact Htl | intros Hin; apply Hn; right; exact Hin].
Qed.

(** Unique keys and a single key allowed to be non-terminal leave room
    for one active incident at most. *)
Lemma only_active_at_most_one (k : string) (s : Store) :
  store_ok s -> only_active k s -> at_most_one_active s.
Proof.
  unfold store_ok, at_most_one_active.
  induction s as [|[k' v'] s IH]; simpl; intros Hnd H; [unfold active_incidents; simpl; lia|].
  inversion Hnd as [|? ? Hnin Hnd']; subst.
  inversion H as [|? ? Hhd Htl]; subst. simpl in Hhd.
  unfold active_incidents in *; simpl.
  destruct (terminal (status v')) eqn:E; simpl.
  - apply IH; assumption.
  - destruct Hhd as [->|Ht]; [|congruence].
    pose proof (only_active_absent k s Htl Hnin) as Hz.
    unfold active_incidents in Hz. rewrite Hz. simpl; lia.
Qed.

Lemma insert_desc_cons (x : Incident) (l : list Incident) : insert_desc x l <> [].
Proof. destruct l; simpl; [discriminate|]. destruct (_ <? _); discriminate. Qed.

Lemma sort_desc_nil (l : list Incident) : sort_desc l = [] -> l = [].
Proof.
  destruct l as [|x l]; [reflexivity|]. simpl. intros H.
  exfalso. exact (insert_desc_cons _ _ H).
Qed.

Lemma getActiveIncident_none (w : World) :
  getActiveIncident w = None <-> active_incidents (incidents w) = [].
Proof.
  unfold getActiveIncident. split.
  - intros H. apply sort_desc_nil. destruct (sort_desc _); [reflexivity | discriminate].
  - intros ->. reflexivity.
Qed.

Lemma store_always_app (P : Store -> Prop) (t t' : list Act) :
  store_always P (t ++ t') <-> store_always P t /\ store_always P t'.
Proof. apply Forall_app. Qed.

Lemma store_always_quiet (P : Store -> Prop) (a : Act) :
  is_store_act a = false -> store_always P [a].
Proof. intros H. constructor; [|constructor]. destruct a; try exact Logic.I. discriminate. Qed.

Lemma count_type_app (ty : EventType) (t t' : list Act) :
  count_type ty (t ++ t') = (count_type ty t + count_type ty t')%nat.
Proof.
  induction t as [|a t IH]; simpl; [reflexivity|].
  destruct a; rewrite IH; try reflexivity. lia.
Qed.

(** ** Predicates the operations keep *)

Lemma stable_weaken (K K' : string -> Prop) (I : World -> Prop) :
  (forall k, K' k -> K k) -> stable K I -> stable K' I.
Proof.
  intros HK [h1 h2 h3 h4 h5 h6]. constructor; auto.
  intros w k i i' Hk. apply h6, HK, Hk.
Qed.

Lemma stable_and (K : string -> Prop) (I J : World -> Prop) :
  stable K I -> stable K J -> stable K (fun w => I w /\ J w).
Proof.
  intros [a1 a2 a3 a4 a5 a6] [b1 b2 b3 b4 b5 b6].
  constructor; intros; match goal with H : _ /\ _ |- _ => destruct H end;
    split; eauto.
Qed.

Lemma io_ok_and (I J : World -> Prop) :
  io_ok I -> io_ok J -> io_ok (fun w => I w /\ J w).
Proof.
  intros [a1 a2] [b1 b2]. split; intros; match goal with H : _ /\ _ |- _ => destruct H end;
    split; eauto.
Qed.

Lemma stable_quiet : stable (fun _ => True) quiet.
Proof. constructor; intros; assumption. Qed.

Lemma io_ok_quiet : io_ok quiet.
Proof. split; intros; assumption. Qed.

Lemma stable_has_incident (k : string) : stable (fun _ => True) (has_incident k).
Proof.
  constructor; try (intros; assumption).
  intros w j i i' _ Hj H. unfold has_incident in *; simpl.
  destruct (string_dec k j) as [->|Hne].
  - rewrite store_get_set_same. discriminate.
  - rewrite store_get_set_other by exact Hne. exact H.
Qed.

Lemma io_ok_has_incident (k : string) : io_ok (has_incident k).
Proof. split; intros; assumption. Qed.

Lemma stable_count (ty : EventType) (n : nat) :
  ty = incident_created \/ ty = report_generated ->
  stable (fun _ => True) (fun w => count_type ty (trace w) = n).
Proof.
  intros Hty. constructor; try (intros; assumption); simpl.
  - intros w m e H. rewrite count_type_app, H. simpl; lia.
  - intros w e H1 H2 H. rewrite count_type_app, H. simpl.
    destruct (EventType_beq (type e) ty) eqn:E; [|lia].
    apply internal_EventType_dec_bl in E. destruct Hty; congruence.
  - intros w k i i' _ _ H. rewrite count_type_app, H. simpl. lia.
Qed.

Lemma io_ok_count (ty : EventType) (n : nat) :
  io_ok (fun w => count_type ty (trace w) = n).
Proof.
  split; [intros; assumption|]. simpl.
  intros w a Ha H. rewrite count_type_app, H. destruct a; simpl; try lia; discriminate.
Qed.

Lemma count_other_event (ty : EventType) (n : nat) (w : World) (e : BusEvent) :
  type e <> ty ->
  count_type ty (trace w) = n -> count_type ty (trace (record [AEmit e] w)) = n.
Proof.
  intros Hne H. simpl. rewrite count_type_app, H. simpl.
  destruct (EventType_beq (type e) ty) eqn:E; [|lia].
  apply internal_EventType_dec_bl in E. contradiction.
Qed.

Lemma PInv_quiet_act (k : string) (w : World) (a : Act) :
  is_store_act a = false -> PInv k w -> PInv k (record [a] w).
Proof.
  intros Ha (H1 & H2 & H3). repeat split; try assumption. simpl.
  apply store_always_app; split; [exact H3 | apply store_always_quiet, Ha].
Qed.

Lemma stable_PInv (k : string) : stable (eq k) (PInv k).
Proof.
  constructor; try (intros; assumption).
  - intros w n e H. apply PInv_quiet_act; [reflexivity | exact H].
  - intros w e _ _ H. apply PInv_quiet_act; [reflexivity | exact H].
  - unfold PInv; simpl. intros w j i i' <- Hj (H1 & H2 & H3).
    assert (Ho : store_ok (store_set k i' (incidents w))) by (apply store_set_ok, H1).
    assert (Ha : only_active k (store_set k i' (incidents w)))
      by (apply store_set_only_active, H2).
    repeat split; try assumption.
    apply store_always_app; split; [exact H3|].
    constructor; [|constructor]. exact (only_active_at_most_one k _ Ho Ha).
Qed.

Lemma io_ok_PInv (k : string) : io_ok (PInv k).
Proof.
  split; [intros; assumption|].
  intros w a Ha H. apply PInv_quiet_act; [destruct a; try discriminate; reflexivity | exact H].
Qed.

Lemma PInv_any_event (k : string) (w : World) (e : BusEvent) :
  PInv k w -> PInv k (record [AEmit e] w).
Proof. apply PInv_quiet_act; reflexivity. Qed.

Lemma PInv_Inv (k : string) (w : World) : PInv k w -> Inv w.
Proof.
  intros (H1 & H2 & H3). repeat split; try assumption.
  exact (only_active_at_most_one k _ H1 H2).
Qed.

Lemma Inv_quiet_act (w : World) (a : Act) :
  is_store_act a = false -> Inv w -> Inv (record [a] w).
Proof.
  intros Ha (H1 & H2 & H3). repeat split; try assumption. simpl.
  apply store_always_app; split; [exact H3 | apply store_always_quiet, Ha].
Qed.

Lemma stable_Inv : stable (fun _ => False) Inv.
Proof.
  constructor; try (intros; assumption).
  - intros w n e H. apply Inv_quiet_act; [reflexivity | exact H].
  - intros w e _ _ H. apply Inv_quiet_act; [reflexivity | exact H].
  - intros w j i i' [].
Qed.

Lemma stable_store_pred (P : Store -> Prop) :
  stable (fun _ => False) (fun w => P (incidents w)).
Proof. constructor; try (intros; assumption). intros w k i i' []. Qed.

#[global] Hint Extern 1 (pres _ (runObservabilityAgent _ _ _)) =>
  eapply pres_runObservabilityAgent : pres.
#[global] Hint Extern 1 (pres _ (runAnalyzerAgent _ _ _)) =>
  eapply pres_runAnalyzerAgent : pres.
#[global] Hint Extern 1 (pres _ (runHealingAgent _ _)) =>
  eapply pres_runHealingAgent : pres.
#[global] Hint Extern 1 (pres _ (runRecoveryDecisionAgent _ _)) =>
  eapply pres_runRecoveryDecisionAgent : pres.
#[global] Hint Extern 1 (pres _ (runDisasterRecoveryAgent _)) =>
  eapply pres_runDisasterRecoveryAgent : pres.
#[global] Hint Extern 1 (pres _ (runTrafficSwitchAgent _ _)) =>
  eapply pres_runTrafficSwitchAgent : pres.
#[global] Hint Extern 1 (pres _ (runReporterAgent _)) =>
  eapply pres_runReporterAgent : pres.
#[global] Hint Extern 1 (pres _ (updateStatus _ _)) =>
  eapply pres_updateStatus : pres.
#[global] Hint Extern 1 (pres _ (addTimeline _ _ _)) =>
  eapply pres_addTimeline : pres.
#[global] Hint Extern 1 (pres _ (getHealthSnapshot _)) =>
  eapply pres_getHealthSnapshot : pres.
#[global] Hint Resolve stable_PInv stable_quiet stable_has_incident stable_Inv
  io_ok_PInv io_ok_quiet io_ok_has_incident io_ok_count : pres.
#[global] Hint Extern 0 (_ = _) => reflexivity : pres.
#[global] Hint Extern 0 True => exact Logic.I : pres.

(** ** At most one active incident *)

Lemma reports_ok_PInv (k : string) : reports_ok (PInv k).
Proof. intros w e _ H. apply PInv_any_event, H. Qed.

Lemma creates_ok_PInv (k : string) : creates_ok (PInv k).
Proof. intros w e _ H. apply PInv_any_event, H. Qed.

#[global] Hint Resolve reports_ok_PInv creates_ok_PInv : pres.

(** Opening an incident when none is active leaves the new one as the
    only incident allowed to be active. *)
Lemma createIncident_PInv (ft : FailureType) (sev : Severity) (svc : list string)
      (w : World) :
  Inv w -> active_incidents (incidents w) = [] ->
  wp (createIncident ft sev svc)
     (fun r w' => match r with
                  | Ok i => PInv (id i) w'
                  | Throw _ => Inv w'
                  end) w.
Proof.
  intros (H1 & H2 & H3) Hnone. unfold createIncident, generateId.
  do 3 wp_step. do 2 wp_step. wp_step. wp_step. wp_step. wp_step. wp_step.
  set (newId := ("INC-" ++ _)%string).
  set (inc := Build_Incident newId _ _ _ _ _ _ _ _ _ _).
  set (w2 := put_store _ _).
  assert (HP : PInv newId w2).
  { unfold PInv, w2; simpl.
    assert (Ho : store_ok (store_set newId inc (incidents w))) by (apply store_set_ok, H1).
    assert (Ha : only_active newId (store_set newId inc (incidents w)))
      by (apply store_set_only_active, no_active_only_active, Hnone).
    repeat split; try assumption.
    apply store_always_app; split; [exact H3|].
    constructor; [|constructor]. exact (only_active_at_most_one newId _ Ho Ha). }
  wp_step.
  apply (wp_pres (PInv newId)); [apply (pres_emit_created (eq newId)); auto with pres | exact HP |].
  intros [b|msg] w3 HP3; [|exact (PInv_Inv _ _ HP3)].
  wp_step.
  apply (wp_pres (PInv newId)); [eauto with pres | exact HP3 |].
  intros [[]|msg] w4 HP4; [|exact (PInv_Inv _ _ HP4)].
  wp_step. exact HP4.
Qed.

Lemma runPipeline_Inv (a : AnomalyReport) (s : HealthSnapshot) (w : World) :
  Inv w -> active_incidents (incidents w) = [] ->
  Inv (state_of (runPipeline a s) w).
Proof.
  intros HI Hnone.
  change (wp (runPipeline a s) (fun _ w' => Inv w') w).
  unfold runPipeline. do 5 wp_step.
  eapply wp_conseq; [apply createIncident_PInv; [exact HI | exact Hnone]|].
  intros [i|msg] w1 H1; cbv beta iota; [|wp_step; exact H1].
  apply (wp_pres (PInv (id i))); [| exact H1 |].
  - pres_tac.
  - intros [[]|msg] w2 H2; [|wp_step]; exact (PInv_Inv _ _ H2).
Qed.

Lemma monitoringLoop_Inv (p : PollInput) : pres Inv (monitoringLoop p).
Proof.
  intros w HI.
  change (wp (monitoringLoop p) (fun _ w' => Inv w') w).
  unfold monitoringLoop. do 2 wp_step.
  destruct (pipelineRunning w); [wp_step; exact HI|].
  do 2 wp_step.
  apply (wp_pres Inv); [eauto with pres | exact HI |].
  intros [snapshot|msg] w1 H1; [|wp_step; exact H1].
  do 3 wp_step.
  apply (wp_pres Inv);
    [apply (pres_emit (fun _ => False)); [auto with pres | discriminate | discriminate]
    | exact H1 |].
  intros [b|msg] w2 H2; [|wp_step; exact H2].
  destruct (detectAnomalies snapshot) as [anomaly|].
  - do 8 wp_step.
    match goal with |- wp (if ?c then _ else _) _ _ => destruct c end;
      [|wp_step; exact H2].
    do 2 wp_step.
    match goal with |- wp (match ?x with _ => _ end) _ _ => destruct x eqn:Hact end;
      [wp_step; exact H2|].
    apply getActiveIncident_none in Hact. simpl in Hact.
    wp_step.
    apply (wp_pres (fun w => Inv w /\ active_incidents (incidents w) = []));
      [ apply (pres_emit (fun _ => False));
        [apply stable_and; [exact stable_Inv | exact (stable_store_pred (fun s => active_incidents s = []))]
        | discriminate | discriminate]
      | split; [exact H2 | exact Hact] |].
    intros [b'|msg] w3 [H3 H3']; [|wp_step; exact H3].
    assert (Inv (state_of (runPipeline anomaly snapshot) w3)) as H4
        by (apply runPipeline_Inv; assumption).
    apply wp_state. intros [[]|msg]; cbv beta iota; [exact H4 | wp_step; exact H4].
  - do 3 wp_step. exact H2.
Qed.

(** A poll that finds an incident active opens none: the store is as
    it was and no [incident:created] is published, whatever the
    snapshot and whatever the subscribers do. *)
Lemma monitoringLoop_leaves_active_incident (p : PollInput) (w : World) :
  getActiveIncident w <> None ->
  incidents (state_of (monitoringLoop p) w) = incidents w
  /\ count_type incident_created (trace (state_of (monitoringLoop p) w))
     = count_type incident_created (trace w).
Proof.
  intros Hact.
  set (I := fun w' => incidents w' = incidents w
                      /\ count_type incident_created (trace w')
                         = count_type incident_created (trace w)).
  assert (HS : stable (fun _ => False) I).
  { apply stable_and.
    - exact (stable_store_pred (fun s => s = incidents w)).
    - apply (stable_weaken (fun _ => True)); [auto|].
      apply stable_count; left; reflexivity. }
  assert (H0 : I w) by (split; reflexivity).
  change (wp (monitoringLoop p) (fun _ w' => I w') w).
  unfold monitoringLoop. do 2 wp_step.
  destruct (pipelineRunning w); [wp_step; exact H0|].
  do 2 wp_step.
  apply (wp_pres I); [eapply pres_getHealthSnapshot; exact HS | exact H0 |].
  intros [snapshot|msg] w1 H1; [|wp_step; exact H1].
  do 3 wp_step.
  apply (wp_pres I);
    [eapply pres_emit; [exact HS | discriminate | discriminate] | exact H1 |].
  intros [b|msg] w2 H2; [|wp_step; exact H2].
  destruct (detectAnomalies snapshot) as [anomaly|].
  - do 8 wp_step.
    match goal with |- wp (if ?c then _ else _) _ _ => destruct c end;
      [|wp_step; exact H2].
    do 2 wp_step.
    match goal with |- wp (match ?x with _ => _ end) _ _ => destruct x eqn:E end;
      [wp_step; exact H2|].
    exfalso. apply Hact. apply getActiveIncident_none.
    apply getActiveIncident_none in E. simpl in E.
    destruct H2 as [H2 _]. rewrite H2 in E. exact E.
  - do 3 wp_step. exact H2.
Qed.

(** C4: whatever the polls bring (healthy or anomalous snapshots,
    requests that succeed or fail, subscribers that return or throw),
    the store never holds more than one incident in a non-terminal
    status: not after the polls, and not in any state it went through
    on the way; and a further poll that finds an incident active opens
    none. *)
Theorem C4_at_most_one_active_incident
        (e : Env) (subscribers : list Handler) (polls : list PollInput) :
  let w := run_polls polls (initial_world e subscribers) in
  at_most_one_active (incidents w)
  /\ store_always at_most_one_active (trace w)
  /\ (forall p, getActiveIncident w <> None ->
        incidents (state_of (monitoringLoop p) w) = incidents w
        /\ count_type incident_created (trace (state_of (monitoringLoop p) w))
           = count_type incident_created (trace w)).
Proof.
  assert (H : forall ps w0, Inv w0 -> Inv (run_polls ps w0)).
  { induction ps as [|p ps IH]; intros w0 H0; simpl; [exact H0|].
    apply IH, monitoringLoop_Inv, H0. }
  destruct (H polls (initial_world e subscribers)) as (_ & H2 & H3).
  - repeat split; [constructor | unfold at_most_one_active; simpl; lia | constructor].
  - split; [exact H2|]. split; [exact H3|].
    intros p. apply monitoringLoop_leaves_active_incident.
Qed.

#[global] Hint Extern 1 (pres _ Date_now) => eapply pres_Date_now : pres.
#[global] Hint Extern 1 (pres _ Math_random_suffix) => eapply pres_random : pres.
#[global] Hint Extern 1 (pres _ (json _)) => eapply pres_json : pres.
#[global] Hint Extern 1 (pres _ (body_status_healthy _)) =>
  eapply pres_body_status_healthy : pres.
#[global] Hint Extern 1 (pres _ (getIncident _)) => eapply pres_getIncident : pres.
#[global] Hint Extern 1 (pres _ (mutate_incident _ _)) => eapply pres_mutate : pres.
#[global] Hint Extern 1 (pres _ (emit report_generated _)) =>
  eapply pres_emit_report : pres.
#[global] Hint Extern 1 (pres _ (emit incident_created _)) =>
  eapply pres_emit_created : pres.
#[global] Hint Extern 2 (pres _ (emit _ _)) =>
  (eapply pres_emit; [ | discriminate | discriminate ]) : pres.
#[global] Hint Extern 1 (pres _ (sleep _)) => eapply pres_sleep : pres.
#[global] Hint Extern 1 (pres _ (fetch _ _)) => eapply pres_fetch : pres.
#[global] Hint Extern 1 (pres _ (addRecoveryAttempt _ _)) =>
  eapply pres_addRecoveryAttempt : pres.
#[global] Hint Extern 1 (pres _ (setRootCause _ _)) => eapply pres_setRootCause : pres.
#[global] Hint Extern 1 (pres _ (setReport _ _)) => eapply pres_setReport : pres.
#[global] Hint Extern 1 (pres _ (executeAgent _ _ _)) => eapply pres_executeAgent : pres.
#[global] Hint Extern 1 (pres _ (observability_body _ _)) =>
  eapply pres_observability_body : pres.
#[global] Hint Extern 1 (pres _ (analyzer_body _ _ _)) => eapply pres_analyzer_body : pres.
#[global] Hint Extern 1 (pres _ (healing_body _ _)) => eapply pres_healing_body : pres.
#[global] Hint Extern 1 (pres _ (decision_body _ _)) => eapply pres_decision_body : pres.
#[global] Hint Extern 1 (pres _ (disaster_recovery_body _)) =>
  eapply pres_disaster_recovery_body : pres.
#[global] Hint Extern 1 (pres _ (traffic_switch_body _ _)) =>
  eapply pres_traffic_switch_body : pres.
#[global] Hint Extern 1 (pres _ (reporter_body _)) => eapply pres_reporter_body : pres.

#[global] Hint Extern 1 => exact Logic.I : pres.

Lemma reports_ok_quiet : reports_ok quiet.
Proof. intros w e _ H; exact H. Qed.

Lemma creates_ok_quiet : creates_ok quiet.
Proof. intros w e _ H; exact H. Qed.

Lemma reports_ok_has_incident (k : string) : reports_ok (has_incident k).
Proof. intros w e _ H; exact H. Qed.

Lemma creates_ok_has_incident (k : string) : creates_ok (has_incident k).
Proof. intros w e _ H; exact H. Qed.

#[global] Hint Resolve reports_ok_quiet creates_ok_quiet reports_ok_has_incident
  creates_ok_has_incident : pres.

(** ** Returning under quiet subscribers *)

Create HintDb ok.

Ltac ok_tac :=
  repeat (intros;
          lazymatch goal with
          | |- ok (bind _ _) => apply ok_bind
          | |- ok (try_catch _ _) => apply ok_try_catch
          | |- ok (ret _) => apply ok_ret
          | |- ok (gets _) => apply ok_gets
          | |- ok (modify _) => apply ok_modify
          | |- ok (if ?c then _ else _) => destruct c
          | |- ok (match ?x with _ => _ end) => destruct x
          | |- ok _ => first [assumption | solve [eauto 3 with ok nocore]]
          | |- pres quiet _ => solve [pres_tac]
          end).

Lemma ok_Date_now : ok Date_now.
Proof. intros w _; eexists; reflexivity. Qed.

Lemma ok_random : ok Math_random_suffix.
Proof. intros w _; eexists; reflexivity. Qed.

Lemma ok_sleep (ms : Z) : ok (sleep ms).
Proof. intros w _; eexists; reflexivity. Qed.

Lemma ok_getIncident (k : string) : ok (getIncident k).
Proof. intros w _; eexists; reflexivity. Qed.

Lemma ok_mutate (k : string) (f : Incident -> Incident) : ok (mutate_incident k f).
Proof. intros w _; eexists; reflexivity. Qed.

#[global] Hint Resolve ok_Date_now ok_random ok_sleep ok_getIncident ok_mutate
  ok_emit : ok.

Lemma ok_addTimeline (k event : string) (details : option JRecord) :
  ok (addTimeline k event details).
Proof. unfold addTimeline. ok_tac. Qed.

#[global] Hint Resolve ok_addTimeline : ok.

Lemma ok_updateStatus (k : string) (st : IncidentStatus) : ok (updateStatus k st).
Proof. unfold updateStatus. ok_tac. Qed.

Lemma ok_addRecoveryAttempt (k : string) (a : RecoveryAttempt) :
  ok (addRecoveryAttempt k a).
Proof. unfold addRecoveryAttempt. ok_tac. Qed.

Lemma ok_setRootCause (k cause : string) : ok (setRootCause k cause).
Proof. unfold setRootCause. ok_tac. Qed.

Lemma ok_setReport (k : string) (r : IncidentReport) : ok (setReport k r).
Proof. unfold setReport. ok_tac. Qed.

#[global] Hint Resolve ok_updateStatus ok_addRecoveryAttempt ok_setRootCause
  ok_setReport : ok.

(** A stage wrapper returns a result whether its body returns or
    throws. *)
Lemma ok_executeAgent (name k : string) (fn : M JRecord) :
  pres quiet fn -> ok (executeAgent name k fn).
Proof.
  intros Hfn. unfold executeAgent. ok_tac.
Qed.

Lemma ok_createIncident (ft : FailureType) (sev : Severity) (svc : list string) :
  ok (createIncident ft sev svc).
Proof. unfold createIncident, generateId. ok_tac. Qed.

Lemma ok_getHealthSnapshot (p : PollInput) : ok (getHealthSnapshot p).
Proof. unfold getHealthSnapshot. destruct (healthy (in_demoApp p)); ok_tac. Qed.

Lemma ok_runObservabilityAgent k a s : ok (runObservabilityAgent k a s).
Proof. unfold runObservabilityAgent. apply ok_executeAgent. pres_tac. Qed.

Lemma ok_runAnalyzerAgent k a s : ok (runAnalyzerAgent k a s).
Proof. unfold runAnalyzerAgent. apply ok_executeAgent. pres_tac. Qed.

Lemma ok_runHealingAgent k strategy : ok (runHealingAgent k strategy).
Proof. unfold runHealingAgent. apply ok_executeAgent. pres_tac. Qed.

Lemma ok_runRecoveryDecisionAgent k hs : ok (runRecoveryDecisionAgent k hs).
Proof. unfold runRecoveryDecisionAgent. apply ok_executeAgent. pres_tac. Qed.

Lemma ok_runDisasterRecoveryAgent k : ok (runDisasterRecoveryAgent k).
Proof. unfold runDisasterRecoveryAgent. apply ok_executeAgent. pres_tac. Qed.

Lemma ok_runTrafficSwitchAgent k rft : ok (runTrafficSwitchAgent k rft).
Proof. unfold runTrafficSwitchAgent. apply ok_executeAgent. pres_tac. Qed.

Lemma ok_runReporterAgent k : ok (runReporterAgent k).
Proof. unfold runReporterAgent. apply ok_executeAgent. pres_tac. Qed.

Lemma wp_okq {A} (m : M A) (Q : Result A -> World -> Prop) (w : World) :
  ok m -> pres quiet m -> quiet w ->
  (forall a w', quiet w' -> Q (Ok a) w') -> wp m Q w.
Proof.
  intros Hok Hp Hq HQ. unfold wp. destruct (Hok w Hq) as [a ->].
  apply HQ, Hp, Hq.
Qed.

Lemma wp_result {A} (m : M A) (Q : Result A -> World -> Prop) (w : World) (r : Result A) :
  result_of m w = r -> Q r (state_of m w) -> wp m Q w.
Proof. intros <- H. exact H. Qed.

Ltac wp_skip :=
  apply wp_okq;
  [ first [solve [eauto 3 with ok nocore] | ok_tac]
  | solve [pres_tac]
  | assumption
  | let a := fresh "a" in let w := fresh "w" in let H := fresh "Hq" in
    intros a w H; cbv beta iota ].

(** ** The stage wrapper *)

(** With quiet subscribers, a stage whose body returns data satisfying
    [P] returns a successful result carrying that data. *)
Lemma executeAgent_returns (name k : string) (fn : M JRecord) (P : JRecord -> Prop)
      (w : World) :
  quiet w -> pres quiet fn ->
  (forall w1, quiet w1 -> exists d, result_of fn w1 = Ok d /\ P d) ->
  exists r, result_of (executeAgent name k fn) w = Ok r
            /\ agent r = name /\ success r = true /\ P (res_data r).
Proof.
  intros Hq Hfn Hbody.
  change (wp (executeAgent name k fn)
             (fun r _ => exists r', r = Ok r' /\ agent r' = name
                                    /\ success r' = true /\ P (res_data r')) w).
  unfold executeAgent. do 2 wp_step. wp_step. wp_skip. wp_step. wp_skip.
  do 2 wp_step.
  destruct (Hbody _ Hq1) as [d [Hd HP]].
  eapply wp_result; [exact Hd|]. cbv beta iota.
  assert (Hq2 : quiet (state_of fn w1)) by (apply Hfn; exact Hq1).
  do 2 wp_step. wp_step. wp_skip. wp_step. wp_skip. wp_step.
  eexists; repeat split. exact HP.
Qed.

(** ** The Recovery Decision stage *)

Lemma decision_body_result (k : string) (hs : JValue) (w : World) :
  exists d, result_of (decision_body k hs) w = Ok d
            /\ obj_get "decision" d
               = JStr (if truthy hs then "resolved" else "escalate_dr")
            /\ obj_get "nextAction" d
               = JStr (if truthy hs then "generate_report" else "disaster_recovery").
Proof.
  unfold decision_body, result_of, bind, sleep, modify, getIncident, gets; simpl.
  destruct (truthy hs); simpl.
  - eexists; repeat split.
  - destruct (3 <=? _); eexists; repeat split.
Qed.

Lemma runRecoveryDecisionAgent_decides (k : string) (hs : JValue) (w : World) :
  quiet w ->
  exists r, result_of (runRecoveryDecisionAgent k hs) w = Ok r
            /\ agent r = "Recovery Decision Agent" /\ success r = true
            /\ (obj_get "decision" (res_data r)
                = JStr (if truthy hs then "resolved" else "escalate_dr")
                /\ obj_get "nextAction" (res_data r)
                   = JStr (if truthy hs then "generate_report" else "disaster_recovery")).
Proof.
  intros Hq. unfold runRecoveryDecisionAgent.
  apply (executeAgent_returns _ _ _
           (fun d => obj_get "decision" d
                     = JStr (if truthy hs then "resolved" else "escalate_dr")
                     /\ obj_get "nextAction" d
                        = JStr (if truthy hs then "generate_report"
                                else "disaster_recovery"))); [exact Hq | pres_tac |].
  intros w1 _. apply decision_body_result.
Qed.

(** C6: for every state of the store (hence every number of recorded
    attempts) and every boolean healing outcome, the Recovery Decision
    stage returns the decision [resolved] (next action
    [generate_report]) when healing succeeded and [escalate_dr] (next
    action [disaster_recovery]) when it failed. *)
Theorem C6_decision_follows_healing_outcome
        (w : World) (incidentId : string) (healingSuccess : bool) :
  quiet w ->
  exists r, result_of (runRecoveryDecisionAgent incidentId (JBool healingSuccess)) w = Ok r
            /\ success r = true
            /\ obj_get "decision" (res_data r)
               = JStr (if healingSuccess then "resolved" else "escalate_dr")
            /\ obj_get "nextAction" (res_data r)
               = JStr (if healingSuccess then "generate_report" else "disaster_recovery").
Proof.
  intros Hq.
  destruct (runRecoveryDecisionAgent_decides incidentId (JBool healingSuccess) w Hq)
    as (r & Hr & _ & Hs & Hd & Hn).
  exists r. repeat split; assumption.
Qed.

Lemma quiet_logger (e : Env) : quiet (initial_world e [logger]).
Proof. intros h ev [<-|[]]. reflexivity. Qed.

Lemma quiet_set_incidents (s : Store) (w : World) : quiet w -> quiet (set_incidents s w).
Proof. exact (fun H => H). Qed.

Lemma C6_decision_follows_healing_outcome_witness :
  exists r, result_of (runRecoveryDecisionAgent "INC-2" (JBool false)) world_three_attempts
            = Ok r
            /\ success r = true
            /\ obj_get "decision" (res_data r) = JStr "escalate_dr"
            /\ obj_get "nextAction" (res_data r) = JStr "disaster_recovery".
Proof.
  apply (C6_decision_follows_healing_outcome world_three_attempts "INC-2" false).
  apply quiet_set_incidents, quiet_logger.
Defined.

(** The number of recorded attempts shows in the reason, and only
    there. *)
Lemma decision_reason_mentions_attempts :
  option_map (fun d => (obj_get "decision" d, obj_get "reason" d))
    (match result_of (decision_body "INC-2" (JBool false)) world_three_attempts with
     | Ok d => Some d | Throw _ => None end)
  = Some (JStr "escalate_dr",
          JStr "Self-healing failed after 3 attempts. Escalating to disaster recovery.")
  /\ option_map (fun d => (obj_get "decision" d, obj_get "reason" d))
       (match result_of (decision_body "INC-1" (JBool false)) world_one_resolved with
        | Ok d => Some d | Throw _ => None end)
     = Some (JStr "escalate_dr",
             JStr "Self-healing failed. Escalating to disaster recovery.").
Proof. split; reflexivity. Qed.

(** ** The Traffic Switch stage *)

Lemma stable_io_free (l : list Act) (n : nat) :
  stable (fun _ => True) (fun w => io_acts (trace w) = l /\ fetch_ix w = n).
Proof.
  unfold io_acts. constructor; try (intros; assumption); simpl.
  - intros w m e [H1 H2]. rewrite filter_app, H1. simpl. rewrite app_nil_r. auto.
  - intros w e _ _ [H1 H2]. rewrite filter_app, H1. simpl. rewrite app_nil_r. auto.
  - intros w k i i' _ _ [H1 H2]. rewrite filter_app, H1. simpl. rewrite app_nil_r. auto.
Qed.

Lemma traffic_not_ready_result (k : string) (rft : JValue) (w : World) :
  quiet w -> truthy rft = false ->
  exists d, result_of (traffic_switch_body k rft) w = Ok d
            /\ d = [("trafficStatus", JStr "failed");
                    ("reason", JStr "System not ready for traffic")].
Proof.
  intros Hq Hr. unfold traffic_switch_body. rewrite result_bind.
  rewrite emit_quiet by exact Hq. rewrite Hr. simpl. eexists; split; reflexivity.
Qed.

(** C8, as stated, fails: told that the system is not ready, the stage
    reports the traffic status [failed], not [rolled_back]. *)
Lemma C8_not_ready_reports_failed :
  exists r, result_of (runTrafficSwitchAgent "INC-1" (JBool false)) world_one_resolved = Ok r
            /\ obj_get "trafficStatus" (res_data r) = JStr "failed"
            /\ obj_get "trafficStatus" (res_data r) <> JStr "rolled_back".
Proof. eexists. split; [vm_compute; reflexivity|]. split; [reflexivity | discriminate]. Qed.

(** C8 (amended): when the Disaster Recovery stage reports the system
    not ready for traffic, the Traffic Switch stage returns without any
    wait and without any request, and its result carries the traffic
    status [failed] with the reason "System not ready for traffic". *)
Theorem C8_not_ready_short_circuits
        (w : World) (incidentId : string) (readyForTraffic : JValue) :
  quiet w -> truthy readyForTraffic = false ->
  exists r, result_of (runTrafficSwitchAgent incidentId readyForTraffic) w = Ok r
            /\ success r = true
            /\ res_data r = [("trafficStatus", JStr "failed");
                             ("reason", JStr "System not ready for traffic")]
            /\ io_acts (trace (state_of (runTrafficSwitchAgent incidentId readyForTraffic) w))
               = io_acts (trace w)
            /\ fetch_ix (state_of (runTrafficSwitchAgent incidentId readyForTraffic) w)
               = fetch_ix w.
Proof.
  intros Hq Hr.
  destruct (executeAgent_returns "Traffic Switch Agent" incidentId
              (traffic_switch_body incidentId readyForTraffic)
              (fun d => d = [("trafficStatus", JStr "failed");
                             ("reason", JStr "System not ready for traffic")]) w Hq)
    as (r & Hres & _ & Hs & Hd).
  - pres_tac.
  - intros w1 Hq1. apply traffic_not_ready_result; assumption.
  - exists r. split; [exact Hres|]. split; [exact Hs|]. split; [exact Hd|].
    apply (pres_executeAgent (fun _ => True) _ (stable_io_free (io_acts (trace w)) (fetch_ix w))
             "Traffic Switch Agent" incidentId _ Logic.I).
    + apply (pres_traffic_switch_not_ready (fun _ => True) _
               (stable_io_free (io_acts (trace w)) (fetch_ix w))). exact Hr.
    + split; reflexivity.
Qed.

Lemma C8_not_ready_short_circuits_witness :
  exists r, result_of (runTrafficSwitchAgent "INC-2" (JBool false)) world_three_attempts = Ok r
            /\ success r = true
            /\ res_data r = [("trafficStatus", JStr "failed");
                             ("reason", JStr "System not ready for traffic")]
            /\ io_acts (trace (state_of (runTrafficSwitchAgent "INC-2" (JBool false))
                                         world_three_attempts))
               = io_acts (trace world_three_attempts)
            /\ fetch_ix (state_of (runTrafficSwitchAgent "INC-2" (JBool false))
                                  world_three_attempts)
               = fetch_ix world_three_attempts.
Proof.
  apply (C8_not_ready_short_circuits world_three_attempts "INC-2" (JBool false)).
  - apply quiet_set_incidents, quiet_logger.
  - reflexivity.
Defined.

(** [rolled_back] is what a ready system gets when its final health
    check fails. *)
Lemma traffic_rolled_back_when_check_fails :
  exists r, result_of (runTrafficSwitchAgent "INC-2" (JBool true)) world_three_attempts = Ok r
            /\ obj_get "trafficStatus" (res_data r) = JStr "rolled_back".
Proof. eexists. split; [vm_compute; reflexivity | reflexivity]. Qed.

(** ** Following one incident through a stage *)

Lemma count_type_deliver (ty : EventType) (acts : list Act) :
  Forall (fun a => is_deliver_act a = true) acts -> count_type ty acts = 0%nat.
Proof.
  induction 1 as [|a acts Ha _ IH]; simpl; [reflexivity|].
  destruct a; try discriminate. exact IH.
Qed.

Lemma last_emit_from_app (acc : option BusEvent) (t t' : list Act) :
  last_emit_from acc (t ++ t') = last_emit_from (last_emit_from acc t) t'.
Proof.
  revert acc; induction t as [|a t IH]; intros acc; simpl; [reflexivity|].
  destruct a; apply IH.
Qed.

Lemma last_emit_from_deliver (acc : option BusEvent) (acts : list Act) :
  Forall (fun a => is_deliver_act a = true) acts -> last_emit_from acc acts = acc.
Proof.
  induction 1 as [|a acts Ha _ IH]; simpl; [reflexivity|].
  destruct a; try discriminate. exact IH.
Qed.

Lemma emit_world_count (ty ty' : EventType) (d : JRecord) (w : World) :
  count_type ty' (trace (emit_world ty d w))
  = (count_type ty' (trace w) + (if EventType_beq ty ty' then 1 else 0))%nat.
Proof.
  unfold emit_world; simpl. rewrite !count_type_app.
  rewrite (count_type_deliver _ _ (call_listeners_deliveries _ _ _)). simpl. lia.
Qed.

Lemma emit_world_last (ty : EventType) (d : JRecord) (w : World) :
  last_emit (trace (emit_world ty d w)) = Some (event_at ty d w).
Proof.
  unfold emit_world, last_emit; simpl. rewrite !last_emit_from_app. simpl.
  apply last_emit_from_deliver, call_listeners_deliveries.
Qed.

Section Tracked.
Variable k : string.

Lemma tracked_Date_now i n le (Q : Result Z -> World -> Prop) w :
  tracked k i n le w ->
  (forall t w', tracked k i n le w' -> Q (Ok t) w') -> wp Date_now Q w.
Proof. intros H HQ. apply wp_Date_now, HQ. exact H. Qed.

Lemma tracked_sleep ms i n le (Q : Result unit -> World -> Prop) w :
  tracked k i n le w ->
  (forall w', tracked k i n le w' -> Q (Ok tt) w') -> wp (sleep ms) Q w.
Proof.
  intros (H1 & H2 & H3 & H4) HQ. apply wp_sleep, HQ. repeat split; try assumption.
  - simpl. rewrite count_type_app, H3. simpl. lia.
  - unfold last_emit in *. simpl. rewrite last_emit_from_app, H4. reflexivity.
Qed.

Lemma tracked_getIncident i n le (Q : Result (option Incident) -> World -> Prop) w :
  tracked k i n le w -> Q (Ok (Some i)) w -> wp (getIncident k) Q w.
Proof. intros (H1 & H2 & H3 & H4) HQ. apply wp_getIncident. rewrite H2. exact HQ. Qed.

Lemma tracked_emit ty d i n le (Q : Result bool -> World -> Prop) w :
  EventType_beq ty report_generated = false ->
  tracked k i n le w ->
  (forall b w' ev, type ev = ty -> data ev = d ->
     tracked k i n (Some ev) w' -> Q (Ok b) w') ->
  wp (emit ty d) Q w.
Proof.
  intros Hty (H1 & H2 & H3 & H4) HQ. apply wp_emit_quiet; [exact H1|].
  apply (HQ _ _ (event_at ty d w)); try reflexivity.
  repeat split; try assumption.
  - rewrite emit_world_count, H3, Hty. lia.
  - apply emit_world_last.
Qed.

Lemma tracked_emit_report d i n le (Q : Result bool -> World -> Prop) w :
  tracked k i n le w ->
  (forall b w' ev, tracked k i (S n) (Some ev) w' -> Q (Ok b) w') ->
  wp (emit report_generated d) Q w.
Proof.
  intros (H1 & H2 & H3 & H4) HQ. apply wp_emit_quiet; [exact H1|].
  apply (HQ _ _ (event_at report_generated d w)).
  repeat split; try assumption.
  - rewrite emit_world_count, H3. simpl. lia.
  - apply emit_world_last.
Qed.

Lemma tracked_mutate f i n le (Q : Result unit -> World -> Prop) w :
  tracked k i n le w ->
  (forall w', tracked k (f i) n le w' -> Q (Ok tt) w') ->
  wp (mutate_incident k f) Q w.
Proof.
  intros (H1 & H2 & H3 & H4) HQ. eapply wp_mutate; [exact H2|]. apply HQ.
  repeat split; try assumption.
  - simpl. apply store_get_set_same.
  - simpl. rewrite count_type_app, H3. simpl. lia.
  - unfold last_emit in *. simpl. rewrite last_emit_from_app, H4. reflexivity.
Qed.

Lemma tracked_addTimeline ev details i n le (Q : Result unit -> World -> Prop) w :
  tracked k i n le w ->
  (forall t w', tracked k (with_timeline t i) n le w' -> Q (Ok tt) w') ->
  wp (addTimeline k ev details) Q w.
Proof.
  intros H HQ. unfold addTimeline. wp_step.
  eapply tracked_getIncident; [exact H|]. cbv beta iota. wp_step.
  destruct (timeline i) eqn:Et.
  - wp_step. wp_step. eapply tracked_Date_now; [exact H|]. intros t w1 H1.
    eapply tracked_mutate; [exact H1|]. intros w2 H2. eapply HQ. exact H2.
  - eapply tracked_mutate; [exact H|]. intros w1 H1. cbv beta iota.
    wp_step. eapply tracked_Date_now; [exact H1|]. intros t w2 H2.
    eapply tracked_mutate; [exact H2|]. intros w3 H3. eapply HQ.
    simpl in H3. exact H3.
Qed.

Lemma tracked_setReport rep i n le (Q : Result unit -> World -> Prop) w :
  tracked k i n le w ->
  (forall le' w', tracked k (with_report rep i) (S n) le' w' -> Q (Ok tt) w') ->
  wp (setReport k rep) Q w.
Proof.
  intros H HQ. unfold setReport. wp_step.
  eapply tracked_getIncident; [exact H|]. cbv beta iota. wp_step.
  eapply tracked_mutate; [exact H|]. intros w1 H1. cbv beta iota. wp_step.
  eapply tracked_emit_report; [exact H1|]. intros b w2 ev H2. cbv beta iota.
  wp_step. eapply HQ. exact H2.
Qed.

Lemma tracked_updateStatus st i n le (Q : Result unit -> World -> Prop) w :
  tracked k i n le w ->
  (forall i' le' w',
      status i' = st ->
      (st = resolved -> resolvedAt i' <> None) ->
      report i' = report i ->
      tracked k i' n le' w' -> Q (Ok tt) w') ->
  wp (updateStatus k st) Q w.
Proof.
  intros H HQ. unfold updateStatus. wp_step.
  eapply tracked_getIncident; [exact H|]. cbv beta iota. wp_step.
  eapply tracked_mutate; [exact H|]. intros w1 H1. cbv beta iota. wp_step.
  destruct (IncidentStatus_eqb st resolved) eqn:Est.
  - wp_step. eapply tracked_Date_now; [exact H1|]. intros t w2 H2.
    eapply tracked_mutate; [exact H2|]. intros w3 H3. cbv beta iota.
    wp_step. eapply tracked_Date_now; [exact H3|]. intros t' w4 H4. wp_step.
    eapply tracked_emit; [reflexivity | exact H4|]. intros b w5 ev _ _ H5. cbv beta iota.
    wp_step. eapply (HQ _ _ _ _ _ _ H5).
  - wp_step. wp_step. eapply tracked_Date_now; [exact H1|]. intros t' w4 H4. wp_step.
    eapply tracked_emit; [reflexivity | exact H4|]. intros b w5 ev _ _ H5. cbv beta iota.
    wp_step. eapply (HQ _ _ _ _ _ _ H5).
  Unshelve.
  all: simpl; try reflexivity; try discriminate.
  intros ->; discriminate.
Qed.
End Tracked.

(** ** The Reporter stage *)

(** With quiet subscribers and the incident present, the Reporter
    stage returns a successful result, leaves the incident resolved
    with a report of its own, publishes exactly one [report:generated]
    and ends on its own [agent:complete]. *)
Lemma runReporterAgent_spec (k : string) (i : Incident) (n : nat)
      (le : option BusEvent) (Q : Result AgentResult -> World -> Prop) (w : World) :
  tracked k i n le w ->
  (forall r i' ev w',
      success r = true -> agent r = "Incident Reporter" ->
      reported k i' ->
      type ev = agent_complete ->
      obj_get "agent" (data ev) = JStr "Incident Reporter" ->
      obj_get "incidentId" (data ev) = JStr k ->
      tracked k i' (S n) (Some ev) w' -> Q (Ok r) w') ->
  wp (runReporterAgent k) Q w.
Proof.
  intros H HQ. unfold runReporterAgent, executeAgent.
  wp_step. eapply tracked_Date_now; [exact H|]. intros start w1 H1.
  wp_step. eapply tracked_emit; [reflexivity | exact H1|]. intros b1 w2 ev2 _ _ H2.
  cbv beta iota. wp_step. eapply tracked_addTimeline; [exact H2|]. intros t3 w3 H3.
  cbv beta iota. wp_step. wp_step.
  unfold reporter_body.
  wp_step. eapply tracked_getIncident; [exact H3|]. cbv beta iota.
  wp_step. eapply tracked_sleep; [exact H3|]. intros w4 H4.
  wp_step. eapply tracked_getIncident; [exact H4|]. cbv beta iota.
  set (i3 := with_timeline t3 i) in *.
  assert (forall w5, tracked k i3 n (Some ev2) w5 ->
            forall dur,
            wp (idStamp <- Date_now ;;
                generated <- Date_now ;;
                let rep :=
                  {| rep_id := "RPT-" ++ string_of_Z idStamp;
                     rep_incidentId := k;
                     rep_timeline := match timeline i3 with
                                     | Some _ => JTimelineOf k
                                     | None => JArr []
                                     end;
                     rep_rootCauseAnalysis :=
                       match rootCause i3 with
                       | Some c => if String.eqb c "" then "Root cause analysis pending" else c
                       | None => "Root cause analysis pending"
                       end;
                     rep_actionsSummary :=
                       String.concat newline (map attempt_line (attemptedActions i3));
                     rep_preventionRecommendations :=
                       generateRecommendations (failureType i3);
                     rep_generatedAt := generated |} in
                let actionsCount :=
                  JNum (ZNum (Z.of_nat (List.length (attemptedActions i3)))) in
                setReport k rep ;;
                updateStatus k resolved ;;
                emit incident_resolved
                     [("incidentId", JStr k);
                      ("duration", JNum (ZNum dur));
                      ("report",
                       JObj [("id", JStr (rep_id rep));
                             ("rootCause", JStr (rep_rootCauseAnalysis rep));
                             ("actionsCount", actionsCount);
                             ("durationMs", JNum (ZNum dur))])] ;;
                ret [("reportId", JStr (rep_id rep));
                     ("durationMs", JNum (ZNum dur));
                     ("durationHuman", JStr (formatDuration dur));
                     ("actionsCount", actionsCount);
                     ("rootCause", JStr (rep_rootCauseAnalysis rep));
                     ("recommendations",
                      JArr (map JStr (rep_preventionRecommendations rep)))])
               (fun r w' =>
                  exists d i' ev, r = Ok d /\ reported k i'
                                  /\ tracked k i' (S n) (Some ev) w') w5) as Hbody.
  { intros w5 H5 dur.
    wp_step. eapply tracked_Date_now; [exact H5|]. intros idStamp w6 H6.
    wp_step. eapply tracked_Date_now; [exact H6|]. intros generated w7 H7.
    cbv zeta. wp_step. eapply tracked_setReport; [exact H7|]. intros le8 w8 H8.
    wp_step. eapply tracked_updateStatus; [exact H8|].
    intros i9 le9 w9 Hst Hres Hrep H9.
    wp_step. eapply tracked_emit; [reflexivity | exact H9|]. intros b10 w10 ev10 _ _ H10.
    cbv beta iota. wp_step.
    eexists _, i9, ev10. split; [reflexivity|]. split; [|exact H10].
    split; [exact Hst|]. split; [apply Hres; reflexivity|].
    eexists. split; [rewrite Hrep; reflexivity | reflexivity]. }
  assert (forall w5 (r : Result JRecord),
             (exists d i' ev, r = Ok d /\ reported k i'
                              /\ tracked k i' (S n) (Some ev) w5) ->
             match r with
             | Ok a =>
                 wp (stop <- Date_now ;;
                     emit agent_complete
                          [("agent", JStr "Incident Reporter"); ("incidentId", JStr k);
                           ("success", JBool true);
                           ("duration", JNum (ZNum (stop - start)));
                           ("data", JObj a)] ;;
                     addTimeline k ("Incident Reporter" ++ " completed")
                          (Some (obj_spread [("duration", JNum (ZNum (stop - start)))] a)) ;;
                     ret {| agent := "Incident Reporter"; success := true;
                            res_data := a; duration := stop - start |})
                    (fun r0 w' => match r0 with
                                  | Ok a0 => Q (Ok a0) w'
                                  | Throw msg =>
                                      wp (stop <- Date_now ;;
                                          emit agent_error
                                               [("agent", JStr "Incident Reporter");
                                                ("incidentId", JStr k);
                                                ("error", JStr msg);
                                                ("duration", JNum (ZNum (stop - start)))] ;;
                                          addTimeline k
                                            ("Incident Reporter" ++ " failed: " ++ msg) None ;;
                                          ret {| agent := "Incident Reporter";
                                                 success := false;
                                                 res_data := [("error", JStr msg)];
                                                 duration := stop - start |}) Q w'
                                  end) w5
             | Throw msg => False
             end) as Hwrap.
  { intros w5 r (d & i' & ev & -> & Hrep & H5).
    wp_step. eapply tracked_Date_now; [exact H5|]. intros stop w6 H6.
    wp_step. eapply tracked_emit; [reflexivity | exact H6|]. intros b7 w7 ev7 Hty Hd H7.
    cbv beta iota. wp_step. eapply tracked_addTimeline; [exact H7|]. intros t8 w8 H8.
    cbv beta iota. wp_step.
    apply (HQ _ (with_timeline t8 i') ev7 w8); try reflexivity; try assumption.
    - rewrite Hd. reflexivity.
    - rewrite Hd. reflexivity. }
  wp_step.
  destruct (resolvedAt i3) as [r|].
  - wp_step. eapply wp_conseq; [apply Hbody; exact H4|].
    intros r0 w5 Hex. specialize (Hwrap w5 r0 Hex).
    destruct r0; [exact Hwrap | contradiction].
  - wp_step. eapply tracked_Date_now; [exact H4|]. intros now w5 H5. wp_step.
    eapply wp_conseq; [apply Hbody; exact H5|].
    intros r0 w6 Hex. specialize (Hwrap w6 r0 Hex).
    destruct r0; [exact Hwrap | contradiction].
Qed.

(** ** A pipeline run *)

Lemma stable_carried (k : string) (n : nat) :
  stable (fun _ => True) (fun w => quiet w /\ carried k n w).
Proof.
  apply stable_and; [exact stable_quiet|].
  apply stable_and; [apply stable_has_incident | apply stable_count; right; reflexivity].
Qed.

Lemma io_ok_carried (k : string) (n : nat) :
  io_ok (fun w => quiet w /\ carried k n w).
Proof.
  apply io_ok_and; [exact io_ok_quiet|].
  apply io_ok_and; [apply io_ok_has_incident | apply io_ok_count].
Qed.

Lemma creates_ok_carried (k : string) (n : nat) :
  creates_ok (fun w => quiet w /\ carried k n w).
Proof.
  intros w e He (Hq & Hh & Hc). repeat split; try assumption.
  apply count_other_event; [rewrite He; discriminate | exact Hc].
Qed.

#[global] Hint Resolve stable_carried io_ok_carried creates_ok_carried : pres.

#[global] Hint Extern 1 (ok (runObservabilityAgent _ _ _)) =>
  apply ok_runObservabilityAgent : ok.
#[global] Hint Extern 1 (ok (runAnalyzerAgent _ _ _)) => apply ok_runAnalyzerAgent : ok.
#[global] Hint Extern 1 (ok (runHealingAgent _ _)) => apply ok_runHealingAgent : ok.
#[global] Hint Extern 1 (ok (runRecoveryDecisionAgent _ _)) =>
  apply ok_runRecoveryDecisionAgent : ok.
#[global] Hint Extern 1 (ok (runDisasterRecoveryAgent _)) =>
  apply ok_runDisasterRecoveryAgent : ok.
#[global] Hint Extern 1 (ok (runTrafficSwitchAgent _ _)) =>
  apply ok_runTrafficSwitchAgent : ok.
#[global] Hint Extern 1 (ok (runReporterAgent _)) => apply ok_runReporterAgent : ok.
#[global] Hint Extern 1 (ok (createIncident _ _ _)) => apply ok_createIncident : ok.
#[global] Hint Extern 1 (ok (getHealthSnapshot _)) => apply ok_getHealthSnapshot : ok.

Ltac wp_carry H Hq :=
  lazymatch type of H with
  | carried ?k ?n _ =>
      apply (wp_ok (carried k n));
      [ first [solve [eauto 3 with ok nocore] | ok_tac]
      | solve [pres_tac]
      | exact Hq
      | exact H
      | cbv beta iota ]
  end.

Lemma createIncident_spec (ft : FailureType) (sev : Severity) (svc : list string)
      (n : nat) (Q : Result Incident -> World -> Prop) (w : World) :
  quiet w -> count_type report_generated (trace w) = n ->
  (forall i w', id i = next_id w -> quiet w' -> carried (next_id w) n w' -> Q (Ok i) w') ->
  wp (createIncident ft sev svc) Q w.
Proof.
  intros Hq Hc HQ. unfold createIncident, generateId.
  do 3 wp_step. do 2 wp_step. do 5 wp_step.
  set (newId := ("INC-" ++ _)%string).
  assert (Hk : newId = next_id w) by reflexivity. clearbody newId. subst newId.
  set (inc := Build_Incident (next_id w) _ _ _ _ _ _ _ _ _ _).
  set (w2 := put_store _ _).
  assert (H2 : carried (next_id w) n w2).
  { split.
    - unfold has_incident, w2; simpl. rewrite store_get_set_same. discriminate.
    - unfold w2; simpl. rewrite count_type_app, Hc. simpl. lia. }
  assert (Hq2 : quiet w2) by exact Hq.
  clearbody w2.
  wp_step. wp_carry H2 Hq2. intros b w3 Hq3 H3.
  wp_step. wp_carry H3 Hq3. intros [] w4 Hq4 H4.
  wp_step. apply HQ; [reflexivity | exact Hq4 | exact H4].
Qed.

(** With quiet subscribers a pipeline run opens the incident
    [next_id w] and ends with the Reporter having closed it. *)
Lemma runPipeline_spec (a : AnomalyReport) (s : HealthSnapshot) (n : nat) (w : World) :
  quiet w -> count_type report_generated (trace w) = n ->
  closed_by_reporter (next_id w) n (state_of (runPipeline a s) w).
Proof.
  intros Hq Hc.
  change (wp (runPipeline a s) (fun _ w' => closed_by_reporter (next_id w) n w') w).
  unfold runPipeline. do 5 wp_step.
  apply (createIncident_spec _ _ _ n); [exact Hq | exact Hc |].
  change (next_id (set_pipelineRunning true w)) with (next_id w).
  intros i w1 Hid Hq1 H1. cbv beta iota. rewrite Hid.
  set (k := next_id w) in *.
  wp_step. wp_carry H1 Hq1. intros r1 w2 Hq2 H2.
  wp_step. wp_carry H2 Hq2. intros r2 w3 Hq3 H3.
  wp_step. wp_carry H3 Hq3. intros r3 w4 Hq4 H4.
  wp_step.
  destruct (runRecoveryDecisionAgent_decides k (obj_get "success" (res_data r3)) w4 Hq4)
    as (r4 & Hr4 & _ & _ & Hdec & _).
  eapply wp_result; [exact Hr4|]. cbv beta iota.
  assert (Hp5 : quiet (state_of (runRecoveryDecisionAgent k (obj_get "success" (res_data r3))) w4)
                /\ carried k n (state_of (runRecoveryDecisionAgent k
                                            (obj_get "success" (res_data r3))) w4)).
  { apply (pres_runRecoveryDecisionAgent (fun _ => True) _ (stable_carried k n)
             (io_ok_carried k n) k _ Logic.I). split; assumption. }
  destruct Hp5 as [Hq5 H5]. set (w5 := state_of _ w4) in *. clearbody w5.
  rewrite Hdec.
  assert (Hfinish : forall w6, quiet w6 -> carried k n w6 ->
            wp (runReporterAgent k)
               (fun r w' =>
                  match r with
                  | Ok _ => closed_by_reporter k n
                              (set_pipelineRunning false (set_consecutiveUnhealthy 0 w'))
                  | Throw _ => False
                  end) w6).
  { intros w6 Hq6 [Hh6 Hc6].
    destruct (store_get k (incidents w6)) as [i6|] eqn:E6; [|contradiction].
    apply (runReporterAgent_spec k i6 n (last_emit (trace w6))).
    - repeat split; assumption.
    - intros r i' ev w' _ _ Hrep Hty Hag Hid' (Hq' & Hs' & Hc' & Hl').
      split; [exists i'; split; assumption|].
      split; [exact Hc'|]. split; [|reflexivity].
      exists ev. repeat split; assumption. }
  destruct (truthy (obj_get "success" (res_data r3))); simpl is_str; cbv iota.
  - wp_step. wp_step.
    eapply wp_conseq; [apply Hfinish; assumption|].
    intros [r|msg] w6 H6; cbv beta iota; [|contradiction].
    repeat wp_step. exact H6.
  - wp_step. wp_step. wp_carry H5 Hq5. intros [] w6 Hq6 H6.
    wp_step. wp_carry H6 Hq6. intros r7 w7 Hq7 H7.
    wp_step. wp_carry H7 Hq7. intros r8 w8 Hq8 H8.
    wp_step.
    eapply wp_conseq; [apply Hfinish; assumption|].
    intros [r|msg] w9 H9; cbv beta iota; [|contradiction].
    repeat wp_step. exact H9.
Qed.

(** C7: with the incident present, the Reporter stage returns a
    successful result, stores a report on the incident, sets it to
    [resolved] and publishes exactly one [report:generated]; and a
    pipeline run, whatever the requests of its recovery stages return,
    ends with the Reporter stage: the incident it opened is resolved
    and carries its report, exactly one report was published during
    the run, and the last event of the run is the Reporter's
    [agent:complete]. *)
Theorem C7_pipeline_ends_with_reporter (w : World) :
  quiet w ->
  (forall k, has_incident k w ->
     (exists r, result_of (runReporterAgent k) w = Ok r /\ success r = true)
     /\ incident_sat k (reported k) (state_of (runReporterAgent k) w)
     /\ count_type report_generated (trace (state_of (runReporterAgent k) w))
        = S (count_type report_generated (trace w)))
  /\ (forall a s,
        closed_by_reporter (next_id w) (count_type report_generated (trace w))
                           (state_of (runPipeline a s) w)).
Proof.
  intros Hq. split.
  - intros k Hk.
    destruct (store_get k (incidents w)) as [i|] eqn:E; [|contradiction].
    change (wp (runReporterAgent k)
               (fun r w' =>
                  (exists r', r = Ok r' /\ success r' = true)
                  /\ incident_sat k (reported k) w'
                  /\ count_type report_generated (trace w')
                     = S (count_type report_generated (trace w))) w).
    apply (runReporterAgent_spec k i (count_type report_generated (trace w)) (last_emit (trace w))).
    + repeat split; assumption.
    + intros r i' ev w' Hs _ Hrep _ _ _ (_ & Hs' & Hc' & _).
      split; [exists r; split; [reflexivity | exact Hs]|].
      split; [exists i'; split; assumption | exact Hc'].
  - intros a s. apply runPipeline_spec; [exact Hq | reflexivity].
Qed.

Lemma C7_pipeline_ends_with_reporter_witness :
  (forall k, has_incident k world_three_attempts ->
     (exists r, result_of (runReporterAgent k) world_three_attempts = Ok r /\ success r = true)
     /\ incident_sat k (reported k) (state_of (runReporterAgent k) world_three_attempts)
     /\ count_type report_generated
          (trace (state_of (runReporterAgent k) world_three_attempts))
        = S (count_type report_generated (trace world_three_attempts)))
  /\ (forall a s,
        closed_by_reporter (next_id world_three_attempts)
                           (count_type report_generated (trace world_three_attempts))
                           (state_of (runPipeline a s) world_three_attempts)).
Proof.
  apply (C7_pipeline_ends_with_reporter world_three_attempts).
  apply quiet_set_incidents, quiet_logger.
Defined.

(** The two scenarios of the specification: an unreachable service
    goes through disaster recovery, a memory leak is healed in place;
    both end with the Reporter. *)
Lemma scenario_unreachable_service :
  let w := run_polls [poll_down; poll_down] (initial_world env_down [logger]) in
  emitted_types (trace w)
  = [health_degraded; health_check; health_degraded; health_check;
     anomaly_detected; incident_created;
     agent_start; agent_complete;
     agent_start; incident_update; agent_complete;
     agent_start; incident_update; recovery_action; recovery_action;
     recovery_failed; agent_complete;
     agent_start; agent_complete;
     incident_update;
     agent_start; incident_update; dr_started; recovery_action; recovery_action;
     recovery_action; recovery_action; dr_complete; agent_complete;
     agent_start; traffic_switching; agent_complete;
     agent_start; report_generated; incident_update; incident_resolved;
     agent_complete]
  /\ map (fun kv => (fst kv, status (snd kv), failureType (snd kv), severity (snd kv)))
         (incidents w)
     = [("INC-7000-K3X9QA", resolved, service_down, critical)].
Proof. split; vm_compute; reflexivity. Qed.

Lemma scenario_memory_leak :
  let w := run_polls [poll_memory; poll_memory] (initial_world env_up [logger]) in
  emitted_types (trace w)
  = [health_healthy; health_check; health_healthy; health_check;
     anomaly_detected; incident_created;
     agent_start; agent_complete;
     agent_start; incident_update; agent_complete;
     agent_start; incident_update; recovery_action; recovery_action;
     recovery_action; recovery_success; agent_complete;
     agent_start; agent_complete;
     agent_start; report_generated; incident_update; incident_resolved;
     agent_complete]
  /\ map (fun kv => (fst kv, status (snd kv), failureType (snd kv), severity (snd kv)))
         (incidents w)
     = [("INC-7000-K3X9QA", resolved, memory_leak, medium)].
Proof. split; vm_compute; reflexivity. Qed.

(** ** The polling loop *)

(** The classifier does not look at the time of the snapshot. *)
Lemma detectAnomalies_any_time (p : PollInput) (t t' : Z) :
  detectAnomalies (snapshot_of p t) = detectAnomalies (snapshot_of p t').
Proof. reflexivity. Qed.

Lemma polled_emit ty d s c u (Q : Result bool -> World -> Prop) w :
  EventType_beq ty incident_created = false ->
  polled s c u w ->
  (forall b w', polled s c u w' -> Q (Ok b) w') ->
  wp (emit ty d) Q w.
Proof.
  intros Hty (H1 & H2 & H3 & H4 & H5) HQ. apply wp_emit_quiet; [exact H1|].
  apply HQ. repeat split; try assumption.
  rewrite emit_world_count, H3, Hty. lia.
Qed.

Lemma polled_getHealthSnapshot p s c u (Q : Result HealthSnapshot -> World -> Prop) w :
  polled s c u w ->
  (forall t w', polled s c u w' -> Q (Ok (snapshot_of p t)) w') ->
  wp (getHealthSnapshot p) Q w.
Proof.
  intros H HQ. unfold getHealthSnapshot. do 2 wp_step. wp_step.
  assert (H1 : polled s c u (set_now_ix (S (now_ix w)) w)) by exact H.
  eapply polled_emit; [destruct (healthy (in_demoApp p)); reflexivity | exact H1 |].
  intros b w2 H2. cbv beta iota. wp_step. apply HQ, H2.
Qed.

(** Every pipeline run publishes exactly one [incident:created]. *)
Lemma reports_ok_count_created (n : nat) :
  reports_ok (fun w => count_type incident_created (trace w) = n).
Proof. intros w e He H. apply count_other_event; [rewrite He; discriminate | exact H]. Qed.

Lemma runPipeline_creates_one (a : AnomalyReport) (s : HealthSnapshot) (w : World) :
  count_type incident_created (trace (state_of (runPipeline a s) w))
  = S (count_type incident_created (trace w)).
Proof.
  set (c := count_type incident_created (trace w)).
  set (I := fun w' => count_type incident_created (trace w') = S c).
  assert (HS : stable (fun _ => True) I) by (apply stable_count; left; reflexivity).
  assert (HIO : io_ok I) by apply io_ok_count.
  assert (HR : reports_ok I) by apply reports_ok_count_created.
  change (wp (runPipeline a s) (fun _ w' => I w') w).
  unfold runPipeline. do 5 wp_step.
  unfold createIncident, generateId.
  wp_step. do 3 wp_step. do 2 wp_step. do 4 wp_step.
  set (newId := ("INC-" ++ _)%string).
  set (w2 := put_store _ _).
  wp_step. wp_step.
  assert (H3 : I (emit_world incident_created
                    [("incidentId", JStr newId);
                     ("failureType", JStr (FailureType_str (ar_failureType a)));
                     ("severity", JStr (Severity_str (ar_severity a)));
                     ("affectedServices", services_json (ar_affectedServices a))] w2)).
  { unfold I. rewrite emit_world_count. unfold w2; simpl.
    rewrite count_type_app. simpl. fold c. lia. }
  set (w3 := emit_world _ _ _) in *. clearbody w3.
  destruct (emit_result _ _ _) as [b|msg]; [|wp_step; exact H3].
  wp_step. apply (wp_pres I); [eauto with pres | exact H3 |].
  intros [[]|msg] w4 H4; [|wp_step; exact H4].
  wp_step. cbv beta iota.
  apply (wp_pres I); [pres_tac | exact H4 |].
  intros [[]|msg] w5 H5; [|wp_step]; exact H5.
Qed.

(** A poll, with quiet subscribers and no pipeline running, up to the
    point where the classifier's verdict is acted upon. *)
Lemma monitoringLoop_polled p s c u (Q : Result unit -> World -> Prop) w :
  polled s c u w ->
  (forall t w1,
      polled s c u w1 ->
      wp (match detectAnomalies (snapshot_of p 0) with
          | Some anomaly =>
              modify (fun w => set_consecutiveUnhealthy (S (consecutiveUnhealthy w)) w) ;;
              modify (set_consecutiveHealthy 0) ;;
              unhealthy <- gets consecutiveUnhealthy ;;
              busy' <- gets pipelineRunning ;;
              if (2 <=? unhealthy)%nat && negb busy' then
                activeIncident <- gets getActiveIncident ;;
                match activeIncident with
                | None =>
                    emit anomaly_detected
                         [("failureType", JStr (FailureType_str (ar_failureType anomaly)));
                          ("severity", JStr (Severity_str (ar_severity anomaly)));
                          ("description", JText (description anomaly))] ;;
                    runPipeline anomaly (snapshot_of p t)
                | Some _ => ret tt
                end
              else ret tt
          | None =>
              modify (fun w => set_consecutiveHealthy (S (consecutiveHealthy w)) w) ;;
              modify (set_consecutiveUnhealthy 0)
          end)
         (fun r w' => match r with
                      | Ok a => Q (Ok a) w'
                      | Throw msg => wp (ret tt) Q w'
                      end) w1) ->
  wp (monitoringLoop p) Q w.
Proof.
  intros H HQ. unfold monitoringLoop. do 2 wp_step.
  destruct H as (H1 & H2 & H3 & H4 & H5). rewrite H5.
  do 2 wp_step. eapply (polled_getHealthSnapshot p s c u).
  { repeat split; assumption. }
  intros t w1 P1. cbv beta iota. do 2 wp_step. wp_step.
  assert (P2 : polled s c u (set_lastHealthSnapshot (Some (snapshot_of p t)) w1))
    by exact P1.
  eapply polled_emit; [reflexivity | exact P2 |].
  intros b w3 P3. cbv beta iota.
  rewrite (detectAnomalies_any_time p t 0).
  apply (HQ t w3 P3).
Qed.

Lemma poll_anomalous_below_threshold p s c w :
  polled s c 0 w -> anomalous p ->
  polled s c 1 (state_of (monitoringLoop p) w).
Proof.
  intros H Ha.
  change (wp (monitoringLoop p) (fun _ w' => polled s c 1 w') w).
  eapply monitoringLoop_polled; [exact H|].
  intros t w1 (H1 & H2 & H3 & H4 & H5).
  unfold anomalous in Ha.
  destruct (detectAnomalies (snapshot_of p 0)) as [anomaly|]; [|congruence].
  do 8 wp_step. cbn [consecutiveUnhealthy set_consecutiveHealthy set_consecutiveUnhealthy
                     pipelineRunning].
  rewrite H4, H5. simpl. wp_step.
  repeat split; assumption.
Qed.

Lemma poll_unremarkable p s c u w :
  polled s c u w -> unremarkable p ->
  polled s c 0 (state_of (monitoringLoop p) w).
Proof.
  intros H Hn.
  change (wp (monitoringLoop p) (fun _ w' => polled s c 0 w') w).
  eapply monitoringLoop_polled; [exact H|].
  intros t w1 (H1 & H2 & H3 & H4 & H5).
  unfold unremarkable in Hn. rewrite Hn.
  do 3 wp_step. repeat split; assumption.
Qed.

Lemma poll_anomalous_confirmed p s c w :
  polled s c 1 w -> anomalous p -> active_incidents s = [] ->
  count_type incident_created (trace (state_of (monitoringLoop p) w)) = S c
  /\ (exists k, incident_sat k (reported k) (state_of (monitoringLoop p) w))
  /\ pipelineRunning (state_of (monitoringLoop p) w) = false.
Proof.
  intros H Ha Hnone.
  change (wp (monitoringLoop p)
             (fun _ w' => count_type incident_created (trace w') = S c
                          /\ (exists k, incident_sat k (reported k) w')
                          /\ pipelineRunning w' = false) w).
  eapply monitoringLoop_polled; [exact H|].
  intros t w1 (H1 & H2 & H3 & H4 & H5).
  unfold anomalous in Ha.
  destruct (detectAnomalies (snapshot_of p 0)) as [anomaly|]; [|congruence].
  do 8 wp_step. cbn [consecutiveUnhealthy set_consecutiveHealthy set_consecutiveUnhealthy
                     pipelineRunning].
  rewrite H4, H5. simpl. do 2 wp_step.
  set (w2 := set_consecutiveHealthy 0 _).
  assert (P2 : polled s c 2 w2) by (repeat split; try assumption; simpl; rewrite H4; reflexivity).
  assert (Hact : getActiveIncident w2 = None)
    by (apply getActiveIncident_none; unfold w2; simpl; rewrite H2; exact Hnone).
  rewrite Hact. clearbody w2. wp_step.
  eapply polled_emit; [reflexivity | exact P2 |].
  intros b w3 (Q1 & Q2 & Q3 & Q4 & Q5). cbv beta iota.
  apply wp_state. intros r.
  pose proof (runPipeline_creates_one anomaly (snapshot_of p t) w3) as Hone.
  pose proof (runPipeline_spec anomaly (snapshot_of p t) _ w3 Q1 eq_refl)
    as (Hsat & _ & _ & Hrun).
  rewrite Q3 in Hone.
  assert (count_type incident_created
            (trace (state_of (runPipeline anomaly (snapshot_of p t)) w3)) = S c
          /\ (exists k, incident_sat k (reported k)
                          (state_of (runPipeline anomaly (snapshot_of p t)) w3))
          /\ pipelineRunning (state_of (runPipeline anomaly (snapshot_of p t)) w3) = false)
    as Hgoal.
  { split; [exact Hone|]. split; [eexists; exact Hsat | exact Hrun]. }
  destruct r; [exact Hgoal | wp_step; exact Hgoal].
Qed.

(** C3: from an unhealthy counter at zero and with no pipeline running,
    a poll classified as anomalous followed by a poll classified as
    healthy opens no incident (the store is unchanged, no
    [incident:created] is published) and leaves the unhealthy counter
    at 0; two polls in a row classified as anomalous, no incident being
    active, open exactly one incident: one [incident:created] is
    published, and the incident is in the store. *)
Theorem C3_hysteresis (w : World) (p1 p2 : PollInput) :
  quiet w ->
  pipelineRunning w = false ->
  consecutiveUnhealthy w = 0%nat ->
  anomalous p1 ->
  let w2 := state_of (monitoringLoop p2) (state_of (monitoringLoop p1) w) in
  (unremarkable p2 ->
     incidents w2 = incidents w
     /\ count_type incident_created (trace w2) = count_type incident_created (trace w)
     /\ consecutiveUnhealthy w2 = 0%nat)
  /\ (anomalous p2 -> getActiveIncident w = None ->
        count_type incident_created (trace w2)
        = S (count_type incident_created (trace w))
        /\ exists k, incident_sat k (reported k) w2).
Proof.
  intros Hq Hrun Hu Ha1 w2.
  assert (P0 : polled (incidents w) (count_type incident_created (trace w)) 0 w)
    by (repeat split; assumption).
  pose proof (poll_anomalous_below_threshold p1 _ _ w P0 Ha1) as P1.
  split.
  - intros Hn2.
    destruct (poll_unremarkable p2 _ _ _ _ P1 Hn2) as (_ & H2 & H3 & H4 & _).
    repeat split; assumption.
  - intros Ha2 Hnone. apply getActiveIncident_none in Hnone.
    destruct (poll_anomalous_confirmed p2 _ _ _ P1 Ha2 Hnone) as (H1 & H2 & _).
    split; assumption.
Qed.

Lemma C3_hysteresis_witness :
  let w := initial_world env_down [logger] in
  let w2 := state_of (monitoringLoop poll_healthy) (state_of (monitoringLoop poll_down) w) in
  (unremarkable poll_healthy ->
     incidents w2 = incidents w
     /\ count_type incident_created (trace w2) = count_type incident_created (trace w)
     /\ consecutiveUnhealthy w2 = 0%nat)
  /\ (anomalous poll_healthy -> getActiveIncident w = None ->
        count_type incident_created (trace w2)
        = S (count_type incident_created (trace w))
        /\ exists k, incident_sat k (reported k) w2).
Proof.
  apply (C3_hysteresis (initial_world env_down [logger]) poll_down poll_healthy).
  - apply quiet_logger.
  - reflexivity.
  - reflexivity.
  - unfold anomalous. discriminate.
Defined.

(** The two runs of the claim on the unreachable service. *)
Lemma hysteresis_on_unreachable_service :
  let w := initial_world env_down [logger] in
  getIncidentCount (run_polls [poll_down; poll_healthy] w) = 0%nat
  /\ consecutiveUnhealthy (run_polls [poll_down; poll_healthy] w) = 0%nat
  /\ getIncidentCount (run_polls [poll_down; poll_down] w) = 1%nat
  /\ count_type incident_created (trace (run_polls [poll_down; poll_down] w)) = 1%nat.
Proof. repeat split; vm_compute; reflexivity. Qed.

(** ** Remarks *)

(** Why the subscribers are taken to return in the properties of the
    stages: a subscriber that throws on [agent:start] ends the run at
    its first stage; the incident stays [detected], and as it stays
    active no later poll opens another. *)
Lemma throwing_subscriber_strands_incident :
  let w := run_polls [poll_down; poll_down] (initial_world env_down [picky]) in
  let w' := run_polls [poll_down; poll_down; poll_down] w in
  map (fun kv => (fst kv, status (snd kv))) (incidents w) = [("INC-7000-K3X9QA", detected)]
  /\ pipelineRunning w = false
  /\ map (fun kv => (fst kv, status (snd kv))) (incidents w') = [("INC-7000-K3X9QA", detected)]
  /\ count_type incident_created (trace w') = 1%nat.
Proof. repeat split; vm_compute; reflexivity. Qed.

(** A negative limit, which the events route passes on unchanged,
    drops that many of the oldest events. *)
Lemma getHistory_negative_limit :
  List.length (getHistory (Some (-1)) bus3) = 2%nat
  /\ (exists first, eventHistory bus3 = first :: getHistory (Some (-1)) bus3).
Proof. split; [vm_compute; reflexivity | eexists; vm_compute; reflexivity]. Qed.

(** What the prober hands to the classifier: [checkDemoAppHealth]
    always returns, and flags the application healthy only on a
    status in 200..299; on such snapshots the rule table of the
    specification and the guarded one agree. *)
Lemma checkDemoAppHealth_probed (stringify : JValue -> string) (w : World) :
  exists app, result_of (checkDemoAppHealth stringify) w = Ok app /\ probed app.
Proof.
  change (wp (checkDemoAppHealth stringify)
             (fun r _ => exists app, r = Ok app /\ probed app) w).
  unfold checkDemoAppHealth. do 4 wp_step. wp_step.
  destruct (fetch_at _ _) as [response|msg].
  - do 3 wp_step. unfold json.
    destruct (resp_json response) as [body|msg].
    + wp_step. wp_step. destruct (resp_ok response) eqn:Eok.
      * destruct body; simpl body_status_healthy; repeat wp_step;
          try (eexists; split; [reflexivity|]; intros Hh; simpl in Hh;
               try discriminate; exists (resp_status response);
               split; [reflexivity|]; unfold resp_ok in Eok;
               apply andb_true_iff in Eok; lia).
        all: eexists; split; [reflexivity|]; intros Hh; discriminate.
      * repeat wp_step. eexists; split; [reflexivity|]. intros Hh; discriminate.
    + repeat wp_step. eexists; split; [reflexivity|]. intros Hh; discriminate.
  - repeat wp_step. eexists; split; [reflexivity|]. intros Hh; discriminate.
Qed.

Lemma spec_table_on_probed_snapshots (s : HealthSnapshot) :
  probed (demoApp s) ->
  first_match spec_rules s = first_match guarded_rules s.
Proof.
  intros Hp. unfold first_match, spec_rules, guarded_rules.
  destruct (healthy (demoApp s)) eqn:Eh; simpl; [|reflexivity].
  destruct (Hp Eh) as (z & Hz & Hr). rewrite Hz.
  assert (num_eqb (ZNum z) (ZNum 0) = false) as ->.
  { unfold num_eqb, ZNum. apply not_true_is_false. intros H.
    apply Qeq_bool_iff in H. unfold Qeq in H; simpl in H. lia. }
  assert (num_eqb (ZNum z) (ZNum 503) = false) as ->.
  { unfold num_eqb, ZNum. apply not_true_is_false. intros H.
    apply Qeq_bool_iff in H. unfold Qeq in H; simpl in H. lia. }
  reflexivity.
Qed.

(* ================================================================== *)
(** * Further properties of the code *)
(* ================================================================== *)

(** ** The event bus *)

Lemma push_history_last (e : BusEvent) (h : list BusEvent) :
  exists older, push_history e h = (older ++ [e])%list.
Proof.
  unfold push_history.
  destruct (Z.gtb_spec (Z.of_nat (List.length (h ++ [e]))) maxHistory) as [Hgt|Hle].
  - unfold slice_from. destruct (Z.ltb_spec (- maxHistory) 0) as [_|Hn];
      [|unfold maxHistory in Hn; lia].
    rewrite length_app in *. simpl List.length in *.
    rewrite skipn_app.
    replace (Z.to_nat (Z.max (Z.of_nat (List.length h + 1) + - maxHistory) 0)
             - List.length h)%nat with 0%nat by (unfold maxHistory in *; lia).
    simpl. eexists; reflexivity.
  - exists h; reflexivity.
Qed.

Lemma slice_from_last_one {A} (l : list A) (x : A) :
  slice_from (- 1) (l ++ [x]) = [x].
Proof.
  unfold slice_from. change (-1 <? 0) with true. cbv iota.
  rewrite length_app. simpl List.length.
  replace (Z.to_nat (Z.max (Z.of_nat (List.length l + 1) + -1) 0)) with (List.length l) by lia.
  rewrite skipn_app, skipn_all, Nat.sub_diag. reflexivity.
Qed.

(** X1: the event just published is the newest of the history, at
    capacity too, and [getHistory(1)] right after a publish returns
    exactly that event, whatever the subscribers do. *)
Theorem X1_published_event_is_newest (w : World) (ty : EventType) (d : JRecord) :
  (exists older, eventHistory (state_of (emit ty d) w) = (older ++ [event_at ty d w])%list)
  /\ getHistory (Some 1) (state_of (emit ty d) w) = [event_at ty d w].
Proof.
  rewrite emit_state. unfold getHistory, emit_world; simpl.
  destruct (push_history_last (event_at ty d w) (eventHistory w)) as [older ->].
  split; [exists older; reflexivity | apply slice_from_last_one].
Qed.

(** X2: [getHistoryByType] filters before it truncates: for a positive
    limit every event returned has the type asked for, the result is
    the newest end of the events of that type, in order, and its
    length is the smaller of the limit and the number of such events. *)
Theorem X2_history_by_type (w : World) (ty : EventType) (limit : option Z) :
  0 < or_default limit 50 ->
  let matching := filter (fun e => EventType_beq (type e) ty) (eventHistory w) in
  Forall (fun e => type e = ty) (getHistoryByType ty limit w)
  /\ (exists older, matching = (older ++ getHistoryByType ty limit w)%list)
  /\ Z.of_nat (List.length (getHistoryByType ty limit w))
     = Z.min (or_default limit 50) (Z.of_nat (List.length matching)).
Proof.
  intros Hl matching. unfold getHistoryByType. fold matching.
  destruct (slice_from_suffix (- or_default limit 50) matching) as [older Ho].
  split; [|split].
  - assert (Hall : Forall (fun e => type e = ty) matching).
    { apply Forall_forall. intros e He. apply filter_In in He. destruct He as [_ He].
      apply internal_EventType_dec_bl, He. }
    rewrite Ho in Hall. apply Forall_app in Hall. apply Hall.
  - exists older; exact Ho.
  - apply slice_from_last_length, Hl.
Qed.

Lemma X2_history_by_type_witness :
  let matching := filter (fun e => EventType_beq (type e) health_check) (eventHistory bus3) in
  Forall (fun e => type e = health_check) (getHistoryByType health_check None bus3)
  /\ (exists older, matching = (older ++ getHistoryByType health_check None bus3)%list)
  /\ Z.of_nat (List.length (getHistoryByType health_check None bus3))
     = Z.min (or_default None 50) (Z.of_nat (List.length matching)).
Proof. apply (X2_history_by_type bus3 health_check None). reflexivity. Defined.

(** X3: subscribing replays nothing and touches neither the history
    nor the store; when the earlier subscribers return, the next
    publish calls the new subscriber, after all of them. *)
Theorem X3_subscriber_gets_next_event
        (w : World) (h : Handler) (ty : EventType) (d : JRecord) :
  quiet w ->
  let w1 := state_of (onEvent h) w in
  let ev := event_at ty d w1 in
  trace w1 = trace w
  /\ eventHistory w1 = eventHistory w
  /\ incidents w1 = incidents w
  /\ exists called,
       trace (state_of (emit ty d) w1)
       = (trace w ++ AEmit ev :: called ++ [ADeliver (List.length (listeners w)) ev])%list
       /\ List.length called = List.length (listeners w).
Proof.
  intros Hq w1 ev. repeat split.
  rewrite emit_state. unfold emit_world. fold ev.
  assert (Hseq : forall n, map (fun j => ADeliver j ev) (seq 0 (S n))
                           = (map (fun j => ADeliver j ev) (seq 0 n) ++ [ADeliver n ev])%list)
    by (intros n; rewrite seq_S, map_app; reflexivity).
  exists (map (fun j => ADeliver j ev) (seq 0 (List.length (listeners w)))).
  rewrite length_map, length_seq. split; [|reflexivity].
  change (listeners w1) with (listeners w ++ [h])%list.
  destruct (h ev) as [msg|] eqn:Eh.
  - rewrite (call_listeners_throw (listeners w) [] h ev msg
               (fun g Hg => Hq g ev Hg) Eh 0%nat).
    rewrite Hseq. cbn [fst]. unfold record; cbn [trace].
    rewrite <- app_assoc. reflexivity.
  - rewrite (call_listeners_all (listeners w ++ [h]) ev).
    + rewrite length_app. cbn [List.length]. rewrite Nat.add_1_r, Hseq.
      cbn [fst]. unfold record; cbn [trace]. rewrite <- app_assoc. reflexivity.
    + intros g Hg. apply in_app_or in Hg. destruct Hg as [Hg|[<-|[]]];
        [apply Hq, Hg | exact Eh].
Qed.

Lemma X3_subscriber_gets_next_event_witness :
  let w := initial_world env_down [logger] in
  let w1 := state_of (onEvent thrower) w in
  let ev := event_at chaos_injected [] w1 in
  trace w1 = trace w
  /\ eventHistory w1 = eventHistory w
  /\ incidents w1 = incidents w
  /\ exists called,
       trace (state_of (emit chaos_injected []) w1)
       = (trace w ++ AEmit ev :: called ++ [ADeliver (List.length (listeners w)) ev])%list
       /\ List.length called = List.length (listeners w).
Proof.
  apply (X3_subscriber_gets_next_event (initial_world env_down [logger]) thrower
           chaos_injected []).
  apply quiet_logger.
Defined.

(** ** The incident store, continued *)

Lemma store_set_length (k : string) (v : Incident) (s : Store) :
  List.length (store_set k v s)
  = match store_get k s with
    | Some _ => List.length s
    | None => S (List.length s)
    end.
Proof.
  induction s as [|[k' v'] s IH]; simpl; [reflexivity|].
  destruct (String.eqb k k'); simpl; [reflexivity|].
  rewrite IH. destruct (store_get k s); reflexivity.
Qed.

Lemma store_set_set (k : string) (v v' : Incident) (s : Store) :
  store_set k v (store_set k v' s) = store_set k v s.
Proof.
  induction s as [|[k' u] s IH]; simpl.
  - rewrite String.eqb_refl. reflexivity.
  - destruct (String.eqb k k') eqn:E; simpl.
    + rewrite String.eqb_refl. reflexivity.
    + rewrite E, IH. reflexivity.
Qed.

Lemma insert_desc_perm (x : Incident) (l : list Incident) :
  Permutation (insert_desc x l) (x :: l).
Proof.
  induction l as [|y l IH]; simpl; [reflexivity|].
  destruct (timestamp x <? timestamp y); [|reflexivity].
  rewrite IH. apply perm_swap.
Qed.

Lemma sort_desc_perm (l : list Incident) : Permutation (sort_desc l) l.
Proof.
  induction l as [|x l IH]; simpl; [reflexivity|].
  rewrite insert_desc_perm, IH. reflexivity.
Qed.

Lemma insert_desc_front (x : Incident) (l : list Incident) :
  Forall (fun b => timestamp b <= timestamp x) l -> insert_desc x l = x :: l.
Proof.
  destruct l as [|y l]; simpl; [reflexivity|]. intros H.
  inversion H as [|? ? Hy _]; subst.
  destruct (Z.ltb_spec (timestamp x) (timestamp y)); [lia | reflexivity].
Qed.

Lemma insert_desc_sorted (x : Incident) (l : list Incident) :
  newest_first l -> newest_first (insert_desc x l).
Proof.
  unfold newest_first. induction 1 as [|y l Hs IH Hall]; simpl.
  - repeat constructor.
  - destruct (Z.ltb_spec (timestamp x) (timestamp y)) as [Hlt|Hge].
    + constructor; [exact IH|].
      rewrite (insert_desc_perm x l). constructor; [lia | exact Hall].
    + constructor; [constructor; assumption|].
      constructor; [lia|].
      eapply Forall_impl; [|exact Hall]. simpl. intros b Hb. lia.
Qed.

Lemma sort_desc_sorted (l : list Incident) : newest_first (sort_desc l).
Proof.
  induction l as [|x l IH]; simpl; [constructor | apply insert_desc_sorted, IH].
Qed.

Lemma filter_insert_desc (p : Incident -> bool) (x : Incident) (l : list Incident) :
  newest_first l ->
  filter p (insert_desc x l)
  = if p x then insert_desc x (filter p l) else filter p l.
Proof.
  unfold newest_first. induction 1 as [|y l Hs IH Hall].
  - simpl. destruct (p x); reflexivity.
  - cbn [insert_desc].
    destruct (Z.ltb_spec (timestamp x) (timestamp y)) as [Hlt|Hge].
    + cbn [filter]. rewrite IH.
      destruct (p y), (p x); try reflexivity.
      cbn [insert_desc].
      destruct (Z.ltb_spec (timestamp x) (timestamp y)); [reflexivity | lia].
    + change (filter p (x :: y :: l))
        with (if p x then x :: filter p (y :: l) else filter p (y :: l)).
      destruct (p x); [|reflexivity].
      symmetry. apply insert_desc_front.
      apply Forall_forall. intros b Hb. apply filter_In in Hb. destruct Hb as [Hb _].
      destruct Hb as [<-|Hb]; [lia|].
      rewrite Forall_forall in Hall. specialize (Hall b Hb). simpl in Hall. lia.
Qed.

Lemma filter_sort_desc (p : Incident -> bool) (l : list Incident) :
  filter p (sort_desc l) = sort_desc (filter p l).
Proof.
  induction l as [|x l IH]; [reflexivity|].
  cbn [sort_desc fold_right filter].
  change (fold_right insert_desc [] l) with (sort_desc l).
  rewrite filter_insert_desc by apply sort_desc_sorted.
  rewrite IH. destruct (p x); reflexivity.
Qed.

(** X4: the five mutators of the incident store do nothing at all for
    an identifier that is not in the store: they return without a
    write, without reading the clock and without publishing. *)
Theorem X4_unknown_incident_is_left_alone
        (w : World) (k : string) (st : IncidentStatus) (a : RecoveryAttempt)
        (c : string) (r : IncidentReport) (ev : string) (d : option JRecord) :
  store_get k (incidents w) = None ->
  updateStatus k st w = (Ok tt, w)
  /\ addRecoveryAttempt k a w = (Ok tt, w)
  /\ setRootCause k c w = (Ok tt, w)
  /\ setReport k r w = (Ok tt, w)
  /\ addTimeline k ev d w = (Ok tt, w).
Proof.
  intros H.
  unfold updateStatus, addRecoveryAttempt, setRootCause, setReport, addTimeline.
  unfold bind, getIncident, gets. rewrite H.
  repeat split; reflexivity.
Qed.

Lemma X4_unknown_incident_is_left_alone_witness :
  updateStatus "INC-9" resolved world_one_resolved = (Ok tt, world_one_resolved)
  /\ addRecoveryAttempt "INC-9" failed_attempt world_one_resolved
     = (Ok tt, world_one_resolved)
  /\ setRootCause "INC-9" "cause" world_one_resolved = (Ok tt, world_one_resolved)
  /\ setReport "INC-9"
       {| rep_id := "RPT-9"; rep_incidentId := "INC-9"; rep_timeline := JNull;
          rep_rootCauseAnalysis := "none"; rep_actionsSummary := "none";
          rep_preventionRecommendations := []; rep_generatedAt := 0 |}
       world_one_resolved = (Ok tt, world_one_resolved)
  /\ addTimeline "INC-9" "note" None world_one_resolved = (Ok tt, world_one_resolved).
Proof.
  apply (X4_unknown_incident_is_left_alone world_one_resolved "INC-9").
  reflexivity.
Defined.

(** X6: when [getActiveIncident] returns an incident, it is a record of
    the store, it is neither resolved nor failed, and no other record
    that is neither resolved nor failed is newer. *)
Theorem X6_active_incident_is_newest_open (w : World) (i : Incident) :
  getActiveIncident w = Some i ->
  In i (map snd (incidents w))
  /\ terminal (status i) = false
  /\ forall j, In j (map snd (incidents w)) -> terminal (status j) = false ->
               timestamp j <= timestamp i.
Proof.
  unfold getActiveIncident. intros H.
  pose proof (sort_desc_perm (active_incidents (incidents w))) as Hp.
  pose proof (sort_desc_sorted (active_incidents (incidents w))) as Hs.
  destruct (sort_desc (active_incidents (incidents w))) as [|x rest]; [discriminate|].
  injection H as ->.
  assert (Hact : forall j, In j (i :: rest) <->
                           In j (map snd (incidents w)) /\ terminal (status j) = false).
  { intros j. split.
    - intros Hj. apply (Permutation_in _ Hp) in Hj.
      apply filter_In in Hj. destruct Hj as [Hj Ht].
      split; [exact Hj | apply negb_true_iff, Ht].
    - intros [Hj Ht]. apply (Permutation_in _ (Permutation_sym Hp)).
      apply filter_In. split; [exact Hj | apply negb_true_iff, Ht]. }
  destruct (proj1 (Hact i) (or_introl eq_refl)) as [Hin Ht].
  split; [exact Hin|]. split; [exact Ht|].
  intros j Hj Htj. destruct (proj2 (Hact j) (conj Hj Htj)) as [<-|Hr]; [lia|].
  inversion Hs as [|? ? _ Hall]; subst. rewrite Forall_forall in Hall.
  exact (Hall j Hr).
Qed.

Lemma X6_active_incident_is_newest_open_witness :
  In struggling_incident (map snd (incidents world_three_attempts))
  /\ terminal (status struggling_incident) = false
  /\ forall j, In j (map snd (incidents world_three_attempts)) ->
               terminal (status j) = false ->
               timestamp j <= timestamp struggling_incident.
Proof.
  apply (X6_active_incident_is_newest_open world_three_attempts struggling_incident).
  reflexivity.
Defined.

(** X7: [getAllIncidents] lists every record of the store exactly once,
    newest first, as many as [getIncidentCount] counts; and the
    incident [getActiveIncident] returns is the first one of that list
    that is neither resolved nor failed. *)
Theorem X7_all_incidents_newest_first (w : World) :
  Permutation (getAllIncidents w) (map snd (incidents w))
  /\ newest_first (getAllIncidents w)
  /\ List.length (getAllIncidents w) = getIncidentCount w
  /\ getActiveIncident w = hd_error (filter is_open (getAllIncidents w)).
Proof.
  unfold getAllIncidents, getActiveIncident, getIncidentCount, active_incidents.
  split; [apply sort_desc_perm|]. split; [apply sort_desc_sorted|]. split.
  - rewrite (Permutation_length (sort_desc_perm _)). apply length_map.
  - rewrite filter_sort_desc. reflexivity.
Qed.

Lemma createIncident_store (w : World) (ft : FailureType) (sev : Severity)
      (svc : list string) :
  quiet w ->
  result_of (createIncident ft sev svc) w = Ok (new_incident w ft sev svc None)
  /\ incidents (state_of (createIncident ft sev svc) w)
     = store_set (next_id w)
         (new_incident w ft sev svc (Some [detected_entry w ft sev svc]))
         (incidents w).
Proof.
  intros Hq.
  change (wp (createIncident ft sev svc)
            (fun r w' =>
               r = Ok (new_incident w ft sev svc None)
               /\ incidents w'
                  = store_set (next_id w)
                      (new_incident w ft sev svc (Some [detected_entry w ft sev svc]))
                      (incidents w)) w).
  unfold createIncident, generateId.
  do 3 wp_step. do 2 wp_step. do 5 wp_step.
  set (newId := ("INC-" ++ _)%string).
  assert (Hk : newId = next_id w) by reflexivity. clearbody newId. subst newId.
  change (Build_Incident (next_id w) _ detected ft sev svc None [] None None None)
    with (new_incident w ft sev svc None).
  set (inc := new_incident w ft sev svc None).
  set (w2 := put_store _ _).
  assert (H2 : incidents w2 = store_set (next_id w) inc (incidents w)) by reflexivity.
  assert (Hn2 : now_ix w2 = S (S (now_ix w))) by reflexivity.
  assert (He2 : env w2 = env w) by reflexivity.
  assert (Hq2 : quiet w2) by exact Hq.
  clearbody w2.
  wp_step. apply wp_emit_quiet; [exact Hq2|].
  set (w3 := emit_world _ _ _).
  assert (H3 : incidents w3 = incidents w2) by reflexivity.
  assert (Hn3 : now_ix w3 = S (now_ix w2)) by reflexivity.
  assert (He3 : env w3 = env w2) by reflexivity.
  clearbody w3.
  unfold addTimeline. wp_step. wp_step. wp_step.
  assert (G3 : store_get (next_id w) (incidents w3) = Some inc)
    by (rewrite H3, H2; apply store_get_set_same).
  rewrite G3. change (timeline inc) with (@None (list TimelineEvent)). cbv iota.
  wp_step. eapply wp_mutate; [exact G3|]. cbv beta iota.
  wp_step. wp_step. eapply wp_mutate; [apply store_get_set_same|]. cbv beta iota.
  wp_step. split; [reflexivity|].
  cbn [incidents put_store record set_incidents set_now_ix].
  rewrite !store_set_set, H3, H2, store_set_set.
  change (env (put_store ?s w3)) with (env w3).
  change (now_ix (put_store ?s w3)) with (now_ix w3).
  rewrite He3, He2, Hn3, Hn2. reflexivity.
Qed.

(** X5: with subscribers that do not throw, [createIncident] leaves
    under the identifier it generated a record in status [detected],
    stamped with the clock, with no attempt, no root cause, no report,
    no resolution time and a timeline of exactly one entry, 'Incident
    detected'; every other record of the store is as before; the store
    grows by one record unless the identifier was already in use, in
    which case the former record is replaced. *)
Theorem X5_created_incident_is_stored
        (w : World) (ft : FailureType) (sev : Severity) (svc : list string) :
  quiet w ->
  let k := next_id w in
  let w' := state_of (createIncident ft sev svc) w in
  store_get k (incidents w')
  = Some (new_incident w ft sev svc (Some [detected_entry w ft sev svc]))
  /\ (forall j, j <> k -> store_get j (incidents w') = store_get j (incidents w))
  /\ getIncidentCount w'
     = match store_get k (incidents w) with
       | Some _ => getIncidentCount w
       | None => S (getIncidentCount w)
       end
  /\ exists i, result_of (createIncident ft sev svc) w = Ok i /\ id i = k.
Proof.
  intros Hq k w'. destruct (createIncident_store w ft sev svc Hq) as [Hr Hs].
  fold w' in Hs. fold k in Hs. unfold getIncidentCount. rewrite Hs.
  split; [apply store_get_set_same|].
  split; [intros j Hj; apply store_get_set_other, Hj|].
  split; [apply store_set_length|].
  exists (new_incident w ft sev svc None). split; [exact Hr | reflexivity].
Qed.

Lemma X5_created_incident_is_stored_witness :
  let w := world_one_resolved in
  let k := next_id w in
  let w' := state_of (createIncident service_down critical ["demo-app"]) w in
  store_get k (incidents w')
  = Some (new_incident w service_down critical ["demo-app"]
            (Some [detected_entry w service_down critical ["demo-app"]]))
  /\ (forall j, j <> k -> store_get j (incidents w') = store_get j (incidents w))
  /\ getIncidentCount w'
     = match store_get k (incidents w) with
       | Some _ => getIncidentCount w
       | None => S (getIncidentCount w)
       end
  /\ exists i, result_of (createIncident service_down critical ["demo-app"]) w = Ok i
               /\ id i = k.
Proof.
  apply (X5_created_incident_is_stored world_one_resolved service_down critical
           ["demo-app"]).
  apply quiet_logger.
Defined.

(** X8: whatever the length of the history before, after a publish it
    holds the new event and as many of the newest former events as fit
    in 500: its length is the smaller of 500 and the former length plus
    one, and what was dropped was at the old end. *)
Theorem X8_history_is_capped (w : World) (ty : EventType) (d : JRecord) :
  let h' := eventHistory (state_of (emit ty d) w) in
  Z.of_nat (List.length h') = Z.min 500 (Z.of_nat (List.length (eventHistory w)) + 1)
  /\ exists evicted, (eventHistory w ++ [event_at ty d w] = evicted ++ h')%list.
Proof.
  cbv zeta. split; [|apply emit_history_recent].
  rewrite emit_state. unfold emit_world. cbn [eventHistory record set_eventHistory].
  unfold push_history.
  rewrite length_app. cbn [List.length].
  destruct (Z.gtb_spec (Z.of_nat (List.length (eventHistory w) + 1)) maxHistory)
    as [Hgt|Hle]; unfold maxHistory in *.
  - rewrite slice_from_last_length by lia. rewrite length_app. cbn [List.length]. lia.
  - rewrite length_app. cbn [List.length]. lia.
Qed.

(** ** What a stage hands to the next *)

(** Steps over a call of which only the result matters. *)
Ltac wp_any :=
  apply wp_bind; apply wp_state;
  let a := fresh "a" in let msg := fresh "msg" in
  intros [a|msg]; cbv beta iota; [|try (intros; discriminate)];
  try match goal with |- wp _ _ ?s => generalize s; intro end.

(** A stage that returns either succeeded, with the data of its body,
    or failed, with the message of the exception as its only datum. *)
Lemma executeAgent_result (name k : string) (fn : M JRecord) (w : World)
      (r : AgentResult) :
  result_of (executeAgent name k fn) w = Ok r ->
  agent r = name
  /\ ((success r = true /\ exists w1, result_of fn w1 = Ok (res_data r))
      \/ (success r = false /\ exists msg, res_data r = [("error", JStr msg)])).
Proof.
  revert r.
  change (wp (executeAgent name k fn)
            (fun res _ => forall r, res = Ok r ->
               agent r = name
               /\ ((success r = true /\ exists w1, result_of fn w1 = Ok (res_data r))
                   \/ (success r = false
                       /\ exists msg, res_data r = [("error", JStr msg)]))) w).
  unfold executeAgent. do 2 wp_step. wp_any. wp_any.
  set (start := now_at (env w) (now_ix w)). clearbody start.
  assert (Hh : forall msg w', wp
     (stop <- Date_now ;;
      emit agent_error
           [("agent", JStr name); ("incidentId", JStr k);
            ("error", JStr msg); ("duration", JNum (ZNum (stop - start)))] ;;
      addTimeline k (name ++ " failed: " ++ msg) None ;;
      ret {| agent := name; success := false;
             res_data := [("error", JStr msg)]; duration := stop - start |})
     (fun res _ => forall r, res = Ok r ->
               agent r = name
               /\ ((success r = true /\ exists w1, result_of fn w1 = Ok (res_data r))
                   \/ (success r = false
                       /\ exists msg, res_data r = [("error", JStr msg)]))) w').
  { intros msg w'. do 2 wp_step. wp_any. wp_any. wp_step.
    intros r [= <-]. split; [reflexivity|]. right. split; [reflexivity|].
    exists msg. reflexivity. }
  wp_step. apply wp_bind. unfold wp at 1.
  destruct (result_of fn w1) as [d|msg] eqn:E; [|apply Hh].
  generalize (state_of fn w1). intros w2.
  do 2 wp_step.
  apply wp_bind; apply wp_state; intros [b|msg]; cbv beta iota; [|apply Hh].
  generalize (state_of (emit agent_complete
      [("agent", JStr name); ("incidentId", JStr k); ("success", JBool true);
       ("duration", JNum (ZNum (now_at (env w2) (now_ix w2) - start)));
       ("data", JObj d)]) (set_now_ix (S (now_ix w2)) w2)). intros w3.
  apply wp_bind; apply wp_state; intros [[]|msg]; cbv beta iota; [|apply Hh].
  wp_step. intros r [= <-]. split; [reflexivity|]. left. split; [reflexivity|].
  exists w1. exact E.
Qed.

Lemma analyzer_body_strategy (k : string) (a : AnomalyReport) (s : HealthSnapshot)
      (w : World) (d : JRecord) :
  result_of (analyzer_body k a s) w = Ok d ->
  obj_get "fixStrategy" d = JStr (snd (fst (analysis (ar_failureType a)))).
Proof.
  revert d.
  change (wp (analyzer_body k a s)
            (fun res _ => forall d, res = Ok d ->
               obj_get "fixStrategy" d = JStr (snd (fst (analysis (ar_failureType a))))) w).
  unfold analyzer_body. wp_any. wp_any.
  destruct (analysis (ar_failureType a)) as [[[cause category] strategy] confidence].
  wp_any. wp_step. intros d [= <-]. reflexivity.
Qed.

Lemma analysis_strategy_known (ft : FailureType) :
  known_strategy (snd (fst (analysis ft))) = true.
Proof. destruct ft; reflexivity. Qed.

(** X9: whatever the anomaly, the state and the subscribers, the fix
    strategy the pipeline reads off a result returned by the Analyzer
    stage is one the Self-Healing stage has a handler for: the
    'Unknown strategy' branch is never taken in a pipeline run, also when
    the Analyzer stage failed. *)
Theorem X9_fix_strategy_is_always_handled
        (w : World) (k : string) (a : AnomalyReport) (s : HealthSnapshot)
        (r : AgentResult) :
  result_of (runAnalyzerAgent k a s) w = Ok r ->
  known_strategy (fixStrategy_of (res_data r)) = true.
Proof.
  intros H. apply executeAgent_result in H.
  destruct H as [_ [[_ [w1 Hb]]|[_ [msg Hd]]]].
  - apply analyzer_body_strategy in Hb. unfold fixStrategy_of. rewrite Hb.
    pose proof (analysis_strategy_known (ar_failureType a)) as Hk.
    destruct (String.eqb_spec (snd (fst (analysis (ar_failureType a)))) "");
      [reflexivity | exact Hk].
  - rewrite Hd. reflexivity.
Qed.

Lemma X9_fix_strategy_is_always_handled_witness :
  exists r,
    result_of (runAnalyzerAgent "INC-2" memory_anomaly unreachable)
              world_three_attempts = Ok r
    /\ known_strategy (fixStrategy_of (res_data r)) = true.
Proof.
  eexists. split; [vm_compute; reflexivity|].
  apply (X9_fix_strategy_is_always_handled world_three_attempts "INC-2"
           memory_anomaly unreachable).
  vm_compute. reflexivity.
Defined.

(** X10: a report of the classifier always has [detected] set, names
    'demo-app' as the only affected service and carries one of five
    pairs of failure type and severity; for each of them the Analyzer
    has a specific root cause: neither the category 'Unknown' nor the
    confidence 'low' can follow from a classified snapshot. *)
Theorem X10_classifier_feeds_analyzer (s : HealthSnapshot) (a : AnomalyReport) :
  detectAnomalies s = Some a ->
  ar_detected a = true
  /\ ar_affectedServices a = ["demo-app"]
  /\ In (ar_failureType a, ar_severity a)
        [(service_down, critical); (service_down, high); (latency_spike, high);
         (dependency_failure, high); (memory_leak, medium)]
  /\ snd (fst (fst (analysis (ar_failureType a)))) <> "Unknown"
  /\ snd (analysis (ar_failureType a)) <> "low".
Proof.
  unfold detectAnomalies.
  repeat match goal with
         | |- (if ?c then _ else _) = _ -> _ => destruct c
         end; intros [= <-]; cbn;
    (split; [reflexivity|]); (split; [reflexivity|]);
    (split; [tauto|]); split; discriminate.
Qed.

Lemma X10_classifier_feeds_analyzer_witness :
  exists a, detectAnomalies unreachable = Some a
    /\ ar_detected a = true
    /\ ar_affectedServices a = ["demo-app"]
    /\ In (ar_failureType a, ar_severity a)
          [(service_down, critical); (service_down, high); (latency_spike, high);
           (dependency_failure, high); (memory_leak, medium)]
    /\ snd (fst (fst (analysis (ar_failureType a)))) <> "Unknown"
    /\ snd (analysis (ar_failureType a)) <> "low".
Proof.
  eexists. split; [reflexivity|].
  eapply (X10_classifier_feeds_analyzer unreachable). reflexivity.
Defined.

(** ** The recovery stages *)

Lemma set_fetch_ix_same (w : World) : set_fetch_ix (fetch_ix w) w = w.
Proof. destruct w; reflexivity. Qed.

Lemma record_set_fetch_ix (a b : list Act) (m k : nat) (w : World) :
  record a (set_fetch_ix m (record b (set_fetch_ix k w)))
  = record (b ++ a) (set_fetch_ix m w).
Proof. destruct w; unfold record, set_fetch_ix; simpl. rewrite app_assoc. reflexivity. Qed.

Lemma failed_probes_le (e : Env) (n ix : nat) : (failed_probes e ix n <= n)%nat.
Proof.
  revert ix; induction n as [|n IH]; intros ix; simpl; [lia|].
  destruct (probe_ok e ix); [lia|]. specialize (IH (S ix)). lia.
Qed.

Lemma failed_probes_spec (e : Env) (n ix : nat) :
  (forall j, (j < failed_probes e ix n)%nat -> probe_ok e (ix + j) = false)
  /\ ((failed_probes e ix n < n)%nat -> probe_ok e (ix + failed_probes e ix n) = true).
Proof.
  revert ix; induction n as [|n IH]; intros ix; simpl; [split; intros; lia|].
  destruct (probe_ok e ix) eqn:E.
  - split; [intros; lia|]. intros _. rewrite Nat.add_0_r. exact E.
  - destruct (IH (S ix)) as [H1 H2]. split.
    + intros [|j] Hj; [rewrite Nat.add_0_r; exact E|].
      rewrite Nat.add_succ_r. apply (H1 j). lia.
    + intros Hlt. rewrite Nat.add_succ_r. apply H2. lia.
Qed.

Lemma dr_health_loop_run (n : nat) (w : World) :
  let f := failed_probes (env w) (fetch_ix w) n in
  let up := (f <? n)%nat in
  dr_health_loop n w
  = (Ok up, record (probe_acts f up)
              (set_fetch_ix (fetch_ix w + f + (if up then 1 else 0)) w)).
Proof.
  revert w. induction n as [|n IH]; intros w; cbv zeta.
  - simpl. unfold ret, probe_acts. simpl.
    rewrite !Nat.add_0_r, set_fetch_ix_same, record_nil. reflexivity.
  - cbn [dr_health_loop failed_probes]. unfold probe_ok.
    unfold bind at 1. unfold try_catch, bind at 1. unfold fetch.
    destruct (fetch_at (env w) (fetch_ix w)) as [r|msg] eqn:E.
    + unfold ret at 1. destruct (resp_ok r) eqn:Er.
      * unfold ret. f_equal. unfold probe_acts. simpl.
        rewrite Nat.add_0_r, Nat.add_1_r. reflexivity.
      * unfold bind, sleep, modify.
        set (w1 := record [ASleep 1000] _).
        specialize (IH w1). cbv zeta in IH.
        change (env w1) with (env w) in IH.
        change (fetch_ix w1) with (S (fetch_ix w)) in IH.
        rewrite IH.
        change (S (failed_probes (env w) (S (fetch_ix w)) n) <? S n)%nat
          with (failed_probes (env w) (S (fetch_ix w)) n <? n)%nat.
        f_equal. unfold w1.
        rewrite <- record_app, record_set_fetch_ix.
        unfold probe_acts. simpl. f_equal. f_equal. lia.
    + unfold ret, bind, sleep, modify.
      set (w1 := record [ASleep 1000] _).
      specialize (IH w1). cbv zeta in IH.
      change (env w1) with (env w) in IH.
      change (fetch_ix w1) with (S (fetch_ix w)) in IH.
      rewrite IH.
      change (S (failed_probes (env w) (S (fetch_ix w)) n) <? S n)%nat
        with (failed_probes (env w) (S (fetch_ix w)) n <? n)%nat.
      f_equal. unfold w1.
      rewrite <- record_app, record_set_fetch_ix.
      unfold probe_acts. simpl. f_equal. f_equal. lia.
Qed.

(** X11: the health validation of the Disaster Recovery stage never
    throws; it sends one request per round until one is answered with
    a 2xx status, [n] at most, waits one second after every round that
    failed, the last one included, changes nothing else, and reports
    success exactly when one of its requests was answered so. *)
Theorem X11_health_validation_is_bounded (n : nat) (w : World) :
  let f := failed_probes (env w) (fetch_ix w) n in
  let up := (f <? n)%nat in
  dr_health_loop n w
  = (Ok up, record (probe_acts f up)
              (set_fetch_ix (fetch_ix w + f + (if up then 1 else 0)) w))
  /\ (f + (if up then 1 else 0) <= n)%nat
  /\ (forall j, (j < f)%nat -> probe_ok (env w) (fetch_ix w + j) = false)
  /\ (up = true -> probe_ok (env w) (fetch_ix w + f) = true).
Proof.
  cbv zeta. split; [apply dr_health_loop_run|].
  pose proof (failed_probes_le (env w) n (fetch_ix w)) as Hle.
  destruct (failed_probes_spec (env w) n (fetch_ix w)) as [H1 H2].
  split; [|split; [exact H1|]].
  - destruct (Nat.ltb_spec (failed_probes (env w) (fetch_ix w) n) n); lia.
  - intros Hup. apply H2. apply Nat.ltb_lt, Hup.
Qed.

Lemma io_at_emit (e : Env) (ix : nat) (ty : EventType) (d : JRecord)
      (Q : Result bool -> World -> Prop) (w : World) :
  io_at e ix w -> (forall b w', io_at e ix w' -> Q (Ok b) w') -> wp (emit ty d) Q w.
Proof.
  intros (Hq & He & Hf) HQ. apply wp_emit_quiet; [exact Hq|]. apply HQ.
  repeat split; assumption.
Qed.

Lemma io_at_sleep (e : Env) (ix : nat) (ms : Z)
      (Q : Result unit -> World -> Prop) (w : World) :
  io_at e ix w -> (forall w', io_at e ix w' -> Q (Ok tt) w') -> wp (sleep ms) Q w.
Proof.
  intros (Hq & He & Hf) HQ. apply wp_sleep, HQ. repeat split; assumption.
Qed.

Lemma io_at_Date_now (e : Env) (ix : nat)
      (Q : Result Z -> World -> Prop) (w : World) :
  io_at e ix w -> (forall t w', io_at e ix w' -> Q (Ok t) w') -> wp Date_now Q w.
Proof.
  intros (Hq & He & Hf) HQ. apply wp_Date_now, HQ. repeat split; assumption.
Qed.

Lemma io_at_fetch (e : Env) (ix : nat) (url method : string)
      (Q : Result Response -> World -> Prop) (w : World) :
  io_at e ix w -> (forall w', io_at e (S ix) w' -> Q (fetch_at e ix) w') ->
  wp (fetch url method) Q w.
Proof.
  intros (Hq & He & Hf) HQ. apply wp_fetch. rewrite He, Hf. apply HQ.
  repeat split; assumption.
Qed.

Lemma healing_attempt_outcome (k strategy : string) (e : Env) (ix : nat)
      (Q : Result (bool * string * option string) -> World -> Prop) (w : World) :
  io_at e ix w ->
  (forall action err n w',
      (n <= 2)%nat -> io_at e (ix + n) w' ->
      (err = None <-> healing_outcome e ix strategy = true) ->
      Q (Ok (healing_outcome e ix strategy, action, err)) w') ->
  wp (healing_attempt k strategy) Q w.
Proof.
  intros H HQ.
  assert (HQ' : forall b action err n w',
             healing_outcome e ix strategy = b ->
             (n <= 2)%nat -> io_at e (ix + n) w' ->
             (err = None <-> b = true) -> Q (Ok (b, action, err)) w')
    by (intros b action err n w' <-; apply HQ).
  clear HQ. unfold healing_outcome, probe_ok, healthy_answer in HQ'.
  unfold healing_attempt.
  destruct (known_strategy strategy); cbn [andb] in HQ'.
  2:{ wp_step. apply (HQ' _ _ _ 0%nat);
        [reflexivity | lia | rewrite Nat.add_0_r; exact H | split; discriminate]. }
  wp_step. wp_step. eapply io_at_emit; [exact H|]. intros b1 w1 H1.
  wp_step. eapply io_at_sleep; [exact H1|]. intros w2 H2.
  wp_step. eapply io_at_fetch; [exact H2|]. intros w3 H3.
  rewrite <- Nat.add_1_r in H3.
  destruct (fetch_at e ix) as [r|msg]; cbv beta iota.
  2:{ wp_step. apply (HQ' _ _ _ 1%nat);
        [reflexivity | lia | exact H3 | split; discriminate]. }
  destruct (resp_ok r); cbn [andb] in HQ'.
  2:{ wp_step. apply (HQ' _ _ _ 1%nat);
        [reflexivity | lia | exact H3 | split; discriminate]. }
  wp_step. eapply io_at_emit; [exact H3|]. intros b2 w4 H4.
  wp_step. eapply io_at_sleep; [exact H4|]. intros w5 H5.
  wp_step. eapply io_at_fetch; [exact H5|]. intros w6 H6.
  replace (S (ix + 1)) with (ix + 2)%nat in H6 by lia.
  rewrite Nat.add_1_r.
  destruct (fetch_at e (S ix)) as [r2|msg]; cbv beta iota.
  2:{ wp_step. apply (HQ' _ _ _ 2%nat);
        [reflexivity | lia | exact H6 | split; discriminate]. }
  wp_step. unfold json. destruct (resp_json r2) as [body|msg].
  2:{ do 2 wp_step. apply (HQ' _ _ _ 2%nat);
        [apply andb_false_r | lia | exact H6 | split; discriminate]. }
  wp_step. wp_step. destruct (resp_ok r2); cbn [andb] in HQ'.
  2:{ do 2 wp_step. apply (HQ' _ _ _ 2%nat);
        [reflexivity | lia | exact H6 | split; discriminate]. }
  destruct body; cbn [body_status_healthy]; repeat wp_step;
    try (apply (HQ' _ _ _ 2%nat);
         [reflexivity | lia | exact H6 | split; discriminate]).
  match goal with |- context [if ?c then _ else _] => destruct c eqn:Es end;
    wp_step; (apply (HQ' _ _ _ 2%nat);
              [reflexivity | lia | exact H6 | split; intros; try discriminate; reflexivity]).
Qed.

Lemma io_ok_store_pred (P : Store -> Prop) : io_ok (fun w => P (incidents w)).
Proof. split; intros; assumption. Qed.

(** X12: with subscribers that do not throw, the attempt of the
    Self-Healing stage succeeds exactly when the strategy is one of the
    four it handles, the reset request is answered with a 2xx status and
    the health request that follows is answered with a 2xx status and a
    body whose [status] is 'healthy'; it carries an error message
    exactly when it failed, sends at most two requests and leaves the
    incident store alone. *)
Theorem X12_healing_attempt_outcome (w : World) (k strategy : string) :
  quiet w ->
  let w' := state_of (healing_attempt k strategy) w in
  let b := healing_outcome (env w) (fetch_ix w) strategy in
  (exists action err,
      result_of (healing_attempt k strategy) w = Ok (b, action, err)
      /\ (err = None <-> b = true))
  /\ (fetch_ix w <= fetch_ix w' <= fetch_ix w + 2)%nat
  /\ incidents w' = incidents w.
Proof.
  intros Hq w' b.
  assert (Hs : incidents w' = incidents w).
  { apply (pres_healing_attempt (fun _ => False) (fun w1 => incidents w1 = incidents w)
             (stable_store_pred (fun s => s = incidents w))
             (io_ok_store_pred (fun s => s = incidents w)) k strategy w eq_refl). }
  split; [|split; [|exact Hs]].
  - change (wp (healing_attempt k strategy)
              (fun r _ => exists action err, r = Ok (b, action, err)
                                             /\ (err = None <-> b = true)) w).
    apply (healing_attempt_outcome k strategy (env w) (fetch_ix w));
      [repeat split; exact Hq|].
    intros action err n w1 _ _ Herr. exists action, err. split; [reflexivity | exact Herr].
  - change (wp (healing_attempt k strategy)
              (fun _ w1 => (fetch_ix w <= fetch_ix w1 <= fetch_ix w + 2)%nat) w).
    apply (healing_attempt_outcome k strategy (env w) (fetch_ix w));
      [repeat split; exact Hq|].
    intros action err n w1 Hn (_ & _ & Hf) _. lia.
Qed.

Lemma X12_healing_attempt_outcome_witness :
  let w := initial_world env_up [logger] in
  let w' := state_of (healing_attempt "INC-1" "restart_service") w in
  let b := healing_outcome (env w) (fetch_ix w) "restart_service" in
  (exists action err,
      result_of (healing_attempt "INC-1" "restart_service") w = Ok (b, action, err)
      /\ (err = None <-> b = true))
  /\ (fetch_ix w <= fetch_ix w' <= fetch_ix w + 2)%nat
  /\ incidents w' = incidents w.
Proof.
  apply (X12_healing_attempt_outcome (initial_world env_up [logger]) "INC-1"
           "restart_service").
  apply quiet_logger.
Defined.

(** X13: the attempt of the Self-Healing stage never throws, whatever
    the subscribers and the requests do: what goes wrong inside it
    becomes the error of a failed attempt.  For a strategy it has no
    handler for, it fails at once, without a request and without an
    event. *)
Theorem X13_healing_attempt_never_throws (w : World) (k strategy : string) :
  (exists r, result_of (healing_attempt k strategy) w = Ok r)
  /\ (known_strategy strategy = false ->
      healing_attempt k strategy w
      = (Ok (false, "Unknown strategy: " ++ strategy,
             Some "No handler for this fix strategy"), w)).
Proof.
  unfold healing_attempt. split.
  - destruct (known_strategy strategy); [|eexists; reflexivity].
    rewrite result_try_catch. destruct (result_of _ w); eexists; reflexivity.
  - intros ->. reflexivity.
Qed.

(** ** One incident at a time *)

Lemma stable_other_record (j : string) (v : option Incident) :
  stable (other_than j) (fun w => store_get j (incidents w) = v).
Proof.
  constructor; try (intros; assumption).
  intros w k i i' Hk _ H. simpl. rewrite store_get_set_other; [exact H|].
  intros E. apply Hk. symmetry. exact E.
Qed.

Lemma io_ok_other_record (j : string) (v : option Incident) :
  io_ok (fun w => store_get j (incidents w) = v).
Proof. split; intros; assumption. Qed.

Lemma reports_ok_other_record (j : string) (v : option Incident) :
  reports_ok (fun w => store_get j (incidents w) = v).
Proof. intros w e _ H. exact H. Qed.

Lemma creates_ok_other_record (j : string) (v : option Incident) :
  creates_ok (fun w => store_get j (incidents w) = v).
Proof. intros w e _ H. exact H. Qed.

Lemma pres_leaves_record {A} (j : string) (m : M A) :
  (forall v, pres (fun w => store_get j (incidents w) = v) m) -> leaves_record j m.
Proof. intros H w. apply (H _ w). reflexivity. Qed.

(** X14: the mutators of the incident store and the seven stages,
    called for incident [k], leave the record under any other
    identifier exactly as it is, and an absent one absent, whether they
    return or throw. *)
Theorem X14_other_incidents_untouched (k j : string) :
  j <> k ->
  (forall st, leaves_record j (updateStatus k st))
  /\ (forall a, leaves_record j (addRecoveryAttempt k a))
  /\ (forall c, leaves_record j (setRootCause k c))
  /\ (forall r, leaves_record j (setReport k r))
  /\ (forall ev d, leaves_record j (addTimeline k ev d))
  /\ (forall a s, leaves_record j (runObservabilityAgent k a s))
  /\ (forall a s, leaves_record j (runAnalyzerAgent k a s))
  /\ (forall strategy, leaves_record j (runHealingAgent k strategy))
  /\ (forall hs, leaves_record j (runRecoveryDecisionAgent k hs))
  /\ leaves_record j (runDisasterRecoveryAgent k)
  /\ (forall rft, leaves_record j (runTrafficSwitchAgent k rft))
  /\ leaves_record j (runReporterAgent k).
Proof.
  intros Hne.
  assert (Hk : other_than j k) by (intros E; apply Hne; symmetry; exact E).
  repeat split; intros; apply pres_leaves_record; intros v;
    pose proof (stable_other_record j v) as HS;
    pose proof (io_ok_other_record j v) as HIO;
    pose proof (reports_ok_other_record j v) as HR.
  - exact (pres_updateStatus _ _ HS k st Hk).
  - exact (pres_addRecoveryAttempt _ _ HS k a Hk).
  - exact (pres_setRootCause _ _ HS k c Hk).
  - exact (pres_setReport _ _ HS HR k r Hk).
  - exact (pres_addTimeline _ _ HS k ev d Hk).
  - exact (pres_runObservabilityAgent _ _ HS HIO k a s Hk).
  - exact (pres_runAnalyzerAgent _ _ HS HIO k a s Hk).
  - exact (pres_runHealingAgent _ _ HS HIO k strategy Hk).
  - exact (pres_runRecoveryDecisionAgent _ _ HS HIO k hs Hk).
  - exact (pres_runDisasterRecoveryAgent _ _ HS HIO k Hk).
  - exact (pres_runTrafficSwitchAgent _ _ HS HIO k rft Hk).
  - exact (pres_runReporterAgent _ _ HS HIO HR k Hk).
Qed.

Lemma X14_other_incidents_untouched_witness :
  (forall st, leaves_record "INC-1" (updateStatus "INC-2" st))
  /\ (forall a, leaves_record "INC-1" (addRecoveryAttempt "INC-2" a))
  /\ (forall c, leaves_record "INC-1" (setRootCause "INC-2" c))
  /\ (forall r, leaves_record "INC-1" (setReport "INC-2" r))
  /\ (forall ev d, leaves_record "INC-1" (addTimeline "INC-2" ev d))
  /\ (forall a s, leaves_record "INC-1" (runObservabilityAgent "INC-2" a s))
  /\ (forall a s, leaves_record "INC-1" (runAnalyzerAgent "INC-2" a s))
  /\ (forall strategy, leaves_record "INC-1" (runHealingAgent "INC-2" strategy))
  /\ (forall hs, leaves_record "INC-1" (runRecoveryDecisionAgent "INC-2" hs))
  /\ leaves_record "INC-1" (runDisasterRecoveryAgent "INC-2")
  /\ (forall rft, leaves_record "INC-1" (runTrafficSwitchAgent "INC-2" rft))
  /\ leaves_record "INC-1" (runReporterAgent "INC-2").
Proof.
  apply (X14_other_incidents_untouched "INC-2" "INC-1"). discriminate.
Defined.

Lemma createIncident_other (ft : FailureType) (sev : Severity) (svc : list string)
      (j : string) (w : World) :
  j <> next_id w ->
  wp (createIncident ft sev svc)
     (fun r w' => store_get j (incidents w') = store_get j (incidents w)
                  /\ forall i, r = Ok i -> id i = next_id w) w.
Proof.
  intros Hne.
  assert (Hk : other_than j (next_id w)) by (intros E; apply Hne; symmetry; exact E).
  set (I := fun w' : World => store_get j (incidents w') = store_get j (incidents w)).
  pose proof (stable_other_record j (store_get j (incidents w))) as HS.
  unfold createIncident, generateId.
  do 3 wp_step. do 2 wp_step. do 5 wp_step.
  set (newId := ("INC-" ++ _)%string).
  assert (Hid : newId = next_id w) by reflexivity. clearbody newId. subst newId.
  set (inc := Build_Incident (next_id w) _ _ _ _ _ _ _ _ _ _).
  set (w2 := put_store _ _).
  assert (H2 : I w2) by (unfold I, w2; simpl; apply store_get_set_other, Hne).
  clearbody w2. wp_step.
  apply (wp_pres I);
    [apply (pres_emit_created _ _ HS); apply creates_ok_other_record | exact H2 |].
  intros [b|msg] w3 H3; [|split; [exact H3 | discriminate]].
  wp_step.
  apply (wp_pres I); [exact (pres_addTimeline _ _ HS _ _ _ Hk) | exact H3 |].
  intros [[]|msg] w4 H4; [|split; [exact H4 | discriminate]].
  wp_step. split; [exact H4|]. intros i [= <-]. reflexivity.
Qed.

#[global] Hint Resolve stable_other_record io_ok_other_record
  reports_ok_other_record creates_ok_other_record : pres.

(** X15: a pipeline run changes no record of the store but the one it
    opens: every record under another identifier is after the run
    exactly what it was before, whatever the subscribers and the
    requests do. *)
Theorem X15_pipeline_touches_only_its_incident
        (w : World) (a : AnomalyReport) (s : HealthSnapshot) (j : string) :
  j <> next_id w ->
  store_get j (incidents (state_of (runPipeline a s) w)) = store_get j (incidents w).
Proof.
  intros Hne.
  set (I := fun w' : World => store_get j (incidents w') = store_get j (incidents w)).
  change (wp (runPipeline a s) (fun _ w' => I w') w).
  unfold runPipeline. do 5 wp_step.
  eapply wp_conseq; [apply (createIncident_other _ _ _ j); exact Hne|].
  intros [i|msg] w1 [H1 Hid]; cbv beta iota; [|wp_step; exact H1].
  specialize (Hid i eq_refl).
  assert (Hk : other_than j (id i))
    by (rewrite Hid; intros E; apply Hne; symmetry; exact E).
  apply (wp_pres I); [| exact H1 |].
  - unfold I. pres_tac.
  - intros [[]|msg] w2 H2; [|wp_step]; exact H2.
Qed.

Lemma X15_pipeline_touches_only_its_incident_witness :
  store_get "INC-2"
    (incidents (state_of (runPipeline memory_anomaly unreachable) world_three_attempts))
  = store_get "INC-2" (incidents world_three_attempts).
Proof.
  apply (X15_pipeline_touches_only_its_incident world_three_attempts memory_anomaly
           unreachable "INC-2").
  vm_compute. discriminate.
Defined.

(** ** The monitoring loop *)

Lemma stable_counters (F : bool -> nat -> nat -> Prop) :
  stable (fun _ => True)
         (fun w => F (pipelineRunning w) (consecutiveHealthy w) (consecutiveUnhealthy w)).
Proof. constructor; intros; assumption. Qed.

Lemma io_ok_counters (F : bool -> nat -> nat -> Prop) :
  io_ok (fun w => F (pipelineRunning w) (consecutiveHealthy w) (consecutiveUnhealthy w)).
Proof. split; intros; assumption. Qed.

Lemma reports_ok_counters (F : bool -> nat -> nat -> Prop) :
  reports_ok
    (fun w => F (pipelineRunning w) (consecutiveHealthy w) (consecutiveUnhealthy w)).
Proof. intros w e _ H. exact H. Qed.

Lemma creates_ok_counters (F : bool -> nat -> nat -> Prop) :
  creates_ok
    (fun w => F (pipelineRunning w) (consecutiveHealthy w) (consecutiveUnhealthy w)).
Proof. intros w e _ H. exact H. Qed.

(** Nothing in a pipeline run touches the healthy counter. *)
Lemma runPipeline_keeps_healthy_counter (a : AnomalyReport) (s : HealthSnapshot)
      (n : nat) :
  pres (fun w => consecutiveHealthy w = n) (runPipeline a s).
Proof.
  pose proof (stable_counters (fun _ h _ => h = n)) as HS.
  pose proof (io_ok_counters (fun _ h _ => h = n)) as HIO.
  pose proof (reports_ok_counters (fun _ h _ => h = n)) as HR.
  pose proof (creates_ok_counters (fun _ h _ => h = n)) as HC.
  cbv beta in HS, HIO, HR, HC.
  unfold runPipeline.
  apply pres_bind; [apply pres_modify; intros w H; exact H | intros _].
  apply pres_finally; [|intros w H; exact H].
  unfold createIncident, generateId. pres_tac.
Qed.


Lemma monitoringLoop_counters (p : PollInput) :
  pres counters_exclusive (monitoringLoop p).
Proof.
  intros w HC.
  pose proof (stable_counters (fun _ h u => h = 0 \/ u = 0)%nat) as HS.
  pose proof (stable_counters (fun _ h _ => h = 0)%nat) as HS0.
  cbv beta in HS, HS0.
  change (wp (monitoringLoop p) (fun _ w' => counters_exclusive w') w).
  unfold monitoringLoop. do 2 wp_step.
  destruct (pipelineRunning w); [wp_step; exact HC|].
  do 2 wp_step.
  apply (wp_pres counters_exclusive);
    [exact (pres_getHealthSnapshot _ _ HS p) | exact HC |].
  intros [snapshot|msg] w1 H1; [|wp_step; exact H1].
  do 3 wp_step.
  apply (wp_pres counters_exclusive);
    [apply (pres_emit _ _ HS); discriminate | exact H1 |].
  intros [b|msg] w2 H2; [|wp_step; exact H2].
  destruct (detectAnomalies snapshot) as [anomaly|].
  - do 8 wp_step.
    set (w3 := set_consecutiveHealthy 0 _).
    assert (H3 : consecutiveHealthy w3 = 0%nat) by reflexivity. clearbody w3.
    match goal with |- wp (if ?c then _ else _) _ _ => destruct c end;
      [|wp_step; left; exact H3].
    do 2 wp_step.
    match goal with |- wp (match ?x with _ => _ end) _ _ => destruct x end;
      [wp_step; left; exact H3|].
    wp_step.
    apply (wp_pres (fun w' => consecutiveHealthy w' = 0%nat));
      [apply (pres_emit _ _ HS0); discriminate | exact H3 |].
    intros [b'|msg] w4 H4; [|wp_step; left; exact H4].
    apply wp_state. intros r.
    pose proof (runPipeline_keeps_healthy_counter anomaly snapshot 0%nat w4 H4) as H5.
    destruct r as [[]|msg]; [|wp_step]; left; exact H5.
  - do 3 wp_step. right. reflexivity.
Qed.

(** X17: the two counters of consecutive polls are never both
    non-zero: from the start of the process on, after any number of
    polls, whatever they observe and whatever the subscribers do, the
    count of healthy polls or the count of unhealthy polls is zero. *)
Theorem X17_counters_are_exclusive (e : Env) (subscribers : list Handler)
        (ps : list PollInput) :
  counters_exclusive (run_polls ps (initial_world e subscribers)).
Proof.
  assert (H : forall w, counters_exclusive w -> counters_exclusive (run_polls ps w)).
  { induction ps as [|p ps IH]; intros w Hw; [exact Hw|].
    simpl. apply IH, monitoringLoop_counters, Hw. }
  apply H. left. reflexivity.
Qed.

(** ** A stage run for an incident that does not exist *)

Lemma stable_absent (s : Store) :
  stable (fun k => store_get k s = None) (fun w => incidents w = s).
Proof.
  constructor; try (intros; assumption).
  intros w k i i' Hk Hi H. rewrite H in Hi. congruence.
Qed.

Lemma io_ok_store_eq (s : Store) : io_ok (fun w => incidents w = s).
Proof. split; intros; assumption. Qed.

Lemma reports_ok_store_eq (s : Store) : reports_ok (fun w => incidents w = s).
Proof. intros w e _ H. exact H. Qed.

Lemma emitted_types_app (t t' : list Act) :
  emitted_types (t ++ t') = (emitted_types t ++ emitted_types t')%list.
Proof. apply flat_map_app. Qed.

Lemma emitted_types_deliver (acts : list Act) :
  Forall (fun a => is_deliver_act a = true) acts -> emitted_types acts = [].
Proof.
  induction 1 as [|a acts Ha _ IH]; [reflexivity|].
  destruct a; try discriminate. exact IH.
Qed.

Lemma emit_world_types (ty : EventType) (d : JRecord) (w : World) :
  emitted_types (trace (emit_world ty d w)) = (emitted_types (trace w) ++ [ty])%list.
Proof.
  unfold emit_world; simpl. rewrite !emitted_types_app.
  rewrite (emitted_types_deliver _ (call_listeners_deliveries _ _ _)).
  simpl. rewrite app_nil_r. reflexivity.
Qed.

Lemma io_acts_deliver (acts : list Act) :
  Forall (fun a => is_deliver_act a = true) acts -> io_acts acts = [].
Proof.
  induction 1 as [|a acts Ha _ IH]; [reflexivity|].
  destruct a; try discriminate. exact IH.
Qed.

Lemma emit_world_io (ty : EventType) (d : JRecord) (w : World) :
  io_acts (trace (emit_world ty d w)) = io_acts (trace w).
Proof.
  unfold emit_world, io_acts; simpl. rewrite !filter_app.
  fold (io_acts (fst (call_listeners (listeners w) 0 (event_at ty d w)))).
  rewrite (io_acts_deliver _ (call_listeners_deliveries _ _ _)).
  simpl. rewrite !app_nil_r. reflexivity.
Qed.

Lemma wp_addTimeline_absent (k ev : string) (d : option JRecord)
      (Q : Result unit -> World -> Prop) (w : World) :
  store_get k (incidents w) = None -> Q (Ok tt) w -> wp (addTimeline k ev d) Q w.
Proof.
  intros Hk HQ. unfold addTimeline. wp_step. wp_step. rewrite Hk. wp_step. exact HQ.
Qed.

(** X18: run for an identifier that is not in the store, no stage
    changes the store, whatever the subscribers do.  The Reporter, with
    subscribers that do not throw, then returns a failed result whose
    only datum is the error 'Incident not found'; it publishes
    [agent:start] and [agent:error] and nothing else, in particular no
    report, and it neither waits nor sends a request. *)
Theorem X18_stage_for_unknown_incident (w : World) (k : string) :
  store_get k (incidents w) = None ->
  (forall a s, incidents (state_of (runObservabilityAgent k a s) w) = incidents w)
  /\ (forall a s, incidents (state_of (runAnalyzerAgent k a s) w) = incidents w)
  /\ (forall strategy, incidents (state_of (runHealingAgent k strategy) w) = incidents w)
  /\ (forall hs, incidents (state_of (runRecoveryDecisionAgent k hs) w) = incidents w)
  /\ incidents (state_of (runDisasterRecoveryAgent k) w) = incidents w
  /\ (forall rft, incidents (state_of (runTrafficSwitchAgent k rft) w) = incidents w)
  /\ incidents (state_of (runReporterAgent k) w) = incidents w
  /\ (quiet w ->
      (exists r, result_of (runReporterAgent k) w = Ok r
                 /\ success r = false
                 /\ res_data r = [("error", JStr "Incident not found")])
      /\ emitted_types (trace (state_of (runReporterAgent k) w))
         = (emitted_types (trace w) ++ [agent_start; agent_error])%list
      /\ io_acts (trace (state_of (runReporterAgent k) w)) = io_acts (trace w)).
Proof.
  intros Hk.
  pose proof (stable_absent (incidents w)) as HS.
  pose proof (io_ok_store_eq (incidents w)) as HIO.
  pose proof (reports_ok_store_eq (incidents w)) as HR.
  repeat match goal with |- _ /\ _ => split end; intros.
  - exact (pres_runObservabilityAgent _ _ HS HIO k a s Hk w eq_refl).
  - exact (pres_runAnalyzerAgent _ _ HS HIO k a s Hk w eq_refl).
  - exact (pres_runHealingAgent _ _ HS HIO k strategy Hk w eq_refl).
  - exact (pres_runRecoveryDecisionAgent _ _ HS HIO k hs Hk w eq_refl).
  - exact (pres_runDisasterRecoveryAgent _ _ HS HIO k Hk w eq_refl).
  - exact (pres_runTrafficSwitchAgent _ _ HS HIO k rft Hk w eq_refl).
  - exact (pres_runReporterAgent _ _ HS HIO HR k Hk w eq_refl).
  - rename H into Hq.
    set (T := fun (l : list EventType) (w' : World) =>
                quiet w' /\ store_get k (incidents w') = None
                /\ emitted_types (trace w') = (emitted_types (trace w) ++ l)%list
                /\ io_acts (trace w') = io_acts (trace w)).
    assert (HT : forall ty d l w1 (Q : Result bool -> World -> Prop),
               T l w1 -> (forall b w2, T (l ++ [ty])%list w2 -> Q (Ok b) w2) ->
               wp (emit ty d) Q w1).
    { intros ty d l w1 Q (H1 & H2 & H3 & H4) HQ.
      apply wp_emit_quiet; [exact H1|]. apply HQ.
      split; [exact H1|]. split; [exact H2|]. split.
      - rewrite emit_world_types, H3, <- app_assoc. reflexivity.
      - rewrite emit_world_io. exact H4. }
    change (wp (runReporterAgent k)
              (fun r w' =>
                 ((exists r', r = Ok r' /\ success r' = false
                              /\ res_data r' = [("error", JStr "Incident not found")])
                  /\ emitted_types (trace w')
                     = (emitted_types (trace w) ++ [agent_start; agent_error])%list
                  /\ io_acts (trace w') = io_acts (trace w))) w).
    unfold runReporterAgent, executeAgent. do 2 wp_step.
    assert (H0 : T [] (set_now_ix (S (now_ix w)) w)).
    { split; [exact Hq|]. split; [exact Hk|]. split; [|reflexivity].
      simpl. rewrite app_nil_r. reflexivity. }
    wp_step. apply (HT _ _ _ _ _ H0). intros b1 w1 H1. simpl app in H1.
    wp_step. apply wp_addTimeline_absent; [apply H1|].
    wp_step. unfold reporter_body. do 3 wp_step.
    destruct H1 as (Hq1 & Hk1 & Ht1 & Hio1). rewrite Hk1.
    wp_step. do 2 wp_step.
    assert (H2 : T [agent_start] (set_now_ix (S (now_ix w1)) w1))
      by (repeat split; assumption).
    wp_step. apply (HT _ _ _ _ _ H2). intros b2 w2 H3. simpl app in H3.
    wp_step. apply wp_addTimeline_absent; [apply H3|].
    wp_step. destruct H3 as (Hq3 & Hk3 & Ht3 & Hio3).
    split; [|split; assumption].
    eexists. split; [reflexivity|]. split; reflexivity.
Qed.

Lemma X18_stage_for_unknown_incident_witness :
  let w := world_one_resolved in
  let k := "INC-9" in
  (forall a s, incidents (state_of (runObservabilityAgent k a s) w) = incidents w)
  /\ (forall a s, incidents (state_of (runAnalyzerAgent k a s) w) = incidents w)
  /\ (forall strategy, incidents (state_of (runHealingAgent k strategy) w) = incidents w)
  /\ (forall hs, incidents (state_of (runRecoveryDecisionAgent k hs) w) = incidents w)
  /\ incidents (state_of (runDisasterRecoveryAgent k) w) = incidents w
  /\ (forall rft, incidents (state_of (runTrafficSwitchAgent k rft) w) = incidents w)
  /\ incidents (state_of (runReporterAgent k) w) = incidents w
  /\ (quiet w ->
      (exists r, result_of (runReporterAgent k) w = Ok r
                 /\ success r = false
                 /\ res_data r = [("error", JStr "Incident not found")])
      /\ emitted_types (trace (state_of (runReporterAgent k) w))
         = (emitted_types (trace w) ++ [agent_start; agent_error])%list
      /\ io_acts (trace (state_of (runReporterAgent k) w)) = io_acts (trace w)).
Proof.
  apply (X18_stage_for_unknown_incident world_one_resolved "INC-9"). reflexivity.
Defined.

(** ** What an incident keeps through its life *)

Lemma stable_incident_sat (j : string) (P : Incident -> Prop) :
  stable (fun _ => False) (incident_sat j P).
Proof. constructor; try (intros; assumption). intros w k i i' []. Qed.

Lemma io_ok_incident_sat (j : string) (P : Incident -> Prop) :
  io_ok (incident_sat j P).
Proof. split; intros; assumption. Qed.

Lemma reports_ok_incident_sat (j : string) (P : Incident -> Prop) :
  reports_ok (incident_sat j P).
Proof. intros w e _ H. exact H. Qed.

Lemma creates_ok_incident_sat (j : string) (P : Incident -> Prop) :
  creates_ok (incident_sat j P).
Proof. intros w e _ H. exact H. Qed.

Section Kept.
Variable j : string.
Variable P : Incident -> Prop.
Hypothesis P_status : forall st i, P i -> P (with_status st i).
Hypothesis P_resolvedAt : forall t i, P i -> P (with_resolvedAt t i).
Hypothesis P_rootCause : forall c i, P i -> P (with_rootCause c i).
Hypothesis P_report : forall r i, P i -> P (with_report r i).
Hypothesis P_timeline : forall t i, P i -> P (with_timeline t i).

Let HS := stable_incident_sat j P.
Let HIO := io_ok_incident_sat j P.
Let HR := reports_ok_incident_sat j P.

Lemma kept_mutate (k : string) (f : Incident -> Incident) :
  (forall i, P i -> P (f i)) -> pres (incident_sat j P) (mutate_incident k f).
Proof.
  intros Hf w (i & Hi & HP). unfold state_of, mutate_incident, modify; simpl.
  destruct (store_get k (incidents w)) as [i0|] eqn:E; [|exists i; split; assumption].
  unfold incident_sat; simpl. destruct (String.eqb_spec j k) as [->|Hne].
  - rewrite store_get_set_same. exists (f i0). split; [reflexivity|].
    apply Hf. congruence.
  - rewrite store_get_set_other by exact Hne. exists i. split; assumption.
Qed.

Ltac kept_tac :=
  repeat (intros;
          lazymatch goal with
          | |- pres _ (bind _ _) => apply pres_bind
          | |- pres _ (try_catch _ _) => apply pres_try_catch
          | |- pres _ (ret _) => apply pres_ret
          | |- pres _ (throw _) => apply pres_throw
          | |- pres _ (gets _) => apply pres_gets
          | |- pres _ (getIncident _) => apply pres_gets
          | |- pres _ (mutate_incident _ _) =>
              apply kept_mutate; solve [intros; cbv beta; auto]
          | |- pres _ (emit report_generated _) =>
              eapply pres_emit_report; eassumption
          | |- pres _ (emit _ _) =>
              eapply pres_emit; [eassumption | discriminate | discriminate]
          | |- pres _ Date_now => eapply pres_Date_now; eassumption
          | |- pres _ (sleep _) => eapply pres_sleep; eassumption
          | |- pres _ (fetch _ _) => eapply pres_fetch; eassumption
          | |- pres _ (json _) => apply pres_json
          | |- pres _ (body_status_healthy _) => apply pres_body_status_healthy
          | |- pres _ (modify _) =>
              solve [apply pres_modify; let H := fresh in intros ? H; exact H]
          | |- pres _ (if ?c then _ else _) => destruct c
          | |- pres _ (match ?x with _ => _ end) => destruct x
          | |- pres _ _ => first [assumption | solve [auto]]
          end).

Lemma kept_addTimeline (k ev : string) (d : option JRecord) :
  pres (incident_sat j P) (addTimeline k ev d).
Proof. unfold addTimeline. kept_tac. Qed.

Lemma kept_updateStatus (k : string) (st : IncidentStatus) :
  pres (incident_sat j P) (updateStatus k st).
Proof. unfold updateStatus. kept_tac. Qed.

Lemma kept_setRootCause (k c : string) :
  pres (incident_sat j P) (setRootCause k c).
Proof. unfold setRootCause. kept_tac. Qed.

Lemma kept_setReport (k : string) (r : IncidentReport) :
  pres (incident_sat j P) (setReport k r).
Proof. unfold setReport. kept_tac. Qed.

Hint Resolve kept_addTimeline kept_updateStatus kept_setRootCause kept_setReport : core.

Lemma kept_executeAgent (name k : string) (fn : M JRecord) :
  pres (incident_sat j P) fn -> pres (incident_sat j P) (executeAgent name k fn).
Proof. intros Hfn. unfold executeAgent. kept_tac. Qed.

Lemma kept_runObservabilityAgent (k : string) (a : AnomalyReport) (s : HealthSnapshot) :
  pres (incident_sat j P) (runObservabilityAgent k a s).
Proof.
  unfold runObservabilityAgent. apply kept_executeAgent.
  unfold observability_body. kept_tac.
Qed.

Lemma kept_runAnalyzerAgent (k : string) (a : AnomalyReport) (s : HealthSnapshot) :
  pres (incident_sat j P) (runAnalyzerAgent k a s).
Proof.
  unfold runAnalyzerAgent. apply kept_executeAgent. unfold analyzer_body.
  destruct (analysis (ar_failureType a)) as [[[c1 c2] c3] c4]. kept_tac.
Qed.

Lemma kept_healing_attempt (k strategy : string) :
  pres (incident_sat j P) (healing_attempt k strategy).
Proof. unfold healing_attempt. kept_tac. Qed.

Lemma kept_dr_health_loop (n : nat) : pres (incident_sat j P) (dr_health_loop n).
Proof. induction n; simpl; kept_tac. Qed.

Lemma kept_runRecoveryDecisionAgent (k : string) (hs : JValue) :
  pres (incident_sat j P) (runRecoveryDecisionAgent k hs).
Proof.
  unfold runRecoveryDecisionAgent. apply kept_executeAgent.
  unfold decision_body. kept_tac.
Qed.

Lemma kept_runTrafficSwitchAgent (k : string) (rft : JValue) :
  pres (incident_sat j P) (runTrafficSwitchAgent k rft).
Proof.
  unfold runTrafficSwitchAgent. apply kept_executeAgent.
  unfold traffic_switch_body. kept_tac.
Qed.

Lemma kept_runReporterAgent (k : string) :
  pres (incident_sat j P) (runReporterAgent k).
Proof.
  unfold runReporterAgent. apply kept_executeAgent.
  unfold reporter_body. kept_tac.
Qed.

(** The stages that record an attempt. *)
Hypothesis P_attempt : forall a i, P i -> P (push_attempt a i).

Lemma kept_addRecoveryAttempt (k : string) (a : RecoveryAttempt) :
  pres (incident_sat j P) (addRecoveryAttempt k a).
Proof. unfold addRecoveryAttempt. kept_tac. Qed.

Hint Resolve kept_addRecoveryAttempt kept_healing_attempt kept_dr_health_loop : core.

Lemma kept_runHealingAgent (k strategy : string) :
  pres (incident_sat j P) (runHealingAgent k strategy).
Proof.
  unfold runHealingAgent. apply kept_executeAgent.
  unfold healing_body. kept_tac.
Qed.

Lemma kept_runDisasterRecoveryAgent (k : string) :
  pres (incident_sat j P) (runDisasterRecoveryAgent k).
Proof.
  unfold runDisasterRecoveryAgent. apply kept_executeAgent.
  unfold disaster_recovery_body. kept_tac.
Qed.

End Kept.

Lemma later_of_refl (i : Incident) : later_of i i.
Proof. repeat split. exists []. rewrite app_nil_r. reflexivity. Qed.

Lemma later_of_attempt (i : Incident) (a : RecoveryAttempt) (i' : Incident) :
  later_of i i' -> later_of i (push_attempt a i').
Proof.
  intros (H1 & H2 & H3 & H4 & H5 & more & H6). repeat split; try assumption.
  exists (more ++ [a])%list. simpl. rewrite H6, app_assoc. reflexivity.
Qed.

(** X23: an incident is never removed from the store, and neither the
    mutators of the store nor the seven stages, called for any
    identifier, change its identifier, its time of detection, its
    failure type, its severity or its affected services; its list of
    attempts only grows at the end.  This holds whether they return or
    throw. *)
Theorem X23_incident_keeps_identity (w : World) (k j : string) (i : Incident) :
  store_get j (incidents w) = Some i ->
  (forall st, incident_sat j (later_of i) (state_of (updateStatus k st) w))
  /\ (forall a, incident_sat j (later_of i) (state_of (addRecoveryAttempt k a) w))
  /\ (forall c, incident_sat j (later_of i) (state_of (setRootCause k c) w))
  /\ (forall r, incident_sat j (later_of i) (state_of (setReport k r) w))
  /\ (forall ev d, incident_sat j (later_of i) (state_of (addTimeline k ev d) w))
  /\ (forall a s, incident_sat j (later_of i) (state_of (runObservabilityAgent k a s) w))
  /\ (forall a s, incident_sat j (later_of i) (state_of (runAnalyzerAgent k a s) w))
  /\ (forall strategy,
        incident_sat j (later_of i) (state_of (runHealingAgent k strategy) w))
  /\ (forall hs, incident_sat j (later_of i) (state_of (runRecoveryDecisionAgent k hs) w))
  /\ incident_sat j (later_of i) (state_of (runDisasterRecoveryAgent k) w)
  /\ (forall rft, incident_sat j (later_of i) (state_of (runTrafficSwitchAgent k rft) w))
  /\ incident_sat j (later_of i) (state_of (runReporterAgent k) w).
Proof.
  intros Hi.
  assert (H0 : incident_sat j (later_of i) w)
    by (exists i; split; [exact Hi | apply later_of_refl]).
  assert (C1 : forall st i', later_of i i' -> later_of i (with_status st i'))
    by (intros st i' H; exact H).
  assert (C2 : forall t i', later_of i i' -> later_of i (with_resolvedAt t i'))
    by (intros t i' H; exact H).
  assert (C3 : forall c i', later_of i i' -> later_of i (with_rootCause c i'))
    by (intros c i' H; exact H).
  assert (C4 : forall r i', later_of i i' -> later_of i (with_report r i'))
    by (intros r i' H; exact H).
  assert (C5 : forall t i', later_of i i' -> later_of i (with_timeline t i'))
    by (intros t i' H; exact H).
  pose proof (fun a i' => later_of_attempt i a i') as C6.
  repeat match goal with |- _ /\ _ => split end; intros.
  - exact (kept_updateStatus j _ C1 C2 k st w H0).
  - exact (kept_addRecoveryAttempt j _ C5 C6 k a w H0).
  - exact (kept_setRootCause j _ C3 k c w H0).
  - exact (kept_setReport j _ C4 k r w H0).
  - exact (kept_addTimeline j _ C5 k ev d w H0).
  - exact (kept_runObservabilityAgent j _ C5 k a s w H0).
  - exact (kept_runAnalyzerAgent j _ C1 C2 C3 C5 k a s w H0).
  - exact (kept_runHealingAgent j _ C1 C2 C5 C6 k strategy w H0).
  - exact (kept_runRecoveryDecisionAgent j _ C5 k hs w H0).
  - exact (kept_runDisasterRecoveryAgent j _ C1 C2 C5 C6 k w H0).
  - exact (kept_runTrafficSwitchAgent j _ C5 k rft w H0).
  - exact (kept_runReporterAgent j _ C1 C2 C4 C5 k w H0).
Qed.

Lemma X23_incident_keeps_identity_witness :
  let w := world_three_attempts in
  let k := "INC-2" in
  let j := "INC-2" in
  let i := struggling_incident in
  (forall st, incident_sat j (later_of i) (state_of (updateStatus k st) w))
  /\ (forall a, incident_sat j (later_of i) (state_of (addRecoveryAttempt k a) w))
  /\ (forall c, incident_sat j (later_of i) (state_of (setRootCause k c) w))
  /\ (forall r, incident_sat j (later_of i) (state_of (setReport k r) w))
  /\ (forall ev d, incident_sat j (later_of i) (state_of (addTimeline k ev d) w))
  /\ (forall a s, incident_sat j (later_of i) (state_of (runObservabilityAgent k a s) w))
  /\ (forall a s, incident_sat j (later_of i) (state_of (runAnalyzerAgent k a s) w))
  /\ (forall strategy,
        incident_sat j (later_of i) (state_of (runHealingAgent k strategy) w))
  /\ (forall hs, incident_sat j (later_of i) (state_of (runRecoveryDecisionAgent k hs) w))
  /\ incident_sat j (later_of i) (state_of (runDisasterRecoveryAgent k) w)
  /\ (forall rft, incident_sat j (later_of i) (state_of (runTrafficSwitchAgent k rft) w))
  /\ incident_sat j (later_of i) (state_of (runReporterAgent k) w).
Proof.
  apply (X23_incident_keeps_identity world_three_attempts "INC-2" "INC-2"
           struggling_incident).
  reflexivity.
Defined.

(** ** Following the requests and the record through a stage *)

Lemma wp_frame {A} (J : World -> Prop) (m : M A) (Q : Result A -> World -> Prop)
      (w : World) :
  pres J m -> J w -> wp m (fun r w' => J w' -> Q r w') w -> wp m Q w.
Proof. intros Hp HJ H. apply H, Hp, HJ. Qed.

Section AtStage.
Variable e : Env.
Variable k : string.

Lemma stage_Date_now ix P (Q : Result Z -> World -> Prop) w :
  at_stage e ix k P w ->
  (forall t w', at_stage e ix k P w' -> Q (Ok t) w') -> wp Date_now Q w.
Proof. intros H HQ. apply wp_Date_now, HQ. exact H. Qed.

Lemma stage_sleep ms ix P (Q : Result unit -> World -> Prop) w :
  at_stage e ix k P w ->
  (forall w', at_stage e ix k P w' -> Q (Ok tt) w') -> wp (sleep ms) Q w.
Proof. intros H HQ. apply wp_sleep, HQ. exact H. Qed.

Lemma stage_emit ty d ix P (Q : Result bool -> World -> Prop) w :
  at_stage e ix k P w ->
  (forall b w', at_stage e ix k P w' -> Q (Ok b) w') -> wp (emit ty d) Q w.
Proof.
  intros H HQ. apply wp_emit_quiet; [apply H|]. apply HQ. exact H.
Qed.

Lemma stage_fetch url method ix P (Q : Result Response -> World -> Prop) w :
  at_stage e ix k P w ->
  (forall w', at_stage e (S ix) k P w' -> Q (fetch_at e ix) w') ->
  wp (fetch url method) Q w.
Proof.
  intros [(Hq & He & Hf) Hs] HQ. apply wp_fetch. rewrite He, Hf. apply HQ.
  repeat split; assumption.
Qed.

Lemma stage_getIncident ix P (Q : Result (option Incident) -> World -> Prop) w :
  at_stage e ix k P w ->
  (forall i, P i -> store_get k (incidents w) = Some i -> Q (Ok (Some i)) w) ->
  wp (getIncident k) Q w.
Proof.
  intros [_ (i & Hi & HP)] HQ. apply wp_getIncident. rewrite Hi. apply HQ; assumption.
Qed.

Lemma stage_mutate f ix (P P' : Incident -> Prop) (Q : Result unit -> World -> Prop) w :
  (forall i, P i -> P' (f i)) ->
  at_stage e ix k P w ->
  (forall w', at_stage e ix k P' w' -> Q (Ok tt) w') ->
  wp (mutate_incident k f) Q w.
Proof.
  intros Hf [Hio (i & Hi & HP)] HQ. eapply wp_mutate; [exact Hi|]. apply HQ.
  split; [exact Hio|]. exists (f i). split; [apply store_get_set_same | apply Hf, HP].
Qed.

Lemma stage_addTimeline ev d ix (P : Incident -> Prop)
      (Q : Result unit -> World -> Prop) w :
  (forall t i, P i -> P (with_timeline t i)) ->
  at_stage e ix k P w ->
  (forall w', at_stage e ix k P w' -> Q (Ok tt) w') ->
  wp (addTimeline k ev d) Q w.
Proof.
  intros Ht H HQ. unfold addTimeline. wp_step.
  eapply stage_getIncident; [exact H|]. intros i HP Hi. cbv beta iota. wp_step.
  destruct (timeline i).
  - wp_step. wp_step. eapply stage_Date_now; [exact H|]. intros t w1 H1.
    eapply (stage_mutate _ _ P P); [|exact H1|exact HQ]. intros i0 H0. apply Ht, H0.
  - eapply (stage_mutate _ _ P P); [|exact H|]. { intros i0 H0. apply Ht, H0. }
    intros w1 H1. cbv beta iota.
    wp_step. eapply stage_Date_now; [exact H1|]. intros t w2 H2.
    eapply (stage_mutate _ _ P P); [|exact H2|exact HQ]. intros i0 H0. apply Ht, H0.
Qed.

Lemma stage_updateStatus st ix (P P' : Incident -> Prop)
      (Q : Result unit -> World -> Prop) w :
  (forall i, P i -> P' (with_status st i)) ->
  (forall t i, P' i -> P' (with_resolvedAt t i)) ->
  at_stage e ix k P w ->
  (forall w', at_stage e ix k P' w' -> Q (Ok tt) w') ->
  wp (updateStatus k st) Q w.
Proof.
  intros Hs Hr H HQ. unfold updateStatus. wp_step.
  eapply stage_getIncident; [exact H|]. intros i HP Hi. cbv beta iota. wp_step.
  eapply (stage_mutate _ _ P P'); [exact Hs | exact H |]. intros w1 H1. cbv beta iota.
  wp_step.
  assert (Hrest : forall w2, at_stage e ix k P' w2 ->
            wp (iso <- Date_now ;;
                emit incident_update
                     [("incidentId", JStr k);
                      ("status", JStr (IncidentStatus_str st));
                      ("timestamp", JDate iso)] ;;
                ret tt) Q w2).
  { intros w2 H2. wp_step. eapply stage_Date_now; [exact H2|]. intros t w3 H3.
    wp_step. eapply stage_emit; [exact H3|]. intros b w4 H4. wp_step.
    apply HQ, H4. }
  destruct (IncidentStatus_eqb st resolved).
  - wp_step. eapply stage_Date_now; [exact H1|]. intros t w2 H2.
    eapply (stage_mutate _ _ P' P'); [|exact H2|]. { intros i0 H0. apply Hr, H0. }
    intros w3 H3. cbv beta iota. apply Hrest, H3.
  - wp_step. apply Hrest, H1.
Qed.

Lemma stage_addRecoveryAttempt a ix (P P' : Incident -> Prop)
      (Q : Result unit -> World -> Prop) w :
  (forall i, P i -> P' (push_attempt a i)) ->
  (forall t i, P' i -> P' (with_timeline t i)) ->
  at_stage e ix k P w ->
  (forall w', at_stage e ix k P' w' -> Q (Ok tt) w') ->
  wp (addRecoveryAttempt k a) Q w.
Proof.
  intros Ha Ht H HQ. unfold addRecoveryAttempt. wp_step.
  eapply stage_getIncident; [exact H|]. intros i HP Hi. cbv beta iota. wp_step.
  eapply (stage_mutate _ _ P P'); [exact Ha | exact H |]. intros w1 H1. cbv beta iota.
  wp_step. eapply stage_emit; [exact H1|]. intros b w2 H2.
  eapply stage_addTimeline; [exact Ht | exact H2 | exact HQ].
Qed.

Lemma stage_setRootCause c ix (P P' : Incident -> Prop)
      (Q : Result unit -> World -> Prop) w :
  (forall i, P i -> P' (with_rootCause c i)) ->
  at_stage e ix k P w ->
  (forall w', at_stage e ix k P' w' -> Q (Ok tt) w') ->
  wp (setRootCause k c) Q w.
Proof.
  intros Hc H HQ. unfold setRootCause. wp_step.
  eapply stage_getIncident; [exact H|]. intros i HP Hi. cbv beta iota.
  eapply (stage_mutate _ _ P P'); [exact Hc | exact H | exact HQ].
Qed.

(** A stage whose body, started with the record satisfying [P],
    returns data satisfying [Pd] and leaves the record satisfying [P'],
    its requests having brought the index to one that satisfies [N],
    returns a successful result with that data. *)
Lemma executeAgent_at_stage name fn ix (N : nat -> Prop) (P P' : Incident -> Prop)
      (Pd : JRecord -> Prop) w :
  (forall t i, P i -> P (with_timeline t i)) ->
  (forall t i, P' i -> P' (with_timeline t i)) ->
  at_stage e ix k P w ->
  (forall w1, at_stage e ix k P w1 ->
     wp fn (fun r w2 => exists d ix', r = Ok d /\ Pd d /\ N ix'
                                      /\ at_stage e ix' k P' w2) w1) ->
  wp (executeAgent name k fn)
     (fun r w' => exists r' ix', r = Ok r' /\ agent r' = name /\ success r' = true
                                 /\ Pd (res_data r') /\ N ix'
                                 /\ at_stage e ix' k P' w') w.
Proof.
  intros Ht Ht' H Hfn. unfold executeAgent.
  wp_step. eapply stage_Date_now; [exact H|]. intros start w1 H1.
  wp_step. eapply stage_emit; [exact H1|]. intros b1 w2 H2.
  wp_step. eapply stage_addTimeline; [exact Ht | exact H2 |]. intros w3 H3.
  wp_step. wp_step.
  eapply wp_conseq; [apply Hfn, H3|].
  intros r w4 (d & ix' & -> & HPd & HN & H4). cbv beta iota.
  wp_step. eapply stage_Date_now; [exact H4|]. intros stop w5 H5.
  wp_step. eapply stage_emit; [exact H5|]. intros b2 w6 H6.
  wp_step. eapply stage_addTimeline; [exact Ht' | exact H6 |]. intros w7 H7.
  wp_step. eexists. exists ix'. split; [reflexivity|]. repeat split; try assumption; apply H7.
Qed.

End AtStage.

Lemma at_stage_intro (w : World) (k : string) (i : Incident) (P : Incident -> Prop) :
  quiet w -> store_get k (incidents w) = Some i -> P i ->
  at_stage (env w) (fetch_ix w) k P w.
Proof. intros Hq Hi HP. split; [repeat split; exact Hq | exists i; split; assumption]. Qed.

Lemma traffic_switch_ready (e : Env) (k : string) (rft : JValue) (ix : nat)
      (P : Incident -> Prop) (w : World) :
  truthy rft = true ->
  at_stage e ix k P w ->
  wp (traffic_switch_body k rft)
     (fun r w2 =>
        exists d ix', r = Ok d
          /\ (obj_get "trafficStatus" d
              = JStr (if healthy_answer e ix then "complete" else "rolled_back")
              /\ obj_get "currentTrafficPercent" d
                 = JNum (ZNum (if healthy_answer e ix then 100 else 0)))
          /\ ix' = S ix
          /\ at_stage e ix' k P w2) w.
Proof.
  intros Hr H. unfold traffic_switch_body.
  wp_step. eapply stage_emit; [exact H|]. intros b0 w1 H1.
  rewrite Hr. cbn [negb]. cbv iota.
  wp_step. eapply stage_emit; [exact H1|]. intros b1 w2 H2.
  wp_step. eapply stage_sleep; [exact H2|]. intros w3 H3.
  match goal with |- wp (bind _ ?f) _ _ => set (rest := f) end.
  assert (Hk : forall b w4,
             healthy_answer e ix = b -> at_stage e (S ix) k P w4 ->
             wp (rest b)
                (fun r w2 =>
                   exists d ix', r = Ok d
                     /\ (obj_get "trafficStatus" d
                         = JStr (if healthy_answer e ix then "complete" else "rolled_back")
                         /\ obj_get "currentTrafficPercent" d
                            = JNum (ZNum (if healthy_answer e ix then 100 else 0)))
                     /\ ix' = S ix
                     /\ at_stage e ix' k P w2) w4).
  { intros b w4 Hb H4. rewrite Hb. unfold rest. wp_step. destruct b.
    - eapply stage_emit; [exact H4|]. intros b2 w5 H5. wp_step.
      eexists. exists (S ix). split; [reflexivity|].
      split; [split; reflexivity|]. split; [reflexivity | exact H5].
    - wp_step. wp_step.
      eexists. exists (S ix). split; [reflexivity|].
      split; [split; reflexivity|]. split; [reflexivity | exact H4]. }
  clearbody rest. wp_step.
  wp_step. wp_step. eapply stage_fetch; [exact H3|]. intros w4 H4.
  unfold healthy_answer in *.
  destruct (fetch_at e ix) as [r|msg]; cbv beta iota.
  2:{ wp_step. apply Hk; [reflexivity | exact H4]. }
  wp_step. unfold json. destruct (resp_json r) as [body|msg].
  2:{ do 2 wp_step. apply Hk; [apply andb_false_r | exact H4]. }
  wp_step. destruct (resp_ok r); cbn [andb] in Hk.
  2:{ wp_step. apply Hk; [reflexivity | exact H4]. }
  destruct body; cbn [body_status_healthy]; repeat wp_step;
    apply Hk; try reflexivity; exact H4.
Qed.

(** X19: with subscribers that do not throw and the incident in the
    store, a Traffic Switch stage that is told the system is ready sends
    exactly one request, the final health check, and returns a
    successful result whose traffic status is 'complete', at 100
    percent, when that request is answered with a 2xx status and a body
    whose [status] is 'healthy', and 'rolled_back', at 0 percent, in
    every other case. *)
Theorem X19_traffic_switch_when_ready
        (w : World) (k : string) (readyForTraffic : JValue) :
  quiet w -> has_incident k w -> truthy readyForTraffic = true ->
  let stable := healthy_answer (env w) (fetch_ix w) in
  let w' := state_of (runTrafficSwitchAgent k readyForTraffic) w in
  (exists r, result_of (runTrafficSwitchAgent k readyForTraffic) w = Ok r
             /\ success r = true
             /\ obj_get "trafficStatus" (res_data r)
                = JStr (if stable then "complete" else "rolled_back")
             /\ obj_get "currentTrafficPercent" (res_data r)
                = JNum (ZNum (if stable then 100 else 0)))
  /\ fetch_ix w' = S (fetch_ix w).
Proof.
  intros Hq Hh Hr stable w'.
  destruct (store_get k (incidents w)) as [i|] eqn:Hi; [|contradiction].
  pose proof (at_stage_intro w k i (fun _ => True) Hq Hi Logic.I) as H.
  change (wp (runTrafficSwitchAgent k readyForTraffic)
            (fun r w1 =>
               (exists r', r = Ok r' /\ success r' = true
                  /\ obj_get "trafficStatus" (res_data r')
                     = JStr (if stable then "complete" else "rolled_back")
                  /\ obj_get "currentTrafficPercent" (res_data r')
                     = JNum (ZNum (if stable then 100 else 0)))
               /\ fetch_ix w1 = S (fetch_ix w)) w).
  unfold runTrafficSwitchAgent.
  eapply wp_conseq.
  - apply (executeAgent_at_stage (env w) k _ _ (fetch_ix w) (eq (S (fetch_ix w)))
             (fun _ => True) (fun _ => True)
             (fun d => obj_get "trafficStatus" d
                       = JStr (if stable then "complete" else "rolled_back")
                       /\ obj_get "currentTrafficPercent" d
                          = JNum (ZNum (if stable then 100 else 0))));
      [intros; exact Logic.I | intros; exact Logic.I | exact H |].
    intros w1 H1. eapply wp_conseq; [apply traffic_switch_ready; eassumption|].
    intros r w2 (d & ix' & -> & Hd & -> & H2). exists d, (S (fetch_ix w)).
    repeat split; try apply Hd; apply H2.
  - intros r w1 (r' & ix' & -> & _ & Hs & [Hd1 Hd2] & <- & (_ & _ & Hf) & _). cbv beta.
    split; [|exact Hf]. exists r'. repeat split; assumption.
Qed.

Lemma X19_traffic_switch_when_ready_witness :
  let w := world_three_attempts in
  let stable := healthy_answer (env w) (fetch_ix w) in
  let w' := state_of (runTrafficSwitchAgent "INC-2" (JBool true)) w in
  (exists r, result_of (runTrafficSwitchAgent "INC-2" (JBool true)) w = Ok r
             /\ success r = true
             /\ obj_get "trafficStatus" (res_data r)
                = JStr (if stable then "complete" else "rolled_back")
             /\ obj_get "currentTrafficPercent" (res_data r)
                = JNum (ZNum (if stable then 100 else 0)))
  /\ fetch_ix w' = S (fetch_ix w).
Proof.
  apply (X19_traffic_switch_when_ready world_three_attempts "INC-2" (JBool true)).
  - apply quiet_set_incidents, quiet_logger.
  - discriminate.
  - reflexivity.
Defined.

(** ** The stages that record an attempt *)

Lemma stage_healing_attempt (e : Env) (k k' strategy : string) (ix : nat)
      (P : Incident -> Prop)
      (Q : Result (bool * string * option string) -> World -> Prop) (w : World) :
  at_stage e ix k P w ->
  (forall action err n w',
      (n <= 2)%nat -> at_stage e (ix + n) k P w' ->
      (err = None <-> healing_outcome e ix strategy = true) ->
      Q (Ok (healing_outcome e ix strategy, action, err)) w') ->
  wp (healing_attempt k' strategy) Q w.
Proof.
  intros [Hio Hs] HQ.
  apply (wp_frame (incident_sat k P));
    [exact (pres_healing_attempt _ _ (stable_incident_sat k P)
              (io_ok_incident_sat k P) k' strategy)
    | exact Hs |].
  eapply healing_attempt_outcome; [exact Hio|].
  intros action err n w' Hn Hio' Herr Hs'. apply (HQ _ _ n); [exact Hn | | exact Herr].
  split; assumption.
Qed.

Lemma stage_dr_health_loop (e : Env) (k : string) (n ix : nat) (P : Incident -> Prop)
      (Q : Result bool -> World -> Prop) (w : World) :
  at_stage e ix k P w ->
  (forall w', at_stage e (ix + failed_probes e ix n
                          + (if (failed_probes e ix n <? n)%nat then 1 else 0)) k P w' ->
              Q (Ok (failed_probes e ix n <? n)%nat) w') ->
  wp (dr_health_loop n) Q w.
Proof.
  intros [(Hq & He & Hf) Hs] HQ. unfold wp, result_of, state_of.
  rewrite dr_health_loop_run. cbn [fst snd]. rewrite He, Hf. apply HQ.
  repeat split; assumption.
Qed.

Lemma healing_body_at_stage (e : Env) (k strategy : string) (ix : nat)
      (l : list RecoveryAttempt) (w : World) :
  at_stage e ix k (fun i => attemptedActions i = l) w ->
  wp (healing_body k strategy)
     (fun r w2 =>
        exists d ix', r = Ok d
          /\ obj_get "success" d = JBool (healing_outcome e ix strategy)
          /\ (ix <= ix' <= ix + 2)%nat
          /\ at_stage e ix' k
               (attempt_added l healing
                  (healing_record (healing_outcome e ix strategy))) w2) w.
Proof.
  intros H. unfold healing_body.
  wp_step.
  eapply (stage_updateStatus e k healing ix _
            (fun i => attemptedActions i = l /\ status i = healing));
    [ intros i Hi; split; [exact Hi | reflexivity]
    | intros t i Hi; exact Hi
    | exact H |].
  intros w1 H1. wp_step. eapply stage_Date_now; [exact H1|]. intros start w2 H2.
  wp_step. eapply stage_healing_attempt; [exact H2|].
  intros action err n w3 Hn H3 Herr.
  set (b := healing_outcome e ix strategy) in *. clearbody b.
  wp_step. eapply stage_Date_now; [exact H3|]. intros stamp w4 H4.
  wp_step. eapply stage_Date_now; [exact H4|]. intros stop w5 H5.
  wp_step.
  eapply (stage_addRecoveryAttempt e k _ _ _
            (attempt_added l healing (healing_record b)));
    [ | intros t i Hi; exact Hi | exact H5 |].
  { intros i [Hl Hst]. split; [exact Hst|]. eexists. split; [simpl; rewrite Hl; reflexivity|].
    repeat split; simpl; apply Herr. }
  intros w6 H6. wp_step.
  assert (Hend : forall (b' : bool) w7,
             at_stage e (ix + n) k (attempt_added l healing (healing_record b)) w7 ->
             wp (ret [("success", JBool b); ("actionTaken", JStr action);
                      ("error", opt_str err)])
                (fun r w2 =>
                   exists d ix', r = Ok d
                     /\ obj_get "success" d = JBool b
                     /\ (ix <= ix' <= ix + 2)%nat
                     /\ at_stage e ix' k (attempt_added l healing (healing_record b)) w2)
                w7).
  { intros _ w7 H7. wp_step. eexists. exists (ix + n)%nat.
    split; [reflexivity|]. split; [reflexivity|]. split; [lia | exact H7]. }
  destruct b; (eapply stage_emit; [exact H6|]); intros b' w7 H7;
    apply (Hend b'), H7.
Qed.

Lemma runHealingAgent_at_stage (e : Env) (k strategy : string) (ix : nat)
      (l : list RecoveryAttempt) (w : World) :
  at_stage e ix k (fun i => attemptedActions i = l) w ->
  wp (runHealingAgent k strategy)
     (fun r w' =>
        exists r' ix', r = Ok r' /\ agent r' = "Self-Healing Agent" /\ success r' = true
          /\ obj_get "success" (res_data r') = JBool (healing_outcome e ix strategy)
          /\ (ix <= ix' <= ix + 2)%nat
          /\ at_stage e ix' k
               (attempt_added l healing
                  (healing_record (healing_outcome e ix strategy))) w') w.
Proof.
  intros H. unfold runHealingAgent.
  apply (executeAgent_at_stage e k _ _ ix (fun ix' => ix <= ix' <= ix + 2)%nat
           (fun i => attemptedActions i = l)
           (attempt_added l healing (healing_record (healing_outcome e ix strategy)))
           (fun d => obj_get "success" d = JBool (healing_outcome e ix strategy)));
    [intros t i Hi; exact Hi | intros t i Hi; exact Hi | exact H |].
  intros w1 H1. apply healing_body_at_stage, H1.
Qed.

(** X20: with subscribers that do not throw, the Self-Healing stage
    run for an incident of the store puts it in status [healing] and
    adds exactly one attempt at the end of its attempts: a
    [restart_pod] on 'demo-app' whose success flag is the outcome of
    the reset and of the health check that follows, and which carries
    an error exactly when it failed.  The stage itself returns a
    successful result, whose [success] datum is that same flag, after
    two requests at most. *)
Theorem X20_healing_records_one_attempt
        (w : World) (k strategy : string) (i : Incident) :
  quiet w -> store_get k (incidents w) = Some i ->
  let b := healing_outcome (env w) (fetch_ix w) strategy in
  let w' := state_of (runHealingAgent k strategy) w in
  (exists r, result_of (runHealingAgent k strategy) w = Ok r
             /\ success r = true
             /\ obj_get "success" (res_data r) = JBool b)
  /\ incident_sat k (attempt_added (attemptedActions i) healing (healing_record b)) w'
  /\ (fetch_ix w <= fetch_ix w' <= fetch_ix w + 2)%nat.
Proof.
  intros Hq Hi b w'.
  pose proof (at_stage_intro w k i (fun i' => attemptedActions i' = attemptedActions i)
                Hq Hi eq_refl) as H.
  apply (runHealingAgent_at_stage _ _ strategy) in H.
  unfold wp in H. fold w' in H. fold b in H.
  destruct H as (r' & ix' & Hr & _ & Hs & Hd & Hix & (_ & _ & Hf) & Hsat).
  split; [exists r'; repeat split; assumption|].
  split; [exact Hsat|]. rewrite Hf. exact Hix.
Qed.

Lemma X20_healing_records_one_attempt_witness :
  let w := world_three_attempts in
  let b := healing_outcome (env w) (fetch_ix w) "restart_service" in
  let w' := state_of (runHealingAgent "INC-2" "restart_service") w in
  (exists r, result_of (runHealingAgent "INC-2" "restart_service") w = Ok r
             /\ success r = true
             /\ obj_get "success" (res_data r) = JBool b)
  /\ incident_sat "INC-2"
       (attempt_added (attemptedActions struggling_incident) healing (healing_record b)) w'
  /\ (fetch_ix w <= fetch_ix w' <= fetch_ix w + 2)%nat.
Proof.
  apply (X20_healing_records_one_attempt world_three_attempts "INC-2" "restart_service"
           struggling_incident).
  - apply quiet_set_incidents, quiet_logger.
  - reflexivity.
Defined.

Lemma disaster_recovery_body_at_stage (e : Env) (k : string) (ix : nat)
      (l : list RecoveryAttempt) (w : World) :
  at_stage e ix k (fun i => attemptedActions i = l) w ->
  wp (disaster_recovery_body k)
     (fun r w2 =>
        exists d ix', r = Ok d
          /\ (obj_get "readyForTraffic" d = JBool (dr_outcome e ix)
              /\ obj_get "recoveryStatus" d
                 = JStr (if dr_outcome e ix then "success" else "partial"))
          /\ (ix < ix' <= ix + 6)%nat
          /\ at_stage e ix' k
               (attempt_added l recovering (dr_record (dr_outcome e ix))) w2) w.
Proof.
  intros H. unfold disaster_recovery_body.
  wp_step.
  eapply (stage_updateStatus e k recovering ix _
            (fun i => attemptedActions i = l /\ status i = recovering));
    [ intros i Hi; split; [exact Hi | reflexivity]
    | intros t i Hi; exact Hi
    | exact H |].
  intros w1 H1.
  wp_step. eapply stage_emit; [exact H1|]. intros b1 w2 H2.
  wp_step. eapply stage_emit; [exact H2|]. intros b2 w3 H3.
  wp_step. eapply stage_sleep; [exact H3|]. intros w4 H4.
  wp_step. eapply stage_emit; [exact H4|]. intros b3 w5 H5.
  match goal with |- wp (bind _ ?f) _ _ => set (rest := f) end.
  assert (Hk : forall restarted w6,
             at_stage e (S ix) k
               (fun i => attemptedActions i = l /\ status i = recovering) w6 ->
             wp (rest restarted)
                (fun r w2 =>
                   exists d ix', r = Ok d
                     /\ (obj_get "readyForTraffic" d = JBool (dr_outcome e ix)
                         /\ obj_get "recoveryStatus" d
                            = JStr (if dr_outcome e ix then "success" else "partial"))
                     /\ (ix < ix' <= ix + 6)%nat
                     /\ at_stage e ix' k
                          (attempt_added l recovering (dr_record (dr_outcome e ix))) w2)
                w6).
  { intros restarted w6 H6. unfold rest.
    wp_step. eapply stage_sleep; [exact H6|]. intros w7 H7.
    wp_step. eapply stage_emit; [exact H7|]. intros b4 w8 H8.
    wp_step. eapply stage_dr_health_loop; [exact H8|]. intros w9 H9.
    fold (dr_outcome e ix) in *.
    pose proof (failed_probes_le e 5 (S ix)) as Hle.
    set (ix' := (S ix + failed_probes e (S ix) 5
                 + (if dr_outcome e ix then 1 else 0))%nat) in *.
    assert (Hix : (ix < ix' <= ix + 6)%nat).
    { unfold ix', dr_outcome.
      destruct (Nat.ltb_spec (failed_probes e (S ix) 5) 5); lia. }
    clearbody ix'.
    wp_step. eapply stage_Date_now; [exact H9|]. intros stamp w10 H10.
    wp_step.
    eapply (stage_addRecoveryAttempt e k _ _ _
              (attempt_added l recovering (dr_record (dr_outcome e ix))));
      [ | intros t i Hi; exact Hi | exact H10 |].
    { intros i [Hl Hst]. split; [exact Hst|]. eexists.
      split; [simpl; rewrite Hl; reflexivity|]. repeat split. }
    intros w11 H11.
    wp_step. eapply stage_emit; [exact H11|]. intros b5 w12 H12.
    wp_step. eexists. exists ix'. split; [reflexivity|].
    split; [split; reflexivity|]. split; [exact Hix | exact H12]. }
  clearbody rest.
  wp_step. wp_step. wp_step. eapply stage_fetch; [exact H5|]. intros w6 H6.
  destruct (fetch_at e ix) as [r|msg]; cbv beta iota; wp_step; apply Hk, H6.
Qed.

Lemma runDisasterRecoveryAgent_at_stage (e : Env) (k : string) (ix : nat)
      (l : list RecoveryAttempt) (w : World) :
  at_stage e ix k (fun i => attemptedActions i = l) w ->
  wp (runDisasterRecoveryAgent k)
     (fun r w' =>
        exists r' ix', r = Ok r' /\ agent r' = "Disaster Recovery Agent"
          /\ success r' = true
          /\ (obj_get "readyForTraffic" (res_data r') = JBool (dr_outcome e ix)
              /\ obj_get "recoveryStatus" (res_data r')
                 = JStr (if dr_outcome e ix then "success" else "partial"))
          /\ (ix < ix' <= ix + 6)%nat
          /\ at_stage e ix' k
               (attempt_added l recovering (dr_record (dr_outcome e ix))) w') w.
Proof.
  intros H. unfold runDisasterRecoveryAgent.
  apply (executeAgent_at_stage e k _ _ ix (fun ix' => ix < ix' <= ix + 6)%nat
           (fun i => attemptedActions i = l)
           (attempt_added l recovering (dr_record (dr_outcome e ix)))
           (fun d => obj_get "readyForTraffic" d = JBool (dr_outcome e ix)
                     /\ obj_get "recoveryStatus" d
                        = JStr (if dr_outcome e ix then "success" else "partial")));
    [intros t i Hi; exact Hi | intros t i Hi; exact Hi | exact H |].
  intros w1 H1. apply disaster_recovery_body_at_stage, H1.
Qed.

(** X21: with subscribers that do not throw, the Disaster Recovery
    stage run for an incident of the store puts it in status
    [recovering] and adds exactly one attempt at the end of its
    attempts: a [restore_database] on 'demo-app + demo-db', of duration
    4000 and without error, whose success flag tells whether one of the
    five health requests after the reset request was answered with a
    2xx status, whatever the reset request itself came back with.  The
    stage returns a successful result whose [readyForTraffic] is that
    flag, after six requests at most. *)
Theorem X21_disaster_recovery_records_one_attempt
        (w : World) (k : string) (i : Incident) :
  quiet w -> store_get k (incidents w) = Some i ->
  let b := dr_outcome (env w) (fetch_ix w) in
  let w' := state_of (runDisasterRecoveryAgent k) w in
  (exists r, result_of (runDisasterRecoveryAgent k) w = Ok r
             /\ success r = true
             /\ obj_get "readyForTraffic" (res_data r) = JBool b
             /\ obj_get "recoveryStatus" (res_data r)
                = JStr (if b then "success" else "partial"))
  /\ incident_sat k (attempt_added (attemptedActions i) recovering (dr_record b)) w'
  /\ (fetch_ix w < fetch_ix w' <= fetch_ix w + 6)%nat.
Proof.
  intros Hq Hi b w'.
  pose proof (at_stage_intro w k i (fun i' => attemptedActions i' = attemptedActions i)
                Hq Hi eq_refl) as H.
  apply runDisasterRecoveryAgent_at_stage in H.
  unfold wp in H. fold w' in H. fold b in H.
  destruct H as (r' & ix' & Hr & _ & Hs & [Hd1 Hd2] & Hix & (_ & _ & Hf) & Hsat).
  split; [exists r'; repeat split; assumption|].
  split; [exact Hsat|]. rewrite Hf. exact Hix.
Qed.

Lemma X21_disaster_recovery_records_one_attempt_witness :
  let w := world_three_attempts in
  let b := dr_outcome (env w) (fetch_ix w) in
  let w' := state_of (runDisasterRecoveryAgent "INC-2") w in
  (exists r, result_of (runDisasterRecoveryAgent "INC-2") w = Ok r
             /\ success r = true
             /\ obj_get "readyForTraffic" (res_data r) = JBool b
             /\ obj_get "recoveryStatus" (res_data r)
                = JStr (if b then "success" else "partial"))
  /\ incident_sat "INC-2"
       (attempt_added (attemptedActions struggling_incident) recovering (dr_record b)) w'
  /\ (fetch_ix w < fetch_ix w' <= fetch_ix w + 6)%nat.
Proof.
  apply (X21_disaster_recovery_records_one_attempt world_three_attempts "INC-2"
           struggling_incident).
  - apply quiet_set_incidents, quiet_logger.
  - reflexivity.
Defined.

(** ** The attempts of a pipeline run *)

Lemma stage_setReport (e : Env) (k : string) (rep : IncidentReport) (ix : nat)
      (P P' : Incident -> Prop) (Q : Result unit -> World -> Prop) (w : World) :
  (forall i, P i -> P' (with_report rep i)) ->
  at_stage e ix k P w ->
  (forall w', at_stage e ix k P' w' -> Q (Ok tt) w') ->
  wp (setReport k rep) Q w.
Proof.
  intros Hr H HQ. unfold setReport. wp_step.
  eapply stage_getIncident; [exact H|]. intros i HP Hi. cbv beta iota. wp_step.
  eapply (stage_mutate _ _ _ _ P P'); [exact Hr | exact H |]. intros w1 H1. cbv beta iota.
  wp_step. eapply stage_emit; [exact H1|]. intros b w2 H2. wp_step. apply HQ, H2.
Qed.

Lemma runObservabilityAgent_at_stage (e : Env) (k : string) (a : AnomalyReport)
      (s : HealthSnapshot) (ix : nat) (P : Incident -> Prop) (w : World) :
  (forall t i, P i -> P (with_timeline t i)) ->
  at_stage e ix k P w ->
  wp (runObservabilityAgent k a s)
     (fun r w' => exists r', r = Ok r' /\ at_stage e ix k P w') w.
Proof.
  intros Ht H. unfold runObservabilityAgent.
  eapply wp_conseq.
  - apply (executeAgent_at_stage e k _ _ ix (eq ix) P P (fun _ => True));
      [exact Ht | exact Ht | exact H |].
    intros w1 H1. unfold observability_body.
    wp_step. eapply stage_sleep; [exact H1|]. intros w2 H2. wp_step.
    eexists. exists ix. repeat split; apply H2.
  - intros r w' (r' & ix' & -> & _ & _ & _ & <- & H'). exists r'. split; [reflexivity | exact H'].
Qed.

Lemma runAnalyzerAgent_at_stage (e : Env) (k : string) (a : AnomalyReport)
      (s : HealthSnapshot) (ix : nat) (l : list RecoveryAttempt) (w : World) :
  at_stage e ix k (fun i => attemptedActions i = l) w ->
  wp (runAnalyzerAgent k a s)
     (fun r w' => exists r', r = Ok r'
                    /\ fixStrategy_of (res_data r') = snd (fst (analysis (ar_failureType a)))
                    /\ at_stage e ix k (fun i => attemptedActions i = l) w') w.
Proof.
  intros H. unfold runAnalyzerAgent.
  eapply wp_conseq.
  - apply (executeAgent_at_stage e k _ _ ix (eq ix) (fun i => attemptedActions i = l)
             (fun i => attemptedActions i = l)
             (fun d => fixStrategy_of d = snd (fst (analysis (ar_failureType a)))));
      [intros t i Hi; exact Hi | intros t i Hi; exact Hi | exact H |].
    intros w1 H1. unfold analyzer_body.
    wp_step.
    eapply (stage_updateStatus e k analyzing ix _ (fun i => attemptedActions i = l));
      [intros i Hi; exact Hi | intros t i Hi; exact Hi | exact H1 |].
    intros w2 H2. wp_step. eapply stage_sleep; [exact H2|]. intros w3 H3.
    pose proof (analysis_strategy_known (ar_failureType a)) as Hknown.
    destruct (analysis (ar_failureType a)) as [[[cause category] strategy] confidence].
    cbn [fst snd] in *.
    wp_step.
    eapply (stage_setRootCause e k cause ix _ (fun i => attemptedActions i = l));
      [intros i Hi; exact Hi | exact H3 |].
    intros w4 H4. wp_step. eexists. exists ix.
    split; [reflexivity|]. split; [|split; [reflexivity | exact H4]].
    unfold fixStrategy_of. cbn [obj_get String.eqb Ascii.eqb Bool.eqb].
    change (obj_get "fixStrategy" _) with (JStr strategy).
    destruct (String.eqb_spec strategy ""); [subst; discriminate | reflexivity].
  - intros r w' (r' & ix' & -> & _ & _ & Hd & <- & H').
    exists r'. split; [reflexivity|]. split; assumption.
Qed.

Lemma runRecoveryDecisionAgent_at_stage (e : Env) (k : string) (hs : JValue)
      (ix : nat) (P : Incident -> Prop) (w : World) :
  (forall t i, P i -> P (with_timeline t i)) ->
  at_stage e ix k P w ->
  wp (runRecoveryDecisionAgent k hs)
     (fun r w' => exists r', r = Ok r'
                    /\ obj_get "decision" (res_data r')
                       = JStr (if truthy hs then "resolved" else "escalate_dr")
                    /\ at_stage e ix k P w') w.
Proof.
  intros Ht H. unfold runRecoveryDecisionAgent.
  eapply wp_conseq.
  - apply (executeAgent_at_stage e k _ _ ix (eq ix) P P
             (fun d => obj_get "decision" d
                       = JStr (if truthy hs then "resolved" else "escalate_dr")));
      [exact Ht | exact Ht | exact H |].
    intros w1 H1. unfold decision_body.
    wp_step. eapply stage_sleep; [exact H1|]. intros w2 H2.
    destruct (truthy hs).
    + wp_step. eexists. exists ix. repeat split; apply H2.
    + wp_step. wp_step. destruct (3 <=? _); wp_step;
        (eexists; exists ix; repeat split; apply H2).
  - intros r w' (r' & ix' & -> & _ & _ & Hd & <- & H').
    exists r'. split; [reflexivity|]. split; assumption.
Qed.

Lemma runTrafficSwitchAgent_at_stage (e : Env) (k : string) (rft : JValue)
      (ix : nat) (P : Incident -> Prop) (w : World) :
  (forall t i, P i -> P (with_timeline t i)) ->
  at_stage e ix k P w ->
  wp (runTrafficSwitchAgent k rft)
     (fun r w' => exists r' ix', r = Ok r' /\ (ix <= ix' <= ix + 1)%nat
                                 /\ at_stage e ix' k P w') w.
Proof.
  intros Ht H. unfold runTrafficSwitchAgent.
  eapply wp_conseq.
  - apply (executeAgent_at_stage e k _ _ ix (fun ix' => ix <= ix' <= ix + 1)%nat P P
             (fun _ => True)); [exact Ht | exact Ht | exact H |].
    intros w1 H1. destruct (truthy rft) eqn:Hr.
    + eapply wp_conseq; [apply traffic_switch_ready; eassumption|].
      intros r w2 (d & ix' & -> & _ & -> & H2). exists d, (S ix).
      repeat split; try lia; apply H2.
    + unfold traffic_switch_body.
      wp_step. eapply stage_emit; [exact H1|]. intros b w2 H2.
      rewrite Hr. cbn [negb]. cbv iota. wp_step.
      eexists. exists ix. repeat split; try lia; apply H2.
  - intros r w' (r' & ix' & -> & _ & _ & _ & Hix & H').
    exists r', ix'. split; [reflexivity|]. split; assumption.
Qed.

Lemma runReporterAgent_reports (e : Env) (k : string) (ix : nat)
      (P : Incident -> Prop) (w : World) :
  (forall t i, P i -> P (with_timeline t i)) ->
  (forall r i, P i -> P (with_report r i)) ->
  (forall st i, P i -> P (with_status st i)) ->
  (forall t i, P i -> P (with_resolvedAt t i)) ->
  at_stage e ix k P w ->
  wp (runReporterAgent k)
     (fun r w' => exists r', r = Ok r' /\ at_stage e ix k (reported_from k P) w') w.
Proof.
  intros Ct Cr Cs Ca H. unfold runReporterAgent.
  eapply wp_conseq.
  - apply (executeAgent_at_stage e k _ _ ix (eq ix) P (reported_from k P)
             (fun _ => True)); [exact Ct | | exact H |].
    { intros t i (HP & Hst & i1 & t1 & t2 & HP1 & Hrep).
      split; [apply Ct, HP|]. split; [exact Hst|]. exists i1, t1, t2. split; assumption. }
    intros w1 H1. unfold reporter_body.
    wp_step. eapply stage_getIncident; [exact H1|]. intros i0 _ _. cbv beta iota.
    wp_step. eapply stage_sleep; [exact H1|]. intros w2 H2.
    wp_step. eapply stage_getIncident; [exact H2|]. intros i1 HP1 _. cbv beta iota.
    match goal with |- wp (bind _ ?f) _ _ => set (rest := f) end.
    assert (Hrest : forall dur w3,
               at_stage e ix k P w3 ->
               wp (rest dur)
                  (fun r w2 => exists d ix', r = Ok d /\ True /\ ix = ix'
                                 /\ at_stage e ix' k (reported_from k P) w2) w3).
    { intros dur w3 H3. unfold rest.
      wp_step. eapply stage_Date_now; [exact H3|]. intros t1 w4 H4.
      wp_step. eapply stage_Date_now; [exact H4|]. intros t2 w5 H5.
      cbv zeta.
      change (Build_IncidentReport _ k _ _ _ _ t2) with (report_of k i1 t1 t2).
      wp_step.
      eapply (stage_setReport e k _ ix P
                (fun i => P i /\ report i = Some (report_of k i1 t1 t2)));
        [intros i Hi; split; [apply Cr, Hi | reflexivity] | exact H5 |].
      intros w6 H6. wp_step.
      eapply (stage_updateStatus e k resolved ix
                (fun i => P i /\ report i = Some (report_of k i1 t1 t2))
                (reported_from k P));
        [ intros i [Hi Hr]; split; [apply Cs, Hi|]; split; [reflexivity|];
          exists i1, t1, t2; split; assumption
        | intros t i (Hi & Hst & Hr); split; [apply Ca, Hi|]; split; [exact Hst|];
          exact Hr
        | exact H6 |].
      intros w7 H7. wp_step. eapply stage_emit; [exact H7|]. intros b w8 H8.
      wp_step. eexists. exists ix. split; [reflexivity|]. repeat split; apply H8. }
    clearbody rest. wp_step.
    destruct (resolvedAt i1).
    + wp_step. apply Hrest, H2.
    + wp_step. eapply stage_Date_now; [exact H2|]. intros t w3 H3. wp_step.
      apply Hrest, H3.
  - intros r w' (r' & ix' & -> & _ & _ & _ & <- & H').
    exists r'. split; [reflexivity | exact H'].
Qed.

Lemma runReporterAgent_at_stage (e : Env) (k : string) (ix : nat)
      (l : list RecoveryAttempt) (w : World) :
  at_stage e ix k (fun i => attemptedActions i = l) w ->
  wp (runReporterAgent k)
     (fun r w' => exists r', r = Ok r'
                    /\ at_stage e ix k
                         (fun i => attemptedActions i = l /\ status i = resolved) w') w.
Proof.
  intros H.
  eapply wp_conseq;
    [apply (runReporterAgent_reports e k ix (fun i => attemptedActions i = l));
     try (intros ? i Hi; exact Hi); exact H|].
  intros r w' (r' & -> & [Hio (i & Hi & Hl & Hst & _)]).
  exists r'. split; [reflexivity|]. split; [exact Hio|]. exists i. repeat split; assumption.
Qed.

Lemma at_stage_weaken (e : Env) (ix : nat) (k : string) (P P' : Incident -> Prop)
      (w : World) :
  (forall i, P i -> P' i) -> at_stage e ix k P w -> at_stage e ix k P' w.
Proof.
  intros HPP' [Hio (i & Hi & HP)]. split; [exact Hio|]. exists i. split; [exact Hi|].
  apply HPP', HP.
Qed.

Lemma at_stage_attempt_added (e : Env) (ix : nat) (k : string)
      (l : list RecoveryAttempt) (st : IncidentStatus) (A : RecoveryAttempt -> Prop)
      (w : World) :
  at_stage e ix k (attempt_added l st A) w ->
  exists a, A a /\ at_stage e ix k (fun i => attemptedActions i = (l ++ [a])%list) w.
Proof.
  intros [Hio (i & Hi & _ & a & Hl & HA)]. exists a. split; [exact HA|].
  split; [exact Hio|]. exists i. split; assumption.
Qed.

Lemma createIncident_at_stage (ft : FailureType) (sev : Severity) (svc : list string)
      (w : World) :
  quiet w ->
  wp (createIncident ft sev svc)
     (fun r w' => exists i, r = Ok i /\ id i = next_id w
                    /\ at_stage (env w) (fetch_ix w) (next_id w)
                         (fun i' => attemptedActions i' = []) w') w.
Proof.
  intros Hq. unfold createIncident, generateId.
  do 3 wp_step. do 2 wp_step. do 5 wp_step.
  set (newId := ("INC-" ++ _)%string).
  assert (Hk : newId = next_id w) by reflexivity. clearbody newId. subst newId.
  set (inc := Build_Incident (next_id w) _ _ _ _ _ _ _ _ _ _).
  set (w2 := put_store _ _).
  assert (H2 : at_stage (env w) (fetch_ix w) (next_id w)
                 (fun i' => attemptedActions i' = []) w2).
  { split; [repeat split; exact Hq|]. exists inc. split; [|reflexivity].
    unfold w2; simpl. apply store_get_set_same. }
  clearbody w2.
  wp_step. eapply stage_emit; [exact H2|]. intros b w3 H3.
  wp_step. eapply stage_addTimeline; [| exact H3 |]; [intros t i Hi; exact Hi|].
  intros w4 H4. wp_step. exists inc. split; [reflexivity|]. split; [reflexivity | exact H4].
Qed.

(** X22: with subscribers that do not throw, the incident a pipeline
    run opens ends resolved with one attempt or with two.  When the
    reset request and the health request of the Self-Healing stage are
    answered well, it has the one successful [restart_pod] attempt and
    nothing else; otherwise it has a failed [restart_pod] attempt
    followed by the one [restore_database] attempt of the Disaster
    Recovery stage.  A run sends nine requests at most. *)
Theorem X22_pipeline_attempts (w : World) (a : AnomalyReport) (s : HealthSnapshot) :
  quiet w ->
  let w' := state_of (runPipeline a s) w in
  let b1 := healing_outcome (env w) (fetch_ix w)
              (snd (fst (analysis (ar_failureType a)))) in
  incident_sat (next_id w)
    (fun i => status i = resolved /\ pipeline_attempts b1 i) w'
  /\ (fetch_ix w <= fetch_ix w' <= fetch_ix w + 9)%nat.
Proof.
  intros Hq. cbv zeta.
  change (wp (runPipeline a s)
            (fun _ w' =>
               incident_sat (next_id w)
                 (fun i => status i = resolved
                           /\ pipeline_attempts
                                (healing_outcome (env w) (fetch_ix w)
                                   (snd (fst (analysis (ar_failureType a))))) i) w'
               /\ (fetch_ix w <= fetch_ix w' <= fetch_ix w + 9)%nat) w).
  unfold runPipeline. do 5 wp_step.
  eapply wp_conseq; [apply createIncident_at_stage; exact Hq|].
  change (next_id (set_pipelineRunning true w)) with (next_id w).
  change (env (set_pipelineRunning true w)) with (env w).
  change (fetch_ix (set_pipelineRunning true w)) with (fetch_ix w).
  set (k := next_id w). set (e := env w). set (ix := fetch_ix w).
  set (strategy := snd (fst (analysis (ar_failureType a)))).
  intros r w1 (i & -> & Hid & H1). cbv beta iota zeta. rewrite Hid.
  wp_step.
  eapply wp_conseq;
    [apply runObservabilityAgent_at_stage; [|exact H1]; intros t i0 Hi; exact Hi|].
  intros r w2 (r1 & -> & H2). cbv beta iota.
  wp_step. eapply wp_conseq; [apply runAnalyzerAgent_at_stage; exact H2|].
  intros r w3 (r2 & -> & Hstr & H3). cbv beta iota. rewrite Hstr. fold strategy.
  wp_step. eapply wp_conseq; [apply runHealingAgent_at_stage; exact H3|].
  intros r w4 (r3 & ix1 & -> & _ & _ & Hd & Hix1 & H4). cbv beta iota. rewrite Hd.
  apply at_stage_attempt_added in H4. destruct H4 as (a1 & Ha1 & H4).
  cbn [app] in H4.
  set (b1 := healing_outcome e ix strategy) in *. clearbody b1.
  wp_step.
  eapply wp_conseq;
    [apply runRecoveryDecisionAgent_at_stage; [|exact H4]; intros t i0 Hi; exact Hi|].
  intros r w5 (r4 & -> & Hdec & H5). cbv beta iota. rewrite Hdec.
  cbn [truthy]. wp_step.
  destruct b1; cbn [is_str String.eqb Ascii.eqb Bool.eqb]; cbv iota.
  - wp_step.
    eapply wp_conseq; [apply runReporterAgent_at_stage; exact H5|].
    intros r w6 (r5 & -> & H6). cbv beta iota. repeat wp_step.
    destruct H6 as [(_ & _ & Hf) (i6 & Hi6 & Hl6 & Hs6)].
    split; [|simpl; lia].
    exists i6. split; [exact Hi6|]. split; [exact Hs6|].
    exists a1. split; assumption.
  - wp_step.
    eapply (stage_updateStatus e k escalated ix1 _
              (fun i0 => attemptedActions i0 = [a1]));
      [intros i0 Hi; exact Hi | intros t i0 Hi; exact Hi | exact H5 |].
    intros w6 H6. wp_step.
    eapply wp_conseq; [apply runDisasterRecoveryAgent_at_stage; exact H6|].
    intros r w7 (r5 & ix2 & -> & _ & _ & _ & Hix2 & H7). cbv beta iota.
    apply at_stage_attempt_added in H7. destruct H7 as (a2 & Ha2 & H7).
    cbn [app] in H7.
    wp_step.
    eapply wp_conseq;
      [apply runTrafficSwitchAgent_at_stage; [|exact H7]; intros t i0 Hi; exact Hi|].
    intros r w8 (r6 & ix3 & -> & Hix3 & H8). cbv beta iota.
    wp_step.
    eapply wp_conseq; [apply runReporterAgent_at_stage; exact H8|].
    intros r w9 (r7 & -> & H9). cbv beta iota. repeat wp_step.
    destruct H9 as [(_ & _ & Hf) (i9 & Hi9 & Hl9 & Hs9)].
    split; [|simpl; lia].
    exists i9. split; [exact Hi9|]. split; [exact Hs9|].
    exists a1, a2. eexists. split; [exact Hl9|]. split; [exact Ha1 | exact Ha2].
Qed.

Lemma X22_pipeline_attempts_witness :
  let w := world_three_attempts in
  let w' := state_of (runPipeline memory_anomaly unreachable) w in
  let b1 := healing_outcome (env w) (fetch_ix w)
              (snd (fst (analysis (ar_failureType memory_anomaly)))) in
  incident_sat (next_id w)
    (fun i => status i = resolved /\ pipeline_attempts b1 i) w'
  /\ (fetch_ix w <= fetch_ix w' <= fetch_ix w + 9)%nat.
Proof.
  apply (X22_pipeline_attempts world_three_attempts memory_anomaly unreachable).
  apply quiet_set_incidents, quiet_logger.
Defined.

(** ** The prober *)

(** X24: the probe of the monitored application never throws and
    sends exactly one request.  It flags the application healthy
    exactly when that request is answered with a 2xx status and a body
    whose [status] is 'healthy', the criterion the recovery stages use.
    When the request itself fails, the probe reports status code 0 with
    the message of the failure, and every snapshot built on it is
    classified as a critical [service_down], whatever the metrics
    say. *)
Theorem X24_probe_meets_classifier (stringify : JValue -> string) (w : World) :
  let w' := state_of (checkDemoAppHealth stringify) w in
  (exists app, result_of (checkDemoAppHealth stringify) w = Ok app
     /\ healthy app = healthy_answer (env w) (fetch_ix w)
     /\ (forall msg, fetch_at (env w) (fetch_ix w) = Throw msg ->
           statusCode app = ZNum 0 /\ error app = Some msg
           /\ forall s, demoApp s = app ->
                verdict (detectAnomalies s) = Some (service_down, critical)))
  /\ fetch_ix w' = S (fetch_ix w).
Proof.
  cbv zeta.
  change (wp (checkDemoAppHealth stringify)
            (fun r w' =>
               (exists app, r = Ok app
                  /\ healthy app = healthy_answer (env w) (fetch_ix w)
                  /\ (forall msg, fetch_at (env w) (fetch_ix w) = Throw msg ->
                        statusCode app = ZNum 0 /\ error app = Some msg
                        /\ forall s, demoApp s = app ->
                             verdict (detectAnomalies s) = Some (service_down, critical)))
               /\ fetch_ix w' = S (fetch_ix w)) w).
  unfold checkDemoAppHealth, healthy_answer. do 4 wp_step. wp_step.
  change (fetch_at (env (set_now_ix (S (now_ix w)) w))
                   (fetch_ix (set_now_ix (S (now_ix w)) w)))
    with (fetch_at (env w) (fetch_ix w)).
  destruct (fetch_at (env w) (fetch_ix w)) as [response|msg].
  - do 3 wp_step. unfold json.
    destruct (resp_json response) as [body|msg].
    + wp_step. wp_step. destruct (resp_ok response); cbn [andb].
      * destruct body; cbn [body_status_healthy]; repeat wp_step;
          (split; [|reflexivity]); eexists; (split; [reflexivity|]);
          (split; [reflexivity|]); intros msg0 Hm; discriminate.
      * repeat wp_step. split; [|reflexivity]. eexists. split; [reflexivity|].
        split; [reflexivity|]. intros msg0 Hm; discriminate.
    + repeat wp_step. split; [|reflexivity]. eexists. split; [reflexivity|].
      split; [symmetry; apply andb_false_r|]. intros msg0 Hm; discriminate.
  - repeat wp_step. split; [|reflexivity]. eexists. split; [reflexivity|].
    split; [reflexivity|]. intros msg0 [= <-].
    split; [reflexivity|]. split; [reflexivity|].
    intros s Hs. unfold detectAnomalies. rewrite Hs. reflexivity.
Qed.

(** ** The report *)

Lemma generateRecommendations_base (ft : FailureType) :
  exists specific,
    generateRecommendations ft = (specific ++ base_recommendations)%list
    /\ (List.length specific = 3 \/ specific = [])%nat.
Proof.
  destruct ft; cbn [generateRecommendations];
    first [ eexists; split; [reflexivity | left; reflexivity]
          | exists []; split; [reflexivity | right; reflexivity] ].
Qed.

(** X25: with subscribers that do not throw, the report the Reporter
    stores on an incident names the incident; its root cause analysis is
    the root cause of the incident, or 'Root cause analysis pending'
    when there is none or an empty one; its summary has one line per
    attempt, in order; its recommendations are those of the failure
    type and always end with the three general ones.  The attempts of
    the incident are left as they are. *)
Theorem X25_report_content (w : World) (k : string) (i : Incident) :
  quiet w -> store_get k (incidents w) = Some i ->
  exists i' rep,
    store_get k (incidents (state_of (runReporterAgent k) w)) = Some i'
    /\ status i' = resolved
    /\ attemptedActions i' = attemptedActions i
    /\ report i' = Some rep
    /\ rep_incidentId rep = k
    /\ rep_rootCauseAnalysis rep
       = match rootCause i with
         | Some c => if String.eqb c "" then "Root cause analysis pending" else c
         | None => "Root cause analysis pending"
         end
    /\ rep_actionsSummary rep
       = String.concat newline (map attempt_line (attemptedActions i))
    /\ rep_preventionRecommendations rep = generateRecommendations (failureType i)
    /\ exists specific,
         rep_preventionRecommendations rep = (specific ++ base_recommendations)%list
         /\ (List.length specific = 3 \/ specific = [])%nat.
Proof.
  intros Hq Hi.
  set (P := fun i' : Incident =>
              attemptedActions i' = attemptedActions i
              /\ rootCause i' = rootCause i /\ failureType i' = failureType i).
  assert (H : at_stage (env w) (fetch_ix w) k P w)
    by (apply (at_stage_intro w k i P Hq Hi); repeat split).
  apply runReporterAgent_reports in H; try (intros ? i0 Hi0; exact Hi0).
  unfold wp in H. destruct H as (r' & _ & _ & i' & Hi' & HP & Hst & i1 & t1 & t2 & HP1 & Hrep).
  destruct HP as (Ha & _ & _). destruct HP1 as (Ha1 & Hc1 & Hf1).
  exists i', (report_of k i1 t1 t2).
  split; [exact Hi'|]. split; [exact Hst|]. split; [exact Ha|]. split; [exact Hrep|].
  unfold report_of; cbn [rep_incidentId rep_rootCauseAnalysis rep_actionsSummary
                           rep_preventionRecommendations].
  rewrite Ha1, Hc1, Hf1. repeat split. apply generateRecommendations_base.
Qed.

Lemma X25_report_content_witness :
  exists i' rep,
    store_get "INC-2" (incidents (state_of (runReporterAgent "INC-2") world_three_attempts))
    = Some i'
    /\ status i' = resolved
    /\ attemptedActions i' = attemptedActions struggling_incident
    /\ report i' = Some rep
    /\ rep_incidentId rep = "INC-2"
    /\ rep_rootCauseAnalysis rep
       = match rootCause struggling_incident with
         | Some c => if String.eqb c "" then "Root cause analysis pending" else c
         | None => "Root cause analysis pending"
         end
    /\ rep_actionsSummary rep
       = String.concat newline (map attempt_line (attemptedActions struggling_incident))
    /\ rep_preventionRecommendations rep
       = generateRecommendations (failureType struggling_incident)
    /\ exists specific,
         rep_preventionRecommendations rep = (specific ++ base_recommendations)%list
         /\ (List.length specific = 3 \/ specific = [])%nat.
Proof.
  apply (X25_report_content world_three_attempts "INC-2" struggling_incident).
  - apply quiet_set_incidents, quiet_logger.
  - reflexivity.
Defined.

(** ** The monitored application *)

(** X26: the orchestrator heals the application whenever its database
    answers.  Whatever the chaos state of the application, if the reset
    request of the Self-Healing stage is answered by the reset route
    and the health request that follows by the health route, the
    outcome of the stage's attempt is a success exactly when the
    strategy is a handled one and the database query of the health
    route succeeds; the application is back in its initial state. *)
Theorem X26_healing_heals_the_application
        (e : Env) (ix : nat) (s : Demo.State) (strategy : string)
        (query : Result unit) (now : Z) :
  let s1 := snd (Demo.handle Demo.post_chaos_reset s) in
  fetch_at e ix = Ok (fst (Demo.handle Demo.post_chaos_reset s)) ->
  fetch_at e (S ix) = Ok (fst (Demo.handle (Demo.get_health query now) s1)) ->
  healing_outcome e ix strategy = known_strategy strategy && query_ok query
  /\ snd (Demo.handle (Demo.get_health query now) s1) = Demo.initial.
Proof.
  cbv zeta. intros H1 H2. split; [|cbn; destruct query; reflexivity].
  unfold healing_outcome, probe_ok, healthy_answer. rewrite H1, H2.
  cbn [Demo.handle fst snd Demo.respond resp_status resp_json resp_ok
       Demo.healthy Demo.initial negb].
  destruct query; cbn; rewrite ?andb_true_r, ?andb_false_r; reflexivity.
Qed.

Lemma X26_healing_heals_the_application_witness :
  let s := {| Demo.healthy := false; Demo.memoryLeak := 20;
              Demo.artificialLatency := 5000 |} in
  let e := env_demo s (Ok tt) in
  healing_outcome e 0 "restart_service" = known_strategy "restart_service" && query_ok (Ok tt)
  /\ snd (Demo.handle (Demo.get_health (Ok tt) 0)
            (snd (Demo.handle Demo.post_chaos_reset s))) = Demo.initial.
Proof.
  apply (X26_healing_heals_the_application
           (env_demo {| Demo.healthy := false; Demo.memoryLeak := 20;
                        Demo.artificialLatency := 5000 |} (Ok tt))
           0 _ "restart_service" (Ok tt) 0); reflexivity.
Defined.

(** X27: the health route of the application changes nothing; it
    answers with a 2xx status exactly when the application is marked
    healthy and its database query succeeds, and exactly then with a
    body whose [status] is 'healthy': on its answers the health
    criterion of the Disaster Recovery stage, the status alone, and the
    one of the other stages and of the prober, status and body, agree.
    Each memory-leak request adds ten buffers, and the figure it
    reports is ten times the number of buffers held. *)
Theorem X27_health_route (s : Demo.State) (query : Result unit) (now : Z) :
  let r := fst (Demo.handle (Demo.get_health query now) s) in
  snd (Demo.handle (Demo.get_health query now) s) = s
  /\ resp_ok r = Demo.healthy s && query_ok query
  /\ (forall e ix, fetch_at e ix = Ok r -> healthy_answer e ix = probe_ok e ix)
  /\ (forall usage,
        Demo.memoryLeak (snd (Demo.handle (Demo.post_chaos_memory_leak usage) s))
        = (Demo.memoryLeak s + 10)%nat
        /\ exists body,
             resp_json (fst (Demo.handle (Demo.post_chaos_memory_leak usage) s))
             = Ok (JObj body)
             /\ obj_get "leakedMB" body
                = JNum (ZNum (10 * Z.of_nat (Demo.memoryLeak s + 10)))).
Proof.
  cbv zeta. split; [|split; [|split]].
  - cbn. destruct (Demo.healthy s); [destruct query|]; reflexivity.
  - cbn. destruct (Demo.healthy s); [destruct query|]; reflexivity.
  - intros e ix H. unfold healthy_answer, probe_ok. rewrite H.
    cbn. destruct (Demo.healthy s); [destruct query|]; reflexivity.
  - intros usage. split; [reflexivity|]. eexists. split; [reflexivity|].
    cbn. rewrite Z.mul_comm. reflexivity.
Qed.

(** ** Starting and stopping the orchestrator *)

(** X28: starting an orchestrator that is marked running does nothing:
    no event, no poll, no second timer.  And when a subscriber throws on
    the [system:status] event of [start], [start] throws with the
    orchestrator already marked running but without a timer and without
    the immediate poll; from then on [start] does nothing, so that the
    orchestrator never polls until it is stopped. *)
Theorem X28_start_is_guarded_by_running
        (p : PollInput) (o : Lifecycle) (w : World) (msg : string) :
  running o = false -> pollTimer o = false ->
  result_of (emit system_status started_event) w = Throw msg ->
  exists o1 w1,
    start p o w = (Throw msg, o1, w1)
    /\ running o1 = true /\ pollTimer o1 = false
    /\ emitted_types (trace w1) = (emitted_types (trace w) ++ [system_status])%list
    /\ incidents w1 = incidents w
    /\ forall p' w', start p' o1 w' = (Ok tt, o1, w').
Proof.
  intros Hr Ht He. unfold start. rewrite Hr.
  rewrite (run_pair (emit system_status started_event) w), He, emit_state.
  eexists. eexists. split; [reflexivity|].
  split; [reflexivity|]. split; [exact Ht|].
  split; [apply emit_world_types|]. split; [reflexivity|].
  intros p' w'. reflexivity.
Qed.

Lemma X28_start_is_guarded_by_running_witness :
  exists o1 w1,
    start poll_healthy {| running := false; pollTimer := false |} bus_thrower_first
    = (Throw "subscriber failed", o1, w1)
    /\ running o1 = true /\ pollTimer o1 = false
    /\ emitted_types (trace w1)
       = (emitted_types (trace bus_thrower_first) ++ [system_status])%list
    /\ incidents w1 = incidents bus_thrower_first
    /\ forall p' w', start p' o1 w' = (Ok tt, o1, w').
Proof.
  apply (X28_start_is_guarded_by_running poll_healthy
           {| running := false; pollTimer := false |} bus_thrower_first
           "subscriber failed"); reflexivity.
Defined.

(** X29: whatever the state of the orchestrator and whatever the
    subscribers do, [stop] leaves it neither running nor with a timer,
    publishes exactly one [system:status] event, also when the
    orchestrator was not running, and leaves the incident store alone;
    it throws only if a subscriber does.  After [stop], a [start] with
    subscribers that do not throw goes through: it sets the timer and
    runs one poll at once. *)
Theorem X29_stop_always_resets (o : Lifecycle) (w : World) :
  let o' := snd (fst (stop o w)) in
  let w' := snd (stop o w) in
  running o' = false /\ pollTimer o' = false
  /\ emitted_types (trace w') = (emitted_types (trace w) ++ [system_status])%list
  /\ incidents w' = incidents w
  /\ (quiet w -> fst (fst (stop o w)) = Ok tt)
  /\ forall p w2,
       quiet w2 ->
       start p o' w2
       = (Ok tt, {| running := true; pollTimer := true |},
          state_of (monitoringLoop p) (emit_world system_status started_event w2)).
Proof.
  cbv zeta. unfold stop.
  rewrite (run_pair (emit system_status stopped_event) w), emit_state.
  assert (Hstart : forall p w2,
             quiet w2 ->
             start p {| running := false; pollTimer := false |} w2
             = (Ok tt, {| running := true; pollTimer := true |},
                state_of (monitoringLoop p)
                  (emit_world system_status started_event w2))).
  { intros p w2 Hq. unfold start. cbn [running].
    rewrite (run_pair (emit system_status started_event) w2).
    rewrite (emit_quiet _ _ _ Hq), emit_state. reflexivity. }
  destruct (result_of (emit system_status stopped_event) w) as [b|msg] eqn:E;
    cbn [fst snd running pollTimer];
    (split; [reflexivity|]); (split; [reflexivity|]);
    (split; [apply emit_world_types|]); (split; [reflexivity|]);
    (split; [|exact Hstart]).
  - reflexivity.
  - intros Hq. rewrite (emit_quiet _ _ _ Hq) in E. discriminate.
Qed.

(** ** A poll that cannot publish *)

(** X30: when a subscriber throws on the health event of a poll, the
    poll ends there without an error: the snapshot is not kept, neither
    counter moves, nothing is classified and the incident store is
    left alone.  A subscriber that throws on every health event thus
    keeps the monitor from ever opening an incident. *)
Theorem X30_poll_blinded_by_subscriber (p : PollInput) (w : World) (msg : string) :
  pipelineRunning w = false ->
  result_of (getHealthSnapshot p) w = Throw msg ->
  let w' := state_of (monitoringLoop p) w in
  result_of (monitoringLoop p) w = Ok tt
  /\ lastHealthSnapshot w' = lastHealthSnapshot w
  /\ consecutiveHealthy w' = consecutiveHealthy w
  /\ consecutiveUnhealthy w' = consecutiveUnhealthy w
  /\ pipelineRunning w' = false
  /\ incidents w' = incidents w
  /\ emitted_types (trace w')
     = (emitted_types (trace w)
        ++ [if healthy (in_demoApp p) then health_healthy else health_degraded])%list.
Proof.
  intros Hb Hthrow w'.
  assert (Hrun : monitoringLoop p w = (Ok tt, state_of (getHealthSnapshot p) w)).
  { unfold monitoringLoop. unfold bind at 1. unfold gets. rewrite Hb.
    rewrite (try_catch_throw _ _ w msg).
    - rewrite state_bind, Hthrow. reflexivity.
    - rewrite result_bind, Hthrow. reflexivity. }
  unfold w', result_of, state_of at 1 2 3 4 5 6. rewrite Hrun. cbn [fst snd].
  split; [reflexivity|].
  unfold getHealthSnapshot. rewrite state_bind. cbn [result_of Date_now fst].
  rewrite state_then_ret, emit_state.
  repeat split; try exact Hb.
  rewrite emit_world_types. reflexivity.
Qed.

Lemma X30_poll_blinded_by_subscriber_witness :
  let w := bus_thrower_first in
  let w' := state_of (monitoringLoop poll_down) w in
  result_of (monitoringLoop poll_down) w = Ok tt
  /\ lastHealthSnapshot w' = lastHealthSnapshot w
  /\ consecutiveHealthy w' = consecutiveHealthy w
  /\ consecutiveUnhealthy w' = consecutiveUnhealthy w
  /\ pipelineRunning w' = false
  /\ incidents w' = incidents w
  /\ emitted_types (trace w')
     = (emitted_types (trace w)
        ++ [if healthy (in_demoApp poll_down) then health_healthy else health_degraded])%list.
Proof.
  apply (X30_poll_blinded_by_subscriber poll_down bus_thrower_first "subscriber failed");
    reflexivity.
Defined.
